(** * Live-event engagement engine of crowd_backend

    A shallow embedding of the live-engagement routes (start/end, icebreakers,
    polls, Q&A, photos, chat), of the socket handler (join_event, leave_event,
    disconnect, the 30 s metrics loop) and of the Mongoose schemas of
    models/LiveEvent, followed by the properties of the engagement engine.
    A second part embeds the rest of the engine: the route that reads the
    live data, every event of the socket handler with the Analytics model,
    the authentication middlewares with the refresh tokens of models/User,
    and the rate limiter.

    Conventions of the embedding.
    - A Mongo collection is the list of its documents in insertion order;
      [findOne] returns the first match, [save] of a fetched document replaces
      the document with the same [_id], [save] of a new document appends it
      and fails on a duplicate [_id] or on a schema validator.
    - ObjectIds are compared through their string form, as the routes do
      ([id.toString() === req.user.id]); strings are sequences of code units
      below 256.
    - Counters are JS Numbers holding integers; they are integers of [Z]
      (exact below 2^53).  The poll percentage is computed in binary64, as
      the route computes it.
    - [new Date()] and the [_id] of a document created by a request are
      inputs of the request ([Env]).
    - A handler runs to completion against the store; a rejected promise of
      the driver is outside the model, the [try/catch] of a route is reached
      through the schema validators and duplicate keys only.
    - [populate] replaces a user id by the user document in a payload; the
      payloads of the model carry the id.  Analytics documents are written
      by the socket handler and read by none of the modelled operations.
    - [join_event], [leave_event] and [disconnect] of the first part are the
      handlers with every [analytics.save()] taken to succeed; module
      [Socket] of the second part runs them with the validators of the
      Analytics schema.
    - [jwt.verify] and [jwt.sign] are parameters of the middlewares. *)

From Stdlib Require Import ZArith Lia Bool String Ascii List.
From Stdlib Require Import Floats.PrimFloat Floats.FloatOps Floats.SpecFloat Floats.FloatAxioms.
From stdpp Require Import base tactics option list sorting gmap strings.
Import ListNotations.

Local Open Scope string_scope.
Local Open Scope list_scope.
Local Open Scope Z_scope.

Abbreviation ObjectId := string (only parsing).
Abbreviation SocketId := string (only parsing).
Abbreviation Date := Z (only parsing).

(** ** JavaScript strings *)

Module Js.

(** White space removed by [String.prototype.trim]: TAB, LF, VT, FF, CR,
    SPACE and NBSP (the code units below 256 of the ECMAScript list). *)
Definition is_white_space (c : ascii) : bool :=
  let n := N_of_ascii c in
  (((9 <=? n) && (n <=? 13)) || (n =? 32) || (n =? 160))%N.

Fixpoint trimStart (s : string) : string :=
  match s with
  | EmptyString => EmptyString
  | String c r => if is_white_space c then trimStart r else s
  end.

Fixpoint trimEnd (s : string) : string :=
  match s with
  | EmptyString => EmptyString
  | String c r =>
      match trimEnd r with
      | EmptyString => if is_white_space c then EmptyString else String c EmptyString
      | r' => String c r'
      end
  end.

Definition trim (s : string) : string := trimEnd (trimStart s).

(** [s.length] *)
Definition length (s : string) : Z := Z.of_nat (String.length s).

(** [!s] for a value that is a string or undefined. *)
Definition falsy (s : option string) : bool :=
  match s with
  | None => true
  | Some s => length s =? 0
  end.

End Js.

(** ** Collections *)

Section Collection.
Context {D : Type} (id_of : D -> ObjectId).

Definition findById (i : ObjectId) (c : list D) : option D :=
  find (fun d => String.eqb (id_of d) i) c.

(** [save] of a document that was fetched from the collection. *)
Fixpoint replaceOne (d : D) (c : list D) : list D :=
  match c with
  | [] => []
  | x :: r => if String.eqb (id_of x) (id_of d) then d :: r else x :: replaceOne d r
  end.

(** [save] of a new document: [None] is the duplicate key error. *)
Definition insertOne (d : D) (c : list D) : option (list D) :=
  if existsb (fun x => String.eqb (id_of x) (id_of d)) c then None else Some (c ++ [d]).

(** [countDocuments] *)
Definition countDocuments (p : D -> bool) (c : list D) : Z :=
  Z.of_nat (List.length (List.filter p c)).
End Collection.

(** ** Schemas (models/LiveEvent) *)

Module LiveEvent.
Inductive Status := scheduled | live | ended.

Definition status_eqb (a b : Status) : bool :=
  match a, b with
  | scheduled, scheduled | live, live | ended, ended => true
  | _, _ => false
  end.

Record Settings := mkSettings {
  enableChat : bool;
  enablePolls : bool;
  enableQA : bool;
  enablePhotoSharing : bool;
  moderationRequired : bool
}.

(** The schema defaults: every flag is [true]. *)
Definition default_settings : Settings := mkSettings true true true true true.

(** [liveSettings] of a request body: any subset of the flags. *)
Record PartialSettings := mkPartial {
  p_enableChat : option bool;
  p_enablePolls : option bool;
  p_enableQA : option bool;
  p_enablePhotoSharing : option bool;
  p_moderationRequired : option bool
}.

(** [{ ...base, ...over }] *)
Definition spread (base : Settings) (over : PartialSettings) : Settings :=
  mkSettings
    (default (enableChat base) (p_enableChat over))
    (default (enablePolls base) (p_enablePolls over))
    (default (enableQA base) (p_enableQA over))
    (default (enablePhotoSharing base) (p_enablePhotoSharing over))
    (default (moderationRequired base) (p_moderationRequired over)).

Record Metrics := mkMetrics {
  activeUsers : Z;
  totalInteractions : Z;
  peakAttendance : Z;
  averageEngagementTime : Z
}.

Definition default_metrics : Metrics := mkMetrics 0 0 0 0.

Record t := mk {
  _id : ObjectId;
  eventId : ObjectId;
  status : Status;
  liveSettings : Settings;
  metrics : Metrics;
  startedAt : option Date;
  endedAt : option Date
}.

Definition set_activeUsers (n : Z) (m : Metrics) : Metrics :=
  mkMetrics n (totalInteractions m) (peakAttendance m) (averageEngagementTime m).
Definition set_peakAttendance (n : Z) (m : Metrics) : Metrics :=
  mkMetrics (activeUsers m) (totalInteractions m) n (averageEngagementTime m).
Definition set_totalInteractions (n : Z) (m : Metrics) : Metrics :=
  mkMetrics (activeUsers m) n (peakAttendance m) (averageEngagementTime m).

Definition set_metrics (m : Metrics) (e : t) : t :=
  mk (_id e) (eventId e) (status e) (liveSettings e) m (startedAt e) (endedAt e).
Definition set_status (s : Status) (e : t) : t :=
  mk (_id e) (eventId e) s (liveSettings e) (metrics e) (startedAt e) (endedAt e).
Definition set_liveSettings (ls : Settings) (e : t) : t :=
  mk (_id e) (eventId e) (status e) ls (metrics e) (startedAt e) (endedAt e).
Definition set_startedAt (d : Date) (e : t) : t :=
  mk (_id e) (eventId e) (status e) (liveSettings e) (metrics e) (Some d) (endedAt e).
Definition set_endedAt (d : Date) (e : t) : t :=
  mk (_id e) (eventId e) (status e) (liveSettings e) (metrics e) (startedAt e) (Some d).
End LiveEvent.

Module Icebreaker.
Record Response := mkResponse {
  r_id : ObjectId;
  userId : ObjectId;
  response : string;
  timestamp : Date;
  likes : list ObjectId
}.

Record t := mk {
  _id : ObjectId;
  liveEventId : ObjectId;
  question : string;
  isActive : bool;
  responses : list Response;
  responseCount : Z;
  createdAt : Date
}.
End Icebreaker.

Module LivePoll.
(** [userId] is not required by the schema. *)
Record Vote := mkVote {
  userId : option ObjectId;
  timestamp : Date
}.

Record Option := mkOption {
  text : string;
  votes : list Vote;
  voteCount : Z
}.

Record t := mk {
  _id : ObjectId;
  liveEventId : ObjectId;
  question : string;
  options : list Option;
  totalVotes : Z;
  isActive : bool;
  allowMultiple : bool;
  expiresAt : option Date;
  createdAt : Date
}.

Definition set_options (os : list Option) (p : t) : t :=
  mk (_id p) (liveEventId p) (question p) os (totalVotes p) (isActive p)
     (allowMultiple p) (expiresAt p) (createdAt p).
Definition set_totalVotes (n : Z) (p : t) : t :=
  mk (_id p) (liveEventId p) (question p) (options p) n (isActive p)
     (allowMultiple p) (expiresAt p) (createdAt p).
End LivePoll.

Module LiveQA.
Inductive Status := pending | answered | dismissed.

Record Answer := mkAnswer {
  a_text : string;
  answeredBy : ObjectId;
  answeredAt : Date
}.

Record t := mk {
  _id : ObjectId;
  liveEventId : ObjectId;
  question : string;
  askedBy : ObjectId;
  upvotes : list ObjectId;
  upvoteCount : Z;
  answer : option Answer;
  status : Status;
  isHighlighted : bool;
  createdAt : Date
}.

Definition set_upvotes (us : list ObjectId) (n : Z) (q : t) : t :=
  mk (_id q) (liveEventId q) (question q) (askedBy q) us n (answer q) (status q)
     (isHighlighted q) (createdAt q).
Definition set_answer (a : Answer) (s : Status) (q : t) : t :=
  mk (_id q) (liveEventId q) (question q) (askedBy q) (upvotes q) (upvoteCount q)
     (Some a) s (isHighlighted q) (createdAt q).
End LiveQA.

Module LivePhoto.
Inductive Status := pending | approved | rejected.

Record t := mk {
  _id : ObjectId;
  liveEventId : ObjectId;
  uploadedBy : ObjectId;
  imageUrl : string;
  caption : string;
  status : Status;
  likes : list ObjectId;
  likeCount : Z;
  tags : list string;
  createdAt : Date
}.

Definition set_likes (ls : list ObjectId) (n : Z) (p : t) : t :=
  mk (_id p) (liveEventId p) (uploadedBy p) (imageUrl p) (caption p) (status p) ls n
     (tags p) (createdAt p).
End LivePhoto.

Module LiveChat.
Record t := mk {
  _id : ObjectId;
  liveEventId : ObjectId;
  userId : ObjectId;
  message : string;
  messageType : string;
  isVisible : bool;
  createdAt : Date
}.
End LiveChat.

(** The Event collection of the platform, as the engine reads it:
    [Event.findOne({ _id: eventId, organizer: req.user.id })]. *)
Module Event.
Record t := mk {
  _id : ObjectId;
  organizer : ObjectId
}.
End Event.

(** ** Numbers: binary64 *)

Module Number.

(** The Number nearest to an integer (exact below 2^53). *)
Definition of_Z (z : Z) : float :=
  SF2Prim (binary_normalize prec emax z 0 false).

(** [Math.round]: the integer nearest to [x], the larger one on a tie.
    [None] is a result that is no integer (NaN, Infinity, -Infinity). *)
Definition Math_round (x : float) : option Z :=
  match Prim2SF x with
  | S754_zero _ => Some 0
  | S754_finite s m e =>
      let n := if s then Z.neg m else Z.pos m in
      Some (if 0 <=? e then n * 2 ^ e else (2 * n + 2 ^ (- e)) / 2 ^ (- e + 1))
  | _ => None
  end.

End Number.

(** ** The store, the requests' environment, emitted events and replies *)

Record Store := mkStore {
  events : list Event.t;
  liveEvents : list LiveEvent.t;
  icebreakers : list Icebreaker.t;
  polls : list LivePoll.t;
  questions : list LiveQA.t;
  photos : list LivePhoto.t;
  chats : list LiveChat.t;
  (** socket.io rooms: the pair (socket, event) says the socket is in room
      [event_<event>] *)
  rooms : list (SocketId * ObjectId);
  (** [socket.eventId] of the connected sockets *)
  socket_eventId : list (SocketId * ObjectId)
}.

Definition with_liveEvents (c : list LiveEvent.t) (s : Store) : Store :=
  mkStore (events s) c (icebreakers s) (polls s) (questions s) (photos s) (chats s)
          (rooms s) (socket_eventId s).
Definition with_icebreakers (c : list Icebreaker.t) (s : Store) : Store :=
  mkStore (events s) (liveEvents s) c (polls s) (questions s) (photos s) (chats s)
          (rooms s) (socket_eventId s).
Definition with_polls (c : list LivePoll.t) (s : Store) : Store :=
  mkStore (events s) (liveEvents s) (icebreakers s) c (questions s) (photos s) (chats s)
          (rooms s) (socket_eventId s).
Definition with_questions (c : list LiveQA.t) (s : Store) : Store :=
  mkStore (events s) (liveEvents s) (icebreakers s) (polls s) c (photos s) (chats s)
          (rooms s) (socket_eventId s).
Definition with_photos (c : list LivePhoto.t) (s : Store) : Store :=
  mkStore (events s) (liveEvents s) (icebreakers s) (polls s) (questions s) c (chats s)
          (rooms s) (socket_eventId s).
Definition with_chats (c : list LiveChat.t) (s : Store) : Store :=
  mkStore (events s) (liveEvents s) (icebreakers s) (polls s) (questions s) (photos s) c
          (rooms s) (socket_eventId s).
Definition with_rooms (r : list (SocketId * ObjectId)) (s : Store) : Store :=
  mkStore (events s) (liveEvents s) (icebreakers s) (polls s) (questions s) (photos s)
          (chats s) r (socket_eventId s).
Definition with_socket_eventId (r : list (SocketId * ObjectId)) (s : Store) : Store :=
  mkStore (events s) (liveEvents s) (icebreakers s) (polls s) (questions s) (photos s)
          (chats s) (rooms s) r.

(** The database before any live event was started: the platform's events,
    and whatever sockets are connected. *)
Definition init_store (evs : list Event.t) : Store :=
  mkStore evs [] [] [] [] [] [] [] [].

Record Env := mkEnv {
  now : Date;          (** [new Date()], [Date.now()] *)
  fresh : ObjectId;    (** the [_id] given to a document the request creates *)
  io : bool            (** [req.app.get('io')] is set *)
}.

Record PollResult := mkPollResult {
  pr_text : string;
  pr_voteCount : Z;
  percentage : option Z
}.

Inductive Payload :=
  | event_started (eventId liveEventId : ObjectId) (startedAt : option Date)
  | event_ended (eventId : ObjectId) (endedAt : option Date) (metrics : LiveEvent.Metrics)
  | new_icebreaker (id : ObjectId) (question : string) (createdAt : Date)
  | icebreaker_response (icebreakerId : ObjectId) (response : Icebreaker.Response)
      (totalResponses : Z)
  | new_poll (id : ObjectId) (question : string) (options : list (string * Z))
      (allowMultiple : bool) (expiresAt : option Date)
  | poll_vote (pollId : ObjectId) (options : list PollResult) (totalVotes : Z)
  | new_qa_question (id : ObjectId) (question : string) (askedBy : ObjectId)
      (upvoteCount : Z) (status : LiveQA.Status) (createdAt : Date)
  | qa_upvote (questionId : ObjectId) (upvoteCount : Z) (userUpvoted : bool)
  | qa_answered (questionId : ObjectId) (answer : option LiveQA.Answer)
      (status : LiveQA.Status)
  | new_photo (id : ObjectId) (imageUrl caption : string) (uploadedBy : ObjectId)
      (likeCount : Z) (createdAt : Date)
  | photo_like (photoId : ObjectId) (likeCount : Z) (userLiked : bool)
  | chat_message (id user : ObjectId) (message messageType : string) (timestamp : Date)
  | active_users_update (activeUsers : Z) (peakAttendance : option Z)
  | metrics_update (activeUsers peakAttendance totalInteractions : Z)
  | joined_event (eventId : ObjectId) (activeUsers : Z)
  | left_event (eventId : ObjectId)
  | error (message : string).

Inductive Target :=
  | room (eventId : ObjectId)      (** [io.to(`event_${eventId}`)] *)
  | socket (sid : SocketId).       (** [socket.emit] *)

Record Emit := mkEmit { target : Target; payload : Payload }.

Inductive Body :=
  | no_body
  | body_liveEvent (id : ObjectId) (status : LiveEvent.Status)
      (settings : LiveEvent.Settings) (startedAt : option Date)
  | body_metrics (metrics : LiveEvent.Metrics)
  | body_icebreaker (id : ObjectId) (question : string) (responseCount : Z)
  | body_response (response : Icebreaker.Response)
  | body_poll (id : ObjectId) (question : string) (options : list LivePoll.Option)
      (totalVotes : Z)
  | body_results (results : list PollResult)
  | body_question (id : ObjectId) (question : string) (askedBy : ObjectId)
      (upvoteCount : Z) (status : LiveQA.Status)
  | body_upvoteCount (upvoteCount : Z)
  | body_answer (answer : option LiveQA.Answer)
  | body_photo (id : ObjectId) (imageUrl caption : string) (status : LivePhoto.Status)
      (uploadedBy : ObjectId)
  | body_likeCount (likeCount : Z)
  | body_chatMessage (id user : ObjectId) (message : string) (timestamp : Date).

Record HttpResponse := mkHttp {
  code : Z;
  success : bool;
  message : string;
  body : Body
}.

(** What a handler leaves behind: the store, the socket.io emits in order,
    and the HTTP reply (socket events have none). *)
Record Outcome := mkOutcome {
  store : Store;
  emits : list Emit;
  reply : option HttpResponse
}.

Definition reject (s : Store) (c : Z) (msg : string) : Outcome :=
  mkOutcome s [] (Some (mkHttp c false msg no_body)).

Definition respond (s : Store) (es : list Emit) (c : Z) (msg : string) (b : Body) : Outcome :=
  mkOutcome s es (Some (mkHttp c true msg b)).

(** [req.app.get('io')?.to(`event_${eventId}`).emit(...)] *)
Definition emit_room (env : Env) (eventId : ObjectId) (p : Payload) : list Emit :=
  if io env then [mkEmit (room eventId) p] else [].

(** ** Queries shared by the routes *)

(** [Event.findOne({ _id: eventId, organizer: req.user.id })] is truthy *)
Definition is_organizer (user eventId : ObjectId) (s : Store) : bool :=
  existsb (fun e => String.eqb (Event._id e) eventId && String.eqb (Event.organizer e) user)
          (events s).

(** [LiveEvent.findOne({ eventId })] *)
Definition findLiveEvent (eventId : ObjectId) (s : Store) : option LiveEvent.t :=
  find (fun e => String.eqb (LiveEvent.eventId e) eventId) (liveEvents s).

(** [LiveEvent.findOne({ eventId, status: 'live' })] *)
Definition findLive (eventId : ObjectId) (s : Store) : option LiveEvent.t :=
  find (fun e => String.eqb (LiveEvent.eventId e) eventId
                 && LiveEvent.status_eqb (LiveEvent.status e) LiveEvent.live)
       (liveEvents s).

(** [!text || text.trim().length === 0] *)
Definition blank (text : option string) : bool :=
  match text with
  | None => true
  | Some t => Js.falsy (Some t) || (Js.length (Js.trim t) =? 0)
  end.

(** ** Start and end (routes /:eventId/start and /:eventId/end) *)

Definition start_live_event (env : Env) (user eventId : ObjectId)
    (liveSettings : option LiveEvent.PartialSettings) (s : Store) : Outcome :=
  if negb (is_organizer user eventId s) then
    reject s 404 "Event not found or access denied"
  else
    let found := findLiveEvent eventId s in
    if match found with
       | Some liveEvent => LiveEvent.status_eqb (LiveEvent.status liveEvent) LiveEvent.live
       | None => false
       end
    then reject s 400 "Event is already live"
    else
      let liveEvent :=
        match found with
        | Some liveEvent => liveEvent
        | None =>
            LiveEvent.mk (fresh env) eventId LiveEvent.scheduled
              (LiveEvent.spread LiveEvent.default_settings
                 (default (LiveEvent.mkPartial None None None None None) liveSettings))
              LiveEvent.default_metrics None None
        end in
      let liveEvent := LiveEvent.set_status LiveEvent.live liveEvent in
      let liveEvent := LiveEvent.set_startedAt (now env) liveEvent in
      let liveEvent :=
        match liveSettings with
        | Some ls =>
            LiveEvent.set_liveSettings (LiveEvent.spread (LiveEvent.liveSettings liveEvent) ls)
              liveEvent
        | None => liveEvent
        end in
      let saved :=
        match found with
        | Some _ => Some (replaceOne LiveEvent._id liveEvent (liveEvents s))
        | None => insertOne LiveEvent._id liveEvent (liveEvents s)
        end in
      match saved with
      | None => reject s 500 "Failed to start live event"
      | Some c =>
          respond (with_liveEvents c s)
            (emit_room env eventId
               (event_started eventId (LiveEvent._id liveEvent) (LiveEvent.startedAt liveEvent)))
            200 "Live event started successfully"
            (body_liveEvent (LiveEvent._id liveEvent) (LiveEvent.status liveEvent)
               (LiveEvent.liveSettings liveEvent) (LiveEvent.startedAt liveEvent))
      end.

(** [liveEventSchema.methods.updateMetrics], up to its [save]. *)
Definition interaction_total (liveEvent : LiveEvent.t) (s : Store) : Z :=
  let this := LiveEvent._id liveEvent in
  let chatMessages :=
    countDocuments (fun c => String.eqb (LiveChat.liveEventId c) this) (chats s) in
  let pollVotes :=
    fold_right Z.add 0
      (map LivePoll.totalVotes
         (List.filter (fun p => String.eqb (LivePoll.liveEventId p) this) (polls s))) in
  let qaQuestions :=
    countDocuments (fun q => String.eqb (LiveQA.liveEventId q) this) (questions s) in
  let photos_ :=
    countDocuments (fun p => String.eqb (LivePhoto.liveEventId p) this) (photos s) in
  chatMessages + pollVotes + qaQuestions + photos_.

Definition updateMetrics (liveEvent : LiveEvent.t) (s : Store) : LiveEvent.t * Store :=
  let liveEvent :=
    LiveEvent.set_metrics
      (LiveEvent.set_totalInteractions (interaction_total liveEvent s)
         (LiveEvent.metrics liveEvent))
      liveEvent in
  (liveEvent, with_liveEvents (replaceOne LiveEvent._id liveEvent (liveEvents s)) s).

Definition end_live_event (env : Env) (user eventId : ObjectId) (s : Store) : Outcome :=
  match findLiveEvent eventId s with
  | None => reject s 404 "Live event not found"
  | Some liveEvent =>
      if negb (is_organizer user eventId s) then reject s 403 "Access denied"
      else
        let liveEvent := LiveEvent.set_status LiveEvent.ended liveEvent in
        let liveEvent := LiveEvent.set_endedAt (now env) liveEvent in
        let '(liveEvent, s) := updateMetrics liveEvent s in
        let s := with_liveEvents (replaceOne LiveEvent._id liveEvent (liveEvents s)) s in
        respond s
          (emit_room env eventId
             (event_ended eventId (LiveEvent.endedAt liveEvent) (LiveEvent.metrics liveEvent)))
          200 "Live event ended successfully" (body_metrics (LiveEvent.metrics liveEvent))
  end.

(** ** Icebreakers *)

(** Schema validators run by [save]: [required] rejects the empty string. *)
Definition valid_text (max : Z) (t : string) : bool :=
  negb (Js.length t =? 0) && (Js.length t <=? max).

Definition create_icebreaker (env : Env) (user eventId : ObjectId)
    (question : option string) (s : Store) : Outcome :=
  match question with
  | None => reject s 400 "Question is required"
  | Some question =>
      if blank (Some question) then reject s 400 "Question is required"
      else
        match findLive eventId s with
        | None => reject s 404 "Live event not found or not active"
        | Some liveEvent =>
            let icebreaker :=
              Icebreaker.mk (fresh env) (LiveEvent._id liveEvent) (Js.trim question)
                true [] 0 (now env) in
            match
              (if valid_text 500 (Icebreaker.question icebreaker)
               then insertOne Icebreaker._id icebreaker (icebreakers s) else None)
            with
            | None => reject s 500 "Failed to create icebreaker question"
            | Some c =>
                respond (with_icebreakers c s)
                  (emit_room env eventId
                     (new_icebreaker (Icebreaker._id icebreaker)
                        (Icebreaker.question icebreaker) (Icebreaker.createdAt icebreaker)))
                  201 "Icebreaker question created successfully"
                  (body_icebreaker (Icebreaker._id icebreaker)
                     (Icebreaker.question icebreaker) 0)
            end
        end
  end.

Definition respond_icebreaker (env : Env) (user eventId icebreakerId : ObjectId)
    (response : option string) (s : Store) : Outcome :=
  match response with
  | None => reject s 400 "Response is required"
  | Some response =>
      if blank (Some response) then reject s 400 "Response is required"
      else
        match findById Icebreaker._id icebreakerId (icebreakers s) with
        | None => reject s 404 "Icebreaker not found"
        | Some icebreaker =>
            match find (fun r => String.eqb (Icebreaker.userId r) user)
                       (Icebreaker.responses icebreaker)
            with
            | Some existingResponse =>
                reject s 400 "You have already responded to this question"
            | None =>
                let responseData :=
                  Icebreaker.mkResponse (fresh env) user (Js.trim response) (now env) [] in
                let icebreaker :=
                  Icebreaker.mk (Icebreaker._id icebreaker) (Icebreaker.liveEventId icebreaker)
                    (Icebreaker.question icebreaker) (Icebreaker.isActive icebreaker)
                    (Icebreaker.responses icebreaker ++ [responseData])
                    (Icebreaker.responseCount icebreaker + 1)
                    (Icebreaker.createdAt icebreaker) in
                if negb (valid_text 1000 (Icebreaker.response responseData)) then
                  reject s 500 "Failed to add response"
                else
                  let newResponse := responseData in
                  respond
                    (with_icebreakers (replaceOne Icebreaker._id icebreaker (icebreakers s)) s)
                    (emit_room env eventId
                       (icebreaker_response icebreakerId newResponse
                          (Icebreaker.responseCount icebreaker)))
                    201 "Response added successfully" (body_response newResponse)
            end
        end
  end.

(** ** Polls *)

Definition create_poll (env : Env) (user eventId : ObjectId) (question : option string)
    (options : option (list string)) (allowMultiple : option bool) (expiresIn : option Z)
    (s : Store) : Outcome :=
  match question, options with
  | Some question, Some options =>
      if Js.falsy (Some question) || (Z.of_nat (List.length options) <? 2) then
        reject s 400 "Question and at least 2 options are required"
      else
        match findLive eventId s with
        | None => reject s 404 "Live event not found or not active"
        | Some liveEvent =>
            let pollOptions := map (fun text => LivePoll.mkOption (Js.trim text) [] 0) options in
            let poll :=
              LivePoll.mk (fresh env) (LiveEvent._id liveEvent) (Js.trim question) pollOptions
                0 true (default false allowMultiple)
                (match expiresIn with
                 | Some e => if e =? 0 then None else Some (now env + e * 1000)
                 | None => None
                 end)
                (now env) in
            match
              (if valid_text 500 (LivePoll.question poll)
                  && forallb (fun o => valid_text 200 (LivePoll.text o)) (LivePoll.options poll)
               then insertOne LivePoll._id poll (polls s) else None)
            with
            | None => reject s 500 "Failed to create poll"
            | Some c =>
                respond (with_polls c s)
                  (emit_room env eventId
                     (new_poll (LivePoll._id poll) (LivePoll.question poll)
                        (map (fun opt => (LivePoll.text opt, 0)) (LivePoll.options poll))
                        (LivePoll.allowMultiple poll) (LivePoll.expiresAt poll)))
                  201 "Poll created successfully"
                  (body_poll (LivePoll._id poll) (LivePoll.question poll)
                     (LivePoll.options poll) 0)
            end
        end
  | _, _ => reject s 400 "Question and at least 2 options are required"
  end.

(** [poll.options.some(option => option.votes.some(vote =>
      vote.userId && vote.userId.toString() === req.user.id))] *)
Definition hasVoted (user : ObjectId) (poll : LivePoll.t) : bool :=
  existsb
    (fun option =>
       existsb
         (fun vote =>
            match LivePoll.userId vote with
            | Some id => String.eqb id user
            | None => false
            end)
         (LivePoll.votes option))
    (LivePoll.options poll).

(** The body of the [forEach]: [None] is the TypeError of reading [votes]
    of an option that does not exist. *)
Definition add_vote (user : ObjectId) (now_ : Date) (poll : LivePoll.t) (index : Z)
    : option LivePoll.t :=
  if index <? 0 then None
  else
    match LivePoll.options poll !! Z.to_nat index with
    | None => None
    | Some _ =>
        Some
          (LivePoll.set_totalVotes (LivePoll.totalVotes poll + 1)
             (LivePoll.set_options
                (alter
                   (fun o =>
                      LivePoll.mkOption (LivePoll.text o)
                        (LivePoll.votes o ++ [LivePoll.mkVote (Some user) now_])
                        (LivePoll.voteCount o + 1))
                   (Z.to_nat index) (LivePoll.options poll))
                poll))
    end.

Definition add_votes (user : ObjectId) (now_ : Date) (poll : LivePoll.t)
    (optionIndexes : list Z) : option LivePoll.t :=
  fold_left
    (fun acc index =>
       match acc with
       | Some p => add_vote user now_ p index
       | None => None
       end)
    optionIndexes (Some poll).

(** [poll.totalVotes > 0 ? Math.round((option.voteCount / poll.totalVotes) * 100) : 0] *)
Definition poll_percentage (voteCount totalVotes : Z) : option Z :=
  if totalVotes >? 0 then
    Number.Math_round
      (PrimFloat.mul (PrimFloat.div (Number.of_Z voteCount) (Number.of_Z totalVotes))
         (Number.of_Z 100))
  else Some 0.

Definition pollResults (poll : LivePoll.t) : list PollResult :=
  map
    (fun option =>
       mkPollResult (LivePoll.text option) (LivePoll.voteCount option)
         (poll_percentage (LivePoll.voteCount option) (LivePoll.totalVotes poll)))
    (LivePoll.options poll).

Definition vote_poll (env : Env) (user eventId pollId : ObjectId)
    (optionIndexes : option (list Z)) (s : Store) : Outcome :=
  match optionIndexes with
  | None => reject s 400 "optionIndexes array is required"
  | Some optionIndexes =>
      if Z.of_nat (List.length optionIndexes) =? 0 then
        reject s 400 "optionIndexes array is required"
      else
        match findById LivePoll._id pollId (polls s) with
        | None => reject s 404 "Poll not found"
        | Some poll =>
            if negb (LivePoll.isActive poll)
               || match LivePoll.expiresAt poll with
                  | Some expiresAt => expiresAt <? now env
                  | None => false
                  end
            then reject s 400 "Poll is no longer active"
            else if hasVoted user poll then
              reject s 400 "You have already voted in this poll"
            else
              let maxIndex := Z.of_nat (List.length (LivePoll.options poll)) - 1 in
              if existsb (fun index => (index <? 0) || (index >? maxIndex)) optionIndexes then
                reject s 400 "Invalid option index"
              else
                match add_votes user (now env) poll optionIndexes with
                | None => reject s 500 "Failed to record vote"
                | Some poll =>
                    respond (with_polls (replaceOne LivePoll._id poll (polls s)) s)
                      (emit_room env eventId
                         (poll_vote pollId (pollResults poll) (LivePoll.totalVotes poll)))
                      200 "Vote recorded successfully" (body_results (pollResults poll))
                end
        end
  end.

(** ** Q&A *)

Definition ask_question (env : Env) (user eventId : ObjectId) (question : option string)
    (s : Store) : Outcome :=
  match question with
  | None => reject s 400 "Question is required"
  | Some question =>
      if blank (Some question) then reject s 400 "Question is required"
      else
        match findLive eventId s with
        | None => reject s 404 "Live event not found or not active"
        | Some liveEvent =>
            let qaQuestion :=
              LiveQA.mk (fresh env) (LiveEvent._id liveEvent) (Js.trim question) user
                [] 0 None LiveQA.pending false (now env) in
            match
              (if valid_text 1000 (LiveQA.question qaQuestion)
               then insertOne LiveQA._id qaQuestion (questions s) else None)
            with
            | None => reject s 500 "Failed to submit question"
            | Some c =>
                respond (with_questions c s)
                  (emit_room env eventId
                     (new_qa_question (LiveQA._id qaQuestion) (LiveQA.question qaQuestion)
                        (LiveQA.askedBy qaQuestion) 0 (LiveQA.status qaQuestion)
                        (LiveQA.createdAt qaQuestion)))
                  201 "Question submitted successfully"
                  (body_question (LiveQA._id qaQuestion) (LiveQA.question qaQuestion)
                     (LiveQA.askedBy qaQuestion) 0 (LiveQA.status qaQuestion))
            end
        end
  end.

(** [ids.includes(req.user.id)] on an array of ObjectIds *)
Definition includes (user : ObjectId) (ids : list ObjectId) : bool :=
  existsb (fun id => String.eqb id user) ids.

(** [ids.filter(id => id.toString() !== req.user.id)] *)
Definition without (user : ObjectId) (ids : list ObjectId) : list ObjectId :=
  List.filter (fun id => negb (String.eqb id user)) ids.

(** The toggle of the upvote route, on the fetched question. *)
Definition toggle_upvote (user : ObjectId) (question : LiveQA.t) : LiveQA.t :=
  if includes user (LiveQA.upvotes question) then
    LiveQA.set_upvotes (without user (LiveQA.upvotes question))
      (LiveQA.upvoteCount question - 1) question
  else
    LiveQA.set_upvotes (LiveQA.upvotes question ++ [user])
      (LiveQA.upvoteCount question + 1) question.

Definition upvote_question (env : Env) (user eventId questionId : ObjectId) (s : Store)
    : Outcome :=
  match findById LiveQA._id questionId (questions s) with
  | None => reject s 404 "Question not found"
  | Some question =>
      let hasUpvoted := includes user (LiveQA.upvotes question) in
      let question := toggle_upvote user question in
      respond (with_questions (replaceOne LiveQA._id question (questions s)) s)
        (emit_room env eventId
           (qa_upvote questionId (LiveQA.upvoteCount question) (negb hasUpvoted)))
        200 (if hasUpvoted then "Upvote removed" else "Question upvoted")
        (body_upvoteCount (LiveQA.upvoteCount question))
  end.

Definition answer_question (env : Env) (user eventId questionId : ObjectId)
    (answer : option string) (s : Store) : Outcome :=
  match answer with
  | None => reject s 400 "Answer is required"
  | Some answer =>
      if blank (Some answer) then reject s 400 "Answer is required"
      else if negb (is_organizer user eventId s) then
        reject s 403 "Only event organizers can answer questions"
      else
        match findById LiveQA._id questionId (questions s) with
        | None => reject s 404 "Question not found"
        | Some question =>
            let question :=
              LiveQA.set_answer (LiveQA.mkAnswer (Js.trim answer) user (now env))
                LiveQA.answered question in
            respond (with_questions (replaceOne LiveQA._id question (questions s)) s)
              (emit_room env eventId
                 (qa_answered questionId (LiveQA.answer question) (LiveQA.status question)))
              200 "Question answered successfully" (body_answer (LiveQA.answer question))
        end
  end.

(** ** Photos *)

Definition share_photo (env : Env) (user eventId : ObjectId) (imageUrl caption : option string)
    (tags : option (list string)) (s : Store) : Outcome :=
  match imageUrl with
  | None => reject s 400 "Image URL is required"
  | Some imageUrl =>
      if Js.falsy (Some imageUrl) then reject s 400 "Image URL is required"
      else
        match findLive eventId s with
        | None => reject s 404 "Live event not found or not active"
        | Some liveEvent =>
            let status :=
              if LiveEvent.moderationRequired (LiveEvent.liveSettings liveEvent)
              then LivePhoto.pending else LivePhoto.approved in
            let photo :=
              LivePhoto.mk (fresh env) (LiveEvent._id liveEvent) user imageUrl
                (match caption with Some c => Js.trim c | None => "" end)
                status [] 0 (default [] tags) (now env) in
            match
              (if Js.length (LivePhoto.caption photo) <=? 500
               then insertOne LivePhoto._id photo (photos s) else None)
            with
            | None => reject s 500 "Failed to share photo"
            | Some c =>
                respond (with_photos c s)
                  (match status with
                   | LivePhoto.approved =>
                       emit_room env eventId
                         (new_photo (LivePhoto._id photo) (LivePhoto.imageUrl photo)
                            (LivePhoto.caption photo) (LivePhoto.uploadedBy photo) 0
                            (LivePhoto.createdAt photo))
                   | _ => []
                   end)
                  201
                  (match status with
                   | LivePhoto.pending => "Photo submitted for moderation"
                   | _ => "Photo shared successfully"
                   end)
                  (body_photo (LivePhoto._id photo) (LivePhoto.imageUrl photo)
                     (LivePhoto.caption photo) (LivePhoto.status photo)
                     (LivePhoto.uploadedBy photo))
            end
        end
  end.

(** The toggle of the like route, on the fetched photo. *)
Definition toggle_like (user : ObjectId) (photo : LivePhoto.t) : LivePhoto.t :=
  if includes user (LivePhoto.likes photo) then
    LivePhoto.set_likes (without user (LivePhoto.likes photo))
      (LivePhoto.likeCount photo - 1) photo
  else
    LivePhoto.set_likes (LivePhoto.likes photo ++ [user])
      (LivePhoto.likeCount photo + 1) photo.

Definition like_photo (env : Env) (user eventId photoId : ObjectId) (s : Store) : Outcome :=
  match findById LivePhoto._id photoId (photos s) with
  | None => reject s 404 "Photo not found"
  | Some photo =>
      let hasLiked := includes user (LivePhoto.likes photo) in
      let photo := toggle_like user photo in
      respond (with_photos (replaceOne LivePhoto._id photo (photos s)) s)
        (emit_room env eventId
           (photo_like photoId (LivePhoto.likeCount photo) (negb hasLiked)))
        200 (if hasLiked then "Like removed" else "Photo liked")
        (body_likeCount (LivePhoto.likeCount photo))
  end.

(** ** Chat *)

Definition send_chat (env : Env) (user eventId : ObjectId) (message_ messageType : option string)
    (s : Store) : Outcome :=
  match message_ with
  | None => reject s 400 "Message is required"
  | Some message_ =>
      if blank (Some message_) then reject s 400 "Message is required"
      else
        match findLive eventId s with
        | None => reject s 404 "Live event not found or not active"
        | Some liveEvent =>
            let chatMessage :=
              LiveChat.mk (fresh env) (LiveEvent._id liveEvent) user (Js.trim message_)
                (default "text" messageType) true (now env) in
            match
              (if valid_text 500 (LiveChat.message chatMessage)
                  && existsb (String.eqb (LiveChat.messageType chatMessage))
                       ["text"; "emoji"; "system"]
               then insertOne LiveChat._id chatMessage (chats s) else None)
            with
            | None => reject s 500 "Failed to send message"
            | Some c =>
                respond (with_chats c s)
                  (emit_room env eventId
                     (chat_message (LiveChat._id chatMessage) (LiveChat.userId chatMessage)
                        (LiveChat.message chatMessage) (LiveChat.messageType chatMessage)
                        (LiveChat.createdAt chatMessage)))
                  201 "Message sent successfully"
                  (body_chatMessage (LiveChat._id chatMessage) (LiveChat.userId chatMessage)
                     (LiveChat.message chatMessage) (LiveChat.createdAt chatMessage))
            end
        end
  end.

(** ** The socket handler *)

(** [getActiveUsersCount]: the sockets in room [event_<eventId>]. *)
Definition getActiveUsersCount (eventId : ObjectId) (s : Store) : Z :=
  Z.of_nat (List.length (List.filter (fun m => String.eqb (snd m) eventId) (rooms s))).

Definition same_membership (sid : SocketId) (eventId : ObjectId) (m : SocketId * ObjectId)
    : bool :=
  String.eqb (fst m) sid && String.eqb (snd m) eventId.

(** [socket.join(`event_${eventId}`)] *)
Definition socket_join (sid : SocketId) (eventId : ObjectId) (s : Store) : Store :=
  if existsb (same_membership sid eventId) (rooms s) then s
  else with_rooms (rooms s ++ [(sid, eventId)]) s.

(** [socket.leave(`event_${eventId}`)] *)
Definition socket_leave (sid : SocketId) (eventId : ObjectId) (s : Store) : Store :=
  with_rooms (List.filter (fun m => negb (same_membership sid eventId m)) (rooms s)) s.

(** [socket.eventId = eventId] *)
Definition set_socket_eventId (sid : SocketId) (eventId : ObjectId) (s : Store) : Store :=
  with_socket_eventId
    ((sid, eventId) :: List.filter (fun m => negb (String.eqb (fst m) sid)) (socket_eventId s)) s.

Definition get_socket_eventId (sid : SocketId) (s : Store) : option ObjectId :=
  snd <$> find (fun m => String.eqb (fst m) sid) (socket_eventId s).

Definition is_live (liveEvent : LiveEvent.t) : bool :=
  LiveEvent.status_eqb (LiveEvent.status liveEvent) LiveEvent.live.

Definition save_liveEvent (liveEvent : LiveEvent.t) (s : Store) : Store :=
  with_liveEvents (replaceOne LiveEvent._id liveEvent (liveEvents s)) s.

Definition join_event (sid : SocketId) (eventId : option ObjectId) (s : Store) : Outcome :=
  match eventId with
  | None => mkOutcome s [mkEmit (socket sid) (error "Event ID is required")] None
  | Some eventId =>
      if Js.falsy (Some eventId) then
        mkOutcome s [mkEmit (socket sid) (error "Event ID is required")] None
      else
        let s := socket_join sid eventId s in
        let s := set_socket_eventId sid eventId s in
        let '(s, es) :=
          match findLiveEvent eventId s with
          | Some liveEvent =>
              if is_live liveEvent then
                let activeUsers := getActiveUsersCount eventId s in
                let m := LiveEvent.set_activeUsers activeUsers (LiveEvent.metrics liveEvent) in
                let m :=
                  if activeUsers >? LiveEvent.peakAttendance m
                  then LiveEvent.set_peakAttendance activeUsers m else m in
                let liveEvent := LiveEvent.set_metrics m liveEvent in
                (save_liveEvent liveEvent s,
                 [mkEmit (room eventId)
                    (active_users_update activeUsers
                       (Some (LiveEvent.peakAttendance (LiveEvent.metrics liveEvent))))])
              else (s, [])
          | None => (s, [])
          end in
        mkOutcome s
          (es ++ [mkEmit (socket sid) (joined_event eventId (getActiveUsersCount eventId s))])
          None
  end.

(** The tail shared by [leave_event] and [disconnect]: store the count,
    broadcast it. *)
Definition store_activeUsers (eventId : ObjectId) (s : Store) : Store * list Emit :=
  let activeUsers := getActiveUsersCount eventId s in
  match findLiveEvent eventId s with
  | Some liveEvent =>
      if is_live liveEvent then
        let liveEvent :=
          LiveEvent.set_metrics
            (LiveEvent.set_activeUsers activeUsers (LiveEvent.metrics liveEvent)) liveEvent in
        (save_liveEvent liveEvent s,
         [mkEmit (room eventId) (active_users_update activeUsers None)])
      else (s, [])
  | None => (s, [])
  end.

Definition leave_event (sid : SocketId) (eventId : option ObjectId) (s : Store) : Outcome :=
  match eventId with
  | None => mkOutcome s [] None
  | Some eventId =>
      if Js.falsy (Some eventId) then mkOutcome s [] None
      else
        let s := socket_leave sid eventId s in
        let '(s, es) := store_activeUsers eventId s in
        mkOutcome s (es ++ [mkEmit (socket sid) (left_event eventId)]) None
  end.

(** socket.io takes the socket out of its rooms before the handler runs. *)
Definition disconnect (sid : SocketId) (s : Store) : Outcome :=
  let s := with_rooms (List.filter (fun m => negb (String.eqb (fst m) sid)) (rooms s)) s in
  let eventId := get_socket_eventId sid s in
  let s :=
    with_socket_eventId
      (List.filter (fun m => negb (String.eqb (fst m) sid)) (socket_eventId s)) s in
  match eventId with
  | None => mkOutcome s [] None
  | Some eventId =>
      if Js.falsy (Some eventId) then mkOutcome s [] None
      else
        let '(s, es) := store_activeUsers eventId s in
        mkOutcome s es None
  end.

(** The body of the metrics loop for one live event of the snapshot:
    [None] when the count is the stored one. *)
Definition reconcile (activeUsers : Z) (liveEvent : LiveEvent.t) : option LiveEvent.t :=
  if negb (activeUsers =? LiveEvent.activeUsers (LiveEvent.metrics liveEvent)) then
    let m := LiveEvent.set_activeUsers activeUsers (LiveEvent.metrics liveEvent) in
    let m :=
      if activeUsers >? LiveEvent.peakAttendance m
      then LiveEvent.set_peakAttendance activeUsers m else m in
    Some (LiveEvent.set_metrics m liveEvent)
  else None.

Definition metrics_payload (liveEvent : LiveEvent.t) : Payload :=
  metrics_update (LiveEvent.activeUsers (LiveEvent.metrics liveEvent))
    (LiveEvent.peakAttendance (LiveEvent.metrics liveEvent))
    (LiveEvent.totalInteractions (LiveEvent.metrics liveEvent)).

(** One turn of the [for ... of] loop: [s] is the store the callback started
    from (the rooms do not change while it runs), [acc] what the turns before
    left. *)
Definition tick_step (s : Store) (acc : Outcome) (liveEvent : LiveEvent.t) : Outcome :=
  match reconcile (getActiveUsersCount (LiveEvent.eventId liveEvent) s) liveEvent with
  | Some liveEvent =>
      mkOutcome (save_liveEvent liveEvent (store acc))
        (emits acc ++ [mkEmit (room (LiveEvent.eventId liveEvent)) (metrics_payload liveEvent)])
        None
  | None => acc
  end.

(** One run of the [setInterval] callback. *)
Definition metrics_tick (s : Store) : Outcome :=
  fold_left (tick_step s) (List.filter is_live (liveEvents s)) (mkOutcome s [] None).

(** ** Requests *)

Inductive Request :=
  | StartLiveEvent (user eventId : ObjectId) (liveSettings : option LiveEvent.PartialSettings)
  | EndLiveEvent (user eventId : ObjectId)
  | CreateIcebreaker (user eventId : ObjectId) (question : option string)
  | RespondIcebreaker (user eventId icebreakerId : ObjectId) (response : option string)
  | CreatePoll (user eventId : ObjectId) (question : option string)
      (options : option (list string)) (allowMultiple : option bool) (expiresIn : option Z)
  | VotePoll (user eventId pollId : ObjectId) (optionIndexes : option (list Z))
  | AskQuestion (user eventId : ObjectId) (question : option string)
  | UpvoteQuestion (user eventId questionId : ObjectId)
  | AnswerQuestion (user eventId questionId : ObjectId) (answer : option string)
  | SharePhoto (user eventId : ObjectId) (imageUrl caption : option string)
      (tags : option (list string))
  | LikePhoto (user eventId photoId : ObjectId)
  | SendChat (user eventId : ObjectId) (message messageType : option string)
  | JoinEvent (sid : SocketId) (eventId : option ObjectId)
  | LeaveEvent (sid : SocketId) (eventId : option ObjectId)
  | Disconnect (sid : SocketId)
  | MetricsTick.

Definition handle (env : Env) (r : Request) (s : Store) : Outcome :=
  match r with
  | StartLiveEvent user eventId liveSettings => start_live_event env user eventId liveSettings s
  | EndLiveEvent user eventId => end_live_event env user eventId s
  | CreateIcebreaker user eventId question => create_icebreaker env user eventId question s
  | RespondIcebreaker user eventId icebreakerId response =>
      respond_icebreaker env user eventId icebreakerId response s
  | CreatePoll user eventId question options allowMultiple expiresIn =>
      create_poll env user eventId question options allowMultiple expiresIn s
  | VotePoll user eventId pollId optionIndexes => vote_poll env user eventId pollId optionIndexes s
  | AskQuestion user eventId question => ask_question env user eventId question s
  | UpvoteQuestion user eventId questionId => upvote_question env user eventId questionId s
  | AnswerQuestion user eventId questionId answer =>
      answer_question env user eventId questionId answer s
  | SharePhoto user eventId imageUrl caption tags =>
      share_photo env user eventId imageUrl caption tags s
  | LikePhoto user eventId photoId => like_photo env user eventId photoId s
  | SendChat user eventId message_ messageType => send_chat env user eventId message_ messageType s
  | JoinEvent sid eventId => join_event sid eventId s
  | LeaveEvent sid eventId => leave_event sid eventId s
  | Disconnect sid => disconnect sid s
  | MetricsTick => metrics_tick s
  end.

(** A history: the requests served so far, each with its environment. *)
Definition run (h : list (Env * Request)) (s : Store) : Store :=
  fold_left (fun s er => store (handle (fst er) (snd er) s)) h s.

(** Every emit of a history, oldest first. *)
Fixpoint run_emits (h : list (Env * Request)) (s : Store) : list Emit :=
  match h with
  | [] => []
  | er :: h' =>
      let o := handle (fst er) (snd er) s in
      emits o ++ run_emits h' (store o)
  end.

(** * Specification *)

(** ** Polls *)

Definition sum_voteCount (os : list LivePoll.Option) : Z :=
  fold_right Z.add 0 (map LivePoll.voteCount os).

(** [sum(option.voteCount) == poll.totalVotes] *)
Definition poll_sum_ok (p : LivePoll.t) : Prop :=
  sum_voteCount (LivePoll.options p) = LivePoll.totalVotes p.

(** The counters add up and none of them is negative. *)
Definition poll_counts_ok (p : LivePoll.t) : Prop :=
  poll_sum_ok p /\ Forall (fun o => 0 <= LivePoll.voteCount o) (LivePoll.options p).

(** How a request changes the polls: not at all, by one new poll without
    votes, or by the votes added to one poll. *)
Inductive polls_change (s : Store) (c' : list LivePoll.t) : Prop :=
  | polls_same : c' = polls s -> polls_change s c'
  | polls_created p :
      insertOne LivePoll._id p (polls s) = Some c' ->
      Forall (fun o => LivePoll.voteCount o = 0) (LivePoll.options p) ->
      LivePoll.totalVotes p = 0 ->
      polls_change s c'
  | polls_voted user now_ idxs p p' :
      findById LivePoll._id (LivePoll._id p') (polls s) = Some p ->
      add_votes user now_ p idxs = Some p' ->
      c' = replaceOne LivePoll._id p' (polls s) ->
      polls_change s c'.

(** ** What a handler leaves alone *)

Definition same_but_liveEvents (s s' : Store) : Prop :=
  events s' = events s /\ icebreakers s' = icebreakers s /\ polls s' = polls s /\
  questions s' = questions s /\ photos s' = photos s /\ chats s' = chats s /\
  rooms s' = rooms s /\ socket_eventId s' = socket_eventId s.


(** ** Q&A *)

(** [upvoteCount == len(upvotes)] *)
Definition upvotes_counted (q : LiveQA.t) : Prop :=
  LiveQA.upvoteCount q = Z.of_nat (List.length (LiveQA.upvotes q)).

(** The invariant that carries it: no user is in [upvotes] twice. *)
Definition qa_ok (q : LiveQA.t) : Prop :=
  List.NoDup (LiveQA.upvotes q) /\ upvotes_counted q.

(** Two id arrays hold the same set of users. *)
Definition same_users (a b : list ObjectId) : Prop := forall u, In u a <-> In u b.

(** How a request changes the questions. *)
Inductive questions_change (s : Store) (c' : list LiveQA.t) : Prop :=
  | questions_same : c' = questions s -> questions_change s c'
  | questions_asked q :
      insertOne LiveQA._id q (questions s) = Some c' ->
      LiveQA.upvotes q = [] -> LiveQA.upvoteCount q = 0 ->
      questions_change s c'
  | questions_upvoted user q :
      In q (questions s) ->
      c' = replaceOne LiveQA._id (toggle_upvote user q) (questions s) ->
      questions_change s c'
  | questions_answered a st q :
      In q (questions s) ->
      c' = replaceOne LiveQA._id (LiveQA.set_answer a st q) (questions s) ->
      questions_change s c'.

(** ** Icebreakers *)

(** [responseCount == len(responses)] *)
Definition responses_counted (i : Icebreaker.t) : Prop :=
  Icebreaker.responseCount i = Z.of_nat (List.length (Icebreaker.responses i)).

(** The user has a response on the icebreaker. *)
Definition has_responded (user : ObjectId) (i : Icebreaker.t) : Prop :=
  In user (map Icebreaker.userId (Icebreaker.responses i)).

(** How a request changes the icebreakers. *)
Inductive icebreakers_change (s : Store) (c' : list Icebreaker.t) : Prop :=
  | icebreakers_same : c' = icebreakers s -> icebreakers_change s c'
  | icebreakers_created i :
      insertOne Icebreaker._id i (icebreakers s) = Some c' ->
      Icebreaker.responses i = [] -> Icebreaker.responseCount i = 0 ->
      icebreakers_change s c'
  | icebreakers_responded r i i' :
      In i (icebreakers s) ->
      Icebreaker.responses i' = Icebreaker.responses i ++ [r] ->
      Icebreaker.responseCount i' = Icebreaker.responseCount i + 1 ->
      c' = replaceOne Icebreaker._id i' (icebreakers s) ->
      icebreakers_change s c'.

(** ** Polls: who voted *)

(** The user ids recorded in an option's [votes]. *)
Definition voters (o : LivePoll.Option) : list (option ObjectId) :=
  map LivePoll.userId (LivePoll.votes o).

(** The user is present in some option's votes. *)
Definition has_vote (user : ObjectId) (p : LivePoll.t) : Prop :=
  exists o, In o (LivePoll.options p) /\ In (Some user) (voters o).

(** ** Photos on the broadcast path *)




(** ** The feature toggles *)

(** Two LiveEvents that are the same but, possibly, for [enableChat],
    [enablePolls], [enableQA] and [enablePhotoSharing]. *)
Definition liveEvent_agree (a b : LiveEvent.t) : Prop :=
  LiveEvent._id a = LiveEvent._id b
  /\ LiveEvent.eventId a = LiveEvent.eventId b
  /\ LiveEvent.status a = LiveEvent.status b
  /\ LiveEvent.moderationRequired (LiveEvent.liveSettings a)
     = LiveEvent.moderationRequired (LiveEvent.liveSettings b)
  /\ LiveEvent.metrics a = LiveEvent.metrics b
  /\ LiveEvent.startedAt a = LiveEvent.startedAt b
  /\ LiveEvent.endedAt a = LiveEvent.endedAt b.

(** Two stores that differ at most in those four flags of their LiveEvents. *)
Definition toggles_apart (s1 s2 : Store) : Prop :=
  Forall2 liveEvent_agree (liveEvents s1) (liveEvents s2)
  /\ events s1 = events s2 /\ icebreakers s1 = icebreakers s2 /\ polls s1 = polls s2
  /\ questions s1 = questions s2 /\ photos s1 = photos s2 /\ chats s1 = chats s2
  /\ rooms s1 = rooms s2 /\ socket_eventId s1 = socket_eventId s2.

(** The interaction operations: polls, Q&A, icebreakers, photos, chat. *)
Definition is_interaction (r : Request) : Prop :=
  match r with
  | CreateIcebreaker _ _ _ | RespondIcebreaker _ _ _ _
  | CreatePoll _ _ _ _ _ _ | VotePoll _ _ _ _
  | AskQuestion _ _ _ | UpvoteQuestion _ _ _ | AnswerQuestion _ _ _ _
  | SharePhoto _ _ _ _ _ | LikePhoto _ _ _
  | SendChat _ _ _ _ => True
  | _ => False
  end.

(** ** The metrics loop *)

(** What one run of the loop makes of a LiveEvent. *)
Definition reconciled (s : Store) (liveEvent : LiveEvent.t) : LiveEvent.t :=
  if is_live liveEvent then
    default liveEvent
      (reconcile (getActiveUsersCount (LiveEvent.eventId liveEvent) s) liveEvent)
  else liveEvent.

(** What it sends to the room of a live event. *)
Definition tick_emit (s : Store) (liveEvent : LiveEvent.t) : list Emit :=
  match reconcile (getActiveUsersCount (LiveEvent.eventId liveEvent) s) liveEvent with
  | Some liveEvent' =>
      [mkEmit (room (LiveEvent.eventId liveEvent)) (metrics_payload liveEvent')]
  | None => []
  end.

(** ** Poll percentages *)


(** ** Rounding in binary64 *)



(** ** LiveEvents across a request *)

(** One LiveEvent per [_id] and per event. *)
Definition wellformed (s : Store) : Prop :=
  List.NoDup (map LiveEvent._id (liveEvents s))
  /\ List.NoDup (map LiveEvent.eventId (liveEvents s)).

(** The same LiveEvent later on: the keys are kept, [peakAttendance] has
    not gone down. *)
Definition grows (a b : LiveEvent.t) : Prop :=
  LiveEvent._id b = LiveEvent._id a
  /\ LiveEvent.eventId b = LiveEvent.eventId a
  /\ LiveEvent.peakAttendance (LiveEvent.metrics a)
     <= LiveEvent.peakAttendance (LiveEvent.metrics b).

(** How a request changes the LiveEvents: each one grows, and at most one
    new LiveEvent, of a new event, is added. *)
Definition liveEvents_grow (c c' : list LiveEvent.t) : Prop :=
  exists kept new,
    c' = kept ++ new /\ Forall2 grows c kept
    /\ (new = []
        \/ exists d, new = [d]
                     /\ ~ In (LiveEvent._id d) (map LiveEvent._id c)
                     /\ ~ In (LiveEvent.eventId d) (map LiveEvent.eventId c)).

(** * The rest of the engine: reading, sockets, authentication *)

(** ** More JavaScript strings *)

Module JsStr.

(** [s.split(sep)] for a separator of one code unit. *)
Fixpoint split (sep : ascii) (s : string) : list string :=
  match s with
  | EmptyString => [EmptyString]
  | String c r =>
      if Ascii.eqb c sep then EmptyString :: split sep r
      else
        match split sep r with
        | h :: t => String c h :: t
        | [] => [String c EmptyString]
        end
  end.

(** [s.slice(n)] *)
Fixpoint drop (n : nat) (s : string) : string :=
  match n, s with
  | O, _ => s
  | S n, String _ r => drop n r
  | S _, EmptyString => EmptyString
  end.

(** [s.replace(pattern, '')] for a string pattern: its first occurrence is
    taken out. *)
Fixpoint remove_first (pattern s : string) : string :=
  if String.prefix pattern s then drop (String.length pattern) s
  else
    match s with
    | EmptyString => EmptyString
    | String c r => String c (remove_first pattern r)
    end.

(** [a || b] on values that are a string or undefined. *)
Definition or (a b : option string) : option string :=
  if Js.falsy a then b else a.

(** [!!s] *)
Definition truthy (s : option string) : bool := negb (Js.falsy s).

End JsStr.

(** ** Reading the live event (route GET /:eventId/data) *)

(** [.sort(keys)] of a query.  Mongo returns the documents ordered by the
    keys; the order among documents with equal keys is not specified, so the
    sort is any function with these two properties. *)
Class QuerySort := {
  sort_by : forall {A : Type}, (A -> A -> bool) -> list A -> list A;
  sort_by_Permutation :
    forall {A : Type} (before : A -> A -> bool) (l : list A),
      Permutation (sort_by before l) l;
  sort_by_StronglySorted :
    forall {A : Type} (before : A -> A -> bool) (l : list A),
      (forall x y, before x y = true \/ before y x = true) ->
      (forall x y z, before x y = true -> before y z = true -> before x z = true) ->
      StronglySorted (fun x y => before x y = true) (sort_by before l)
}.

(** [{ createdAt: -1 }] *)
Definition newest_first {A : Type} (createdAt : A -> Date) (x y : A) : bool :=
  createdAt y <=? createdAt x.

(** [{ upvoteCount: -1, createdAt: -1 }] *)
Definition most_upvoted_first (x y : LiveQA.t) : bool :=
  (LiveQA.upvoteCount y <? LiveQA.upvoteCount x)
  || ((LiveQA.upvoteCount y =? LiveQA.upvoteCount x)
      && (LiveQA.createdAt y <=? LiveQA.createdAt x)).

Definition is_approved (p : LivePhoto.t) : bool :=
  match LivePhoto.status p with
  | LivePhoto.approved => true
  | _ => false
  end.

Module Data.
Record LiveEventView := mkView {
  id : ObjectId;
  status : LiveEvent.Status;
  settings : LiveEvent.Settings;
  metrics : LiveEvent.Metrics;
  startedAt : option Date;
  endedAt : option Date
}.

Record t := mk {
  liveEvent : LiveEventView;
  icebreakers : list Icebreaker.t;
  polls : list LivePoll.t;
  qaQuestions : list LiveQA.t;
  photos : list LivePhoto.t;
  chat : list LiveChat.t
}.
End Data.

(** The reply is the 404 or the data (the 200 has no message). *)
Definition get_live_data `{QuerySort} (eventId : ObjectId) (s : Store) : HttpResponse + Data.t :=
  match findLiveEvent eventId s with
  | None => inl (mkHttp 404 false "Live event not found" no_body)
  | Some liveEvent =>
      let this := LiveEvent._id liveEvent in
      let icebreakers_ :=
        sort_by (newest_first Icebreaker.createdAt)
          (List.filter
             (fun i => String.eqb (Icebreaker.liveEventId i) this && Icebreaker.isActive i)
             (icebreakers s)) in
      let polls_ :=
        sort_by (newest_first LivePoll.createdAt)
          (List.filter
             (fun p => String.eqb (LivePoll.liveEventId p) this && LivePoll.isActive p)
             (polls s)) in
      let qaQuestions :=
        sort_by most_upvoted_first
          (List.filter (fun q => String.eqb (LiveQA.liveEventId q) this) (questions s)) in
      let photos_ :=
        take 20
          (sort_by (newest_first LivePhoto.createdAt)
             (List.filter
                (fun p => String.eqb (LivePhoto.liveEventId p) this && is_approved p)
                (photos s))) in
      let recentChat :=
        take 50
          (sort_by (newest_first LiveChat.createdAt)
             (List.filter
                (fun c => String.eqb (LiveChat.liveEventId c) this && LiveChat.isVisible c)
                (chats s))) in
      inr
        (Data.mk
           (Data.mkView (LiveEvent._id liveEvent) (LiveEvent.status liveEvent)
              (LiveEvent.liveSettings liveEvent) (LiveEvent.metrics liveEvent)
              (LiveEvent.startedAt liveEvent) (LiveEvent.endedAt liveEvent))
           icebreakers_ polls_ qaQuestions photos_ (rev recentChat))
  end.

(** A sort to run the route with: the merge sort of stdpp. *)
Definition merge_sort_by {A : Type} (before : A -> A -> bool) (l : list A) : list A :=
  @merge_sort A (fun x y => before x y = true) (fun x y => decide (before x y = true)) l.

#[export] Instance merge_sorted : QuerySort.
Proof.
  refine {| sort_by := @merge_sort_by |}.
  - intros A before l. apply merge_sort_Permutation.
  - intros A before l Htotal Htrans. apply StronglySorted_merge_sort.
    + intros x y z. apply Htrans.
    + intros x y. apply Htotal.
Defined.

(** ** Analytics (models/Analytics) *)

Module Analytics.

(** The fields of [metadata] the schema declares with a validator or that
    the socket handler sets; what the schema does not declare is dropped by
    the strict mode of Mongoose. *)
Record Metadata := mkMetadata {
  referrer : option string;
  userAgent : option string;
  ipAddress : option string;
  deviceType : option string
}.

Definition no_metadata : Metadata := mkMetadata None None None None.

Record t := mk {
  eventId : ObjectId;
  userId : ObjectId;
  sessionId : string;
  action : string;
  metadata : Metadata;
  timestamp : Date
}.

(** The [enum] of [action]. *)
Definition actions : list string :=
  ["view_event"; "like_event"; "share_event"; "purchase_ticket"; "click_link";
   "registration"; "check_in"; "engagement_interaction"; "photo_upload"; "poll_vote";
   "qa_question"; "chat_message"].

(** The [enum] of [metadata.deviceType]. *)
Definition deviceTypes : list string := ["desktop"; "mobile"; "tablet"].

(** The validators run by [save]. *)
Definition validate (a : t) : bool :=
  negb (Js.length (eventId a) =? 0)
  && negb (Js.length (sessionId a) =? 0)
  && existsb (String.eqb (action a)) actions
  && match deviceType (metadata a) with
     | Some d => existsb (String.eqb d) deviceTypes
     | None => true
     end.

(** [analytics.save()]: [None] is the ValidationError. *)
Definition save (a : t) (c : list t) : option (list t) :=
  if validate a then Some (c ++ [a]) else None.

End Analytics.

(** ** The socket handler, every event (socket/socketHandler) *)

Module Socket.

(** A connected socket: [socket.id], [socket.user], [socket.handshake]. *)
Record t := mk {
  id : SocketId;
  user_id : ObjectId;
  firstName : string;
  lastName : string;
  user_agent : option string;
  address : string
}.

(** [`${socket.user.firstName} ${socket.user.lastName}`] *)
Definition userName (sock : t) : string := firstName sock ++ " " ++ lastName sock.

Inductive Audience :=
  | everyone (eventId : ObjectId)                  (** [io.to(`event_${eventId}`)] *)
  | others (sid : SocketId) (eventId : ObjectId)   (** [socket.to(`event_${eventId}`)] *)
  | moderators (sid : SocketId) (eventId : ObjectId)
      (** [socket.to(`event_${eventId}_moderators`)] *)
  | self (sid : SocketId).                         (** [socket.emit] *)

Inductive Message :=
  | engine (p : Payload)
  | user_typing (userId : ObjectId) (userName : string) (isTyping : bool)
  | reaction_received (userId : ObjectId) (userName emoji targetType : string)
      (targetId : option string) (timestamp : Date)
  | screen_share_started (hostId : ObjectId) (hostName : string) (streamId : option string)
  | screen_share_confirmed (streamId : option string)
  | screen_share_stopped (hostId : ObjectId)
  | user_activity_update (userId : ObjectId) (userName activity : string) (timestamp : Date).

Record Sent := send { to : Audience; message : Message }.

(** The database of the engine and the Analytics collection. *)
Record World := mkWorld {
  db : Store;
  analytics : list Analytics.t
}.

Record Result := mkResult {
  world : World;
  sent : list Sent
}.

(** An emit of the handlers modelled above, as a message of the socket layer. *)
Definition lift (e : Emit) : Sent :=
  send
    match target e with
    | room eventId => everyone eventId
    | socket sid => self sid
    end
    (engine (payload e)).

(** [socket.emit('error', { message })] *)
Definition fail (sock : t) (msg : string) : Sent := send (self (id sock)) (engine (error msg)).

(** [join_event]: the Analytics document is saved before the LiveEvent is
    looked at; a rejected save ends the handler in its [catch]. *)
Definition on_join_event (env : Env) (sock : t) (eventId : option ObjectId) (w : World)
    : Result :=
  match eventId with
  | None => mkResult w [fail sock "Event ID is required"]
  | Some eventId =>
      if Js.falsy (Some eventId) then mkResult w [fail sock "Event ID is required"]
      else
        let joined :=
          set_socket_eventId (id sock) eventId (socket_join (id sock) eventId (db w)) in
        let document :=
          Analytics.mk eventId (user_id sock) (id sock) "join_live_event"
            (Analytics.mkMetadata None (user_agent sock) (Some (address sock)) None)
            (now env) in
        match Analytics.save document (analytics w) with
        | None => mkResult (mkWorld joined (analytics w)) [fail sock "Failed to join event"]
        | Some c =>
            let o := join_event (id sock) (Some eventId) (db w) in
            mkResult (mkWorld (store o) c) (map lift (emits o))
        end
  end.

Definition on_leave_event (sock : t) (eventId : option ObjectId) (w : World) : Result :=
  let o := leave_event (id sock) eventId (db w) in
  mkResult (mkWorld (store o) (analytics w)) (map lift (emits o)).

(** [typing_start] and [typing_stop] differ in [isTyping] only. *)
Definition on_typing (isTyping : bool) (sock : t) (eventId : option ObjectId) (w : World)
    : Result :=
  mkResult w
    match eventId with
    | Some eventId =>
        if JsStr.truthy (Some eventId)
           && match get_socket_eventId (id sock) (db w) with
              | Some joined => String.eqb joined eventId
              | None => false
              end
        then [send (others (id sock) eventId)
                (user_typing (user_id sock) (userName sock) isTyping)]
        else []
    | None => []
    end.

Definition on_send_reaction (env : Env) (sock : t)
    (eventId emoji targetType targetId : option string) (w : World) : Result :=
  match eventId, emoji, targetType with
  | Some eventId, Some emoji, Some targetType =>
      if Js.falsy (Some eventId) || Js.falsy (Some emoji) || Js.falsy (Some targetType) then
        mkResult w [fail sock "Missing required fields for reaction"]
      else
        let reaction :=
          reaction_received (user_id sock) (userName sock) emoji targetType targetId
            (now env) in
        let document :=
          Analytics.mk eventId (user_id sock) (id sock) "engagement_interaction"
            Analytics.no_metadata (now env) in
        match Analytics.save document (analytics w) with
        | Some c => mkResult (mkWorld (db w) c) [send (everyone eventId) reaction]
        | None =>
            mkResult w [send (everyone eventId) reaction; fail sock "Failed to send reaction"]
        end
  | _, _, _ => mkResult w [fail sock "Missing required fields for reaction"]
  end.

(** [liveEvent.metrics.totalInteractions++] *)
Definition count_interaction (liveEvent : LiveEvent.t) : LiveEvent.t :=
  LiveEvent.set_metrics
    (LiveEvent.set_totalInteractions
       (LiveEvent.totalInteractions (LiveEvent.metrics liveEvent) + 1)
       (LiveEvent.metrics liveEvent))
    liveEvent.

Definition on_track_engagement (env : Env) (sock : t) (eventId action : option string)
    (metadata : option Analytics.Metadata) (w : World) : Result :=
  match eventId, action with
  | Some eventId, Some action =>
      if Js.falsy (Some eventId) || Js.falsy (Some action) then mkResult w []
      else
        let document :=
          Analytics.mk eventId (user_id sock) (id sock) action
            (default Analytics.no_metadata metadata) (now env) in
        match Analytics.save document (analytics w) with
        | None => mkResult w []
        | Some c =>
            let s :=
              match findLiveEvent eventId (db w) with
              | Some liveEvent =>
                  if is_live liveEvent then save_liveEvent (count_interaction liveEvent) (db w)
                  else db w
              | None => db w
              end in
            mkResult (mkWorld s c) []
        end
  | _, _ => mkResult w []
  end.

Definition on_start_screen_share (sock : t) (eventId : ObjectId) (streamId : option string)
    (w : World) : Result :=
  if negb (is_organizer (user_id sock) eventId (db w)) then
    mkResult w [fail sock "Only event organizers can start screen sharing"]
  else
    mkResult w
      [send (others (id sock) eventId)
         (screen_share_started (user_id sock) (userName sock) streamId);
       send (self (id sock)) (screen_share_confirmed streamId)].

Definition on_stop_screen_share (sock : t) (eventId : ObjectId) (w : World) : Result :=
  mkResult w [send (others (id sock) eventId) (screen_share_stopped (user_id sock))].

Definition on_user_activity (env : Env) (sock : t) (eventId activity : option string)
    (w : World) : Result :=
  match eventId, activity with
  | Some eventId, Some activity =>
      if JsStr.truthy (Some eventId) && JsStr.truthy (Some activity) then
        let document :=
          Analytics.mk eventId (user_id sock) (id sock) "user_activity"
            Analytics.no_metadata (now env) in
        match Analytics.save document (analytics w) with
        | Some c =>
            mkResult (mkWorld (db w) c)
              [send (moderators (id sock) eventId)
                 (user_activity_update (user_id sock) (userName sock) activity (now env))]
        | None => mkResult w []
        end
      else mkResult w []
  | _, _ => mkResult w []
  end.

(** [disconnect]: the LiveEvent is updated first, the Analytics document is
    saved last; a rejected save is logged. *)
Definition on_disconnect (env : Env) (sock : t) (w : World) : Result :=
  let o := disconnect (id sock) (db w) in
  let c :=
    match get_socket_eventId (id sock) (db w) with
    | Some eventId =>
        if Js.falsy (Some eventId) then analytics w
        else
          let document :=
            Analytics.mk eventId (user_id sock) (id sock) "leave_live_event"
              Analytics.no_metadata (now env) in
          default (analytics w) (Analytics.save document (analytics w))
    | None => analytics w
    end in
  mkResult (mkWorld (store o) c) (map lift (emits o)).

(** [socket.on('error', ...)] *)
Definition on_error (sock : t) (w : World) : Result :=
  mkResult w [fail sock "An error occurred"].

(** What a socket sends to the server. *)
Inductive Incoming :=
  | ev_join_event (eventId : option ObjectId)
  | ev_leave_event (eventId : option ObjectId)
  | ev_typing_start (eventId : option ObjectId)
  | ev_typing_stop (eventId : option ObjectId)
  | ev_send_reaction (eventId emoji targetType targetId : option string)
  | ev_track_engagement (eventId action : option string)
      (metadata : option Analytics.Metadata)
  | ev_start_screen_share (eventId : ObjectId) (streamId : option string)
  | ev_stop_screen_share (eventId : ObjectId)
  | ev_user_activity (eventId activity : option string)
  | ev_disconnect
  | ev_error.

Definition on (env : Env) (sock : t) (ev : Incoming) (w : World) : Result :=
  match ev with
  | ev_join_event eventId => on_join_event env sock eventId w
  | ev_leave_event eventId => on_leave_event sock eventId w
  | ev_typing_start eventId => on_typing true sock eventId w
  | ev_typing_stop eventId => on_typing false sock eventId w
  | ev_send_reaction eventId emoji targetType targetId =>
      on_send_reaction env sock eventId emoji targetType targetId w
  | ev_track_engagement eventId action metadata =>
      on_track_engagement env sock eventId action metadata w
  | ev_start_screen_share eventId streamId => on_start_screen_share sock eventId streamId w
  | ev_stop_screen_share eventId => on_stop_screen_share sock eventId w
  | ev_user_activity eventId activity => on_user_activity env sock eventId activity w
  | ev_disconnect => on_disconnect env sock w
  | ev_error => on_error sock w
  end.

(** What reaches the server: a socket event, a request of the routes, a turn
    of the metrics loop.  The requests of the routes are the twelve of
    [Request] that are no socket event. *)
Inductive Arrival :=
  | from_socket (sock : t) (ev : Incoming)
  | from_route (r : Request)
  | from_timer.

Definition is_route (r : Request) : bool :=
  match r with
  | JoinEvent _ _ | LeaveEvent _ _ | Disconnect _ | MetricsTick => false
  | _ => true
  end.

Definition arrive (env : Env) (a : Arrival) (w : World) : Result :=
  match a with
  | from_socket sock ev => on env sock ev w
  | from_route r =>
      if is_route r then
        let o := handle env r (db w) in
        mkResult (mkWorld (store o) (analytics w)) (map lift (emits o))
      else mkResult w []
  | from_timer =>
      let o := metrics_tick (db w) in
      mkResult (mkWorld (store o) (analytics w)) (map lift (emits o))
  end.

(** A history of the server. *)
Definition serve (h : list (Env * Arrival)) (w : World) : World :=
  fold_left (fun w ea => world (arrive (fst ea) (snd ea) w)) h w.

Fixpoint serve_sent (h : list (Env * Arrival)) (w : World) : list Sent :=
  match h with
  | [] => []
  | ea :: h' =>
      let r := arrive (fst ea) (snd ea) w in
      sent r ++ serve_sent h' (world r)
  end.

Definition init_world (evs : list Event.t) : World := mkWorld (init_store evs) [].

End Socket.

(** ** Users (models/User): the refresh tokens *)

Module User.
Record t := mk {
  _id : ObjectId;
  accountStatus : string;
  refreshTokens : list string;
  isOrganizer : bool;
  isVerified : bool
}.

Definition set_refreshTokens (ts : list string) (u : t) : t :=
  mk (_id u) (accountStatus u) ts (isOrganizer u) (isVerified u).

(** [a.slice(-n)]: the last [n] elements. *)
Definition slice_last {A : Type} (n : nat) (l : list A) : list A :=
  drop (List.length l - n) l.

(** [addRefreshToken], up to its [save]. *)
Definition addRefreshToken (token : string) (u : t) : t :=
  let pushed := refreshTokens u ++ [token] in
  set_refreshTokens
    (if (5 <? List.length pushed)%nat then slice_last 5 pushed else pushed) u.

(** [removeRefreshToken], up to its [save]. *)
Definition removeRefreshToken (token : string) (u : t) : t :=
  set_refreshTokens (List.filter (fun t => negb (String.eqb t token)) (refreshTokens u)) u.
End User.

(** ** Authentication (middleware/auth, socket/socketHandler) *)

Module Auth.

(** The payload of a token, as far as the middlewares read it. *)
Record Claims := mkClaims {
  userId : option ObjectId;
  id : option ObjectId;
  type : option string
}.

(** What [jwt.verify] does: it returns the payload or throws. *)
Inductive Verified :=
  | decoded (c : Claims)
  | JsonWebTokenError
  | TokenExpiredError
  | OtherError.

(** [process.env] *)
Record Environment := mkEnvironment {
  env_JWT_SECRET : option string;
  env_JWT_REFRESH_SECRET : option string;
  env_JWT_EXPIRES_IN : option string;
  env_JWT_REFRESH_EXPIRES_IN : option string
}.

Definition or_default (v : option string) (d : string) : string :=
  default d (JsStr.or v (Some d)).

Definition JWT_SECRET (e : Environment) : string :=
  or_default (env_JWT_SECRET e) "crowd-app-jwt-secret-key-2025-fallback".

Definition JWT_REFRESH_SECRET (e : Environment) : string :=
  or_default (env_JWT_REFRESH_SECRET e) "crowd-app-refresh-secret-key-2025-fallback".

(** [User.findById(id)]; [findById(undefined)] finds nothing. *)
Definition findUser (i : option ObjectId) (users : list User.t) : option User.t :=
  match i with
  | Some i => findById User._id i users
  | None => None
  end.

(** What a middleware does with the request: it calls [next], with
    [req.user] set or not, or it answers. *)
Inductive Passed :=
  | next (user : option User.t)
  | answered (code : Z) (message : string).

(** [authHeader && authHeader.split(' ')[1]], as a token or nothing
    ([!token]). *)
Definition bearer (authorization : option string) : option string :=
  match authorization with
  | None => None
  | Some authHeader =>
      if Js.falsy (Some authHeader) then None
      else
        match JsStr.split " " authHeader !! 1%nat with
        | Some token => if Js.falsy (Some token) then None else Some token
        | None => None
        end
  end.

(** The payloads [generateTokens] signs. *)
Definition access_claims (user : ObjectId) : Claims := mkClaims (Some user) None None.
Definition refresh_claims (user : ObjectId) : Claims :=
  mkClaims (Some user) None (Some "refresh").

(** [socket.handshake] *)
Record Handshake := mkHandshake {
  auth_token : option string;
  authorization : option string
}.

(** [socket.handshake.auth.token ||
     socket.handshake.headers.authorization?.replace('Bearer ', '')] *)
Definition handshake_token (h : Handshake) : option string :=
  JsStr.or (auth_token h) (JsStr.remove_first "Bearer " <$> authorization h).

(** What [authenticateSocket] hands to [next]. *)
Inductive Admission :=
  | admitted (user : User.t)
  | refused (message : string).

Section Jwt.
(** [jwt.verify(token, secret)] and [jwt.sign(payload, secret, { expiresIn })]
    of the jsonwebtoken library. *)
Variable verify : string -> option string -> Verified.
Variable sign : Claims -> string -> string -> string.

Definition authenticateToken (e : Environment) (users : list User.t)
    (authorization : option string) : Passed :=
  match bearer authorization with
  | None => answered 401 "Access token required"
  | Some token =>
      match verify token (Some (JWT_SECRET e)) with
      | decoded c =>
          match findUser (userId c) users with
          | Some user =>
              if negb (String.eqb (User.accountStatus user) "active") then
                answered 401 "Invalid or expired token"
              else next (Some user)
          | None => answered 401 "Invalid or expired token"
          end
      | JsonWebTokenError => answered 401 "Invalid token"
      | TokenExpiredError => answered 401 "Token expired"
      | OtherError => answered 500 "Authentication failed"
      end
  end.

Definition optionalAuth (e : Environment) (users : list User.t)
    (authorization : option string) : Passed :=
  match bearer authorization with
  | None => next None
  | Some token =>
      match verify token (Some (JWT_SECRET e)) with
      | decoded c =>
          match findUser (userId c) users with
          | Some user =>
              if String.eqb (User.accountStatus user) "active" then next (Some user)
              else next None
          | None => next None
          end
      | _ => next None
      end
  end.

(** [requireOrganizer], [requireVerified], [requireActiveAccount]: what they
    do with [req.user]. *)
Definition requireOrganizer (user : option User.t) : Passed :=
  match user with
  | None => answered 401 "Authentication required"
  | Some u =>
      if negb (User.isOrganizer u) then answered 403 "Organizer privileges required"
      else next user
  end.

Definition requireVerified (user : option User.t) : Passed :=
  match user with
  | None => answered 401 "Authentication required"
  | Some u =>
      if negb (User.isVerified u) then answered 403 "Email verification required"
      else next user
  end.

Definition requireActiveAccount (user : option User.t) : Passed :=
  match user with
  | None => answered 401 "Authentication required"
  | Some u =>
      if negb (String.eqb (User.accountStatus u) "active") then
        answered 403 "Account is not active"
      else next user
  end.

Definition generateTokens (e : Environment) (user : ObjectId) : string * string :=
  (sign (access_claims user) (JWT_SECRET e) (or_default (env_JWT_EXPIRES_IN e) "15m"),
   sign (refresh_claims user) (JWT_REFRESH_SECRET e)
     (or_default (env_JWT_REFRESH_EXPIRES_IN e) "7d")).

(** What [verifyRefreshToken] throws. *)
Inductive Thrown :=
  | of_jwt (v : Verified)
  | Error (message : string).

Definition verifyRefreshToken (e : Environment) (users : list User.t) (token : string)
    : User.t + Thrown :=
  match verify token (Some (JWT_REFRESH_SECRET e)) with
  | decoded c =>
      if negb match type c with
              | Some t => String.eqb t "refresh"
              | None => false
              end
      then inr (Error "Invalid token type")
      else
        match findUser (userId c) users with
        | None => inr (Error "User not found")
        | Some user =>
            if existsb (fun t => String.eqb t token) (User.refreshTokens user) then inl user
            else inr (Error "Token not found")
        end
  | v => inr (of_jwt v)
  end.

Definition authenticateSocket (e : Environment) (users : list User.t) (h : Handshake)
    : Admission :=
  match handshake_token h with
  | None => refused "Authentication token required"
  | Some token =>
      if Js.falsy (Some token) then refused "Authentication token required"
      else
        match verify token (env_JWT_SECRET e) with
        | decoded c =>
            match findUser (id c) users with
            | None => refused "User not found"
            | Some user => admitted user
            end
        | _ => refused "Authentication failed"
        end
  end.
End Jwt.

End Auth.

(** ** The rate limiter (middleware/auth) *)

Module RateLimit.

(** [clients]: the Map from the client's address to its time stamps. *)
Abbreviation Clients := (gmap string (list Z)) (only parsing).

Inductive Verdict :=
  | next
  | too_many (retryAfter : Z).

(** [Math.ceil(windowMs / 1000)] for an integer [windowMs]. *)
Definition ceil_div (a b : Z) : Z := - ((- a) / b).

(** The middleware [rateLimit(requests, windowMs)] returns, run on a request
    of [clientId] at time [now]. *)
Definition rateLimit (requests windowMs : Z) (clientId : string) (now : Z)
    (clients : Clients) : Clients * Verdict :=
  let windowStart := now - windowMs in
  let clients :=
    match clients !! clientId with
    | None => <[clientId := []]> clients
    | Some _ => clients
    end in
  let requestTimestamps := default [] (clients !! clientId) in
  let recentRequests := List.filter (fun timestamp => timestamp >? windowStart) requestTimestamps in
  if Z.of_nat (List.length recentRequests) >=? requests then
    (clients, too_many (ceil_div windowMs 1000))
  else
    (<[clientId := recentRequests ++ [now]]> clients, next).

(** The requests of a history that were let through, oldest first. *)
Fixpoint admitted (requests windowMs : Z) (calls : list (string * Z)) (clients : Clients)
    : list (string * Z) :=
  match calls with
  | [] => []
  | (clientId, now) :: rest =>
      match rateLimit requests windowMs clientId now clients with
      | (clients, next) => (clientId, now) :: admitted requests windowMs rest clients
      | (clients, too_many _) => admitted requests windowMs rest clients
      end
  end.

(** The map the history leaves. *)
Fixpoint clients_after (requests windowMs : Z) (calls : list (string * Z))
    (clients : Clients) : Clients :=
  match calls with
  | [] => clients
  | (clientId, now) :: rest =>
      clients_after requests windowMs rest
        (fst (rateLimit requests windowMs clientId now clients))
  end.

(** A request of [clientId] in the window that ends at [t]: after
    [t - windowMs], not after [t]. *)
Definition in_window (windowMs : Z) (clientId : string) (t : Z) (call : string * Z) : bool :=
  String.eqb (fst call) clientId && (t - windowMs <? snd call) && (snd call <=? t).

(** How many of [calls] are requests of [clientId] in that window. *)
Definition count_in_window (windowMs : Z) (clientId : string) (t : Z)
    (calls : list (string * Z)) : Z :=
  Z.of_nat (List.length (List.filter (in_window windowMs clientId t) calls)).

(** The time stamps of the requests of [clientId] among [calls]. *)
Definition times_of (clientId : string) (calls : list (string * Z)) : list Z :=
  map snd (List.filter (fun call => String.eqb (fst call) clientId) calls).

(** [timestamps.filter(timestamp => timestamp > now - windowMs)] *)
Definition recent (windowMs now : Z) (timestamps : list Z) : list Z :=
  List.filter (fun timestamp => timestamp >? now - windowMs) timestamps.

(** What the map knows at time [T], [let_through] being the requests let
    through so far: for the windows still to come it holds the time stamps
    of the requests let through. *)
Record limiter_inv (requests windowMs : Z) (clients : Clients)
    (let_through : list (string * Z)) (T : Z) : Prop := mkInv {
  inv_recent :
    forall clientId now, T <= now ->
      recent windowMs now (default [] (clients !! clientId))
      = recent windowMs now (times_of clientId let_through);
  inv_past : Forall (fun call => snd call <= T) let_through;
  inv_bound :
    forall clientId t, count_in_window windowMs clientId t let_through <= requests
}.

End RateLimit.

(** * Specification, continued *)

(** ** Photos across a request *)

(** [likeCount == len(likes)] *)
Definition likes_counted (p : LivePhoto.t) : Prop :=
  LivePhoto.likeCount p = Z.of_nat (List.length (LivePhoto.likes p)).

(** The invariant that carries it: no user is in [likes] twice. *)
Definition photo_ok (p : LivePhoto.t) : Prop :=
  List.NoDup (LivePhoto.likes p) /\ likes_counted p.

(** The same photo, but for its likes. *)
Definition same_photo (a b : LivePhoto.t) : Prop :=
  b = LivePhoto.set_likes (LivePhoto.likes b) (LivePhoto.likeCount b) a.

(** How a request changes the photos. *)
Inductive photos_change (s : Store) (c' : list LivePhoto.t) : Prop :=
  | photos_same : c' = photos s -> photos_change s c'
  | photos_shared p :
      insertOne LivePhoto._id p (photos s) = Some c' ->
      LivePhoto.likes p = [] -> LivePhoto.likeCount p = 0 ->
      photos_change s c'
  | photos_liked user p :
      findById LivePhoto._id (LivePhoto._id p) (photos s) = Some p ->
      c' = replaceOne LivePhoto._id (toggle_like user p) (photos s) ->
      photos_change s c'.

(** The photos of [c] are in [c'], in their places, each the same but for
    its likes; [c'] may hold more. *)
Definition photos_kept (c c' : list LivePhoto.t) : Prop :=
  exists old new, c' = old ++ new /\ Forall2 same_photo c old.

(** ** Chat across a request *)

Inductive chats_change (s : Store) (c' : list LiveChat.t) : Prop :=
  | chats_same : c' = chats s -> chats_change s c'
  | chats_sent c :
      insertOne LiveChat._id c (chats s) = Some c' ->
      LiveChat.isVisible c = true ->
      chats_change s c'.

(** ** Identifiers *)

(** No two documents of a collection share their [_id], and no two
    LiveEvents their event. *)
Definition ids_unique (s : Store) : Prop :=
  wellformed s
  /\ List.NoDup (map Icebreaker._id (icebreakers s))
  /\ List.NoDup (map LivePoll._id (polls s))
  /\ List.NoDup (map LiveQA._id (questions s))
  /\ List.NoDup (map LivePhoto._id (photos s))
  /\ List.NoDup (map LiveChat._id (chats s)).

(** ** The shape of the documents *)

(** A LiveEvent was started; one that is ended has its end date. *)
Definition liveEvent_shape (d : LiveEvent.t) : Prop :=
  LiveEvent.status d <> LiveEvent.scheduled
  /\ LiveEvent.startedAt d <> None
  /\ (LiveEvent.status d = LiveEvent.ended -> LiveEvent.endedAt d <> None).

(** A question is pending without an answer or answered with one. *)
Definition question_shape (q : LiveQA.t) : Prop :=
  (LiveQA.status q = LiveQA.pending /\ LiveQA.answer q = None
   \/ LiveQA.status q = LiveQA.answered /\ LiveQA.answer q <> None)
  /\ LiveQA.isHighlighted q = false.

(** Nothing was hidden, closed or turned down. *)
Definition nothing_moderated (s : Store) : Prop :=
  Forall (fun c => LiveChat.isVisible c = true) (chats s)
  /\ Forall (fun p => LivePoll.isActive p = true) (polls s)
  /\ Forall (fun i => Icebreaker.isActive i = true) (icebreakers s)
  /\ Forall (fun p => LivePhoto.status p <> LivePhoto.rejected) (photos s).

(** ** The event of the URL *)

(** [req.params.eventId] *)
Definition url_eventId (r : Request) : option ObjectId :=
  match r with
  | StartLiveEvent _ eventId _ | EndLiveEvent _ eventId
  | CreateIcebreaker _ eventId _ | RespondIcebreaker _ eventId _ _
  | CreatePoll _ eventId _ _ _ _ | VotePoll _ eventId _ _
  | AskQuestion _ eventId _ | UpvoteQuestion _ eventId _ | AnswerQuestion _ eventId _ _
  | SharePhoto _ eventId _ _ _ | LikePhoto _ eventId _
  | SendChat _ eventId _ _ => Some eventId
  | JoinEvent _ _ | LeaveEvent _ _ | Disconnect _ | MetricsTick => None
  end.

(** The routes that fetch their document by its own id and nothing else:
    respond, vote, upvote and like. *)
Definition by_document_id (r : Request) : bool :=
  match r with
  | RespondIcebreaker _ _ _ _ | VotePoll _ _ _ _ | UpvoteQuestion _ _ _ | LikePhoto _ _ _ =>
      true
  | _ => false
  end.

(** The request of such a route under another [:eventId]. *)
Definition at_event (eventId : ObjectId) (r : Request) : Request :=
  match r with
  | RespondIcebreaker user _ icebreakerId response =>
      RespondIcebreaker user eventId icebreakerId response
  | VotePoll user _ pollId optionIndexes => VotePoll user eventId pollId optionIndexes
  | UpvoteQuestion user _ questionId => UpvoteQuestion user eventId questionId
  | LikePhoto user _ photoId => LikePhoto user eventId photoId
  | _ => r
  end.

(** ** The socket layer *)

(** [peakAttendance] of every LiveEvent, in the order of the collection. *)
Definition peaks (s : Store) : list Z :=
  map (fun d => LiveEvent.peakAttendance (LiveEvent.metrics d)) (liveEvents s).

(** The collections that the socket handler never writes. *)
Definition same_engagement (s s' : Store) : Prop :=
  events s' = events s /\ icebreakers s' = icebreakers s /\ polls s' = polls s
  /\ questions s' = questions s /\ photos s' = photos s /\ chats s' = chats s.

(** The actions the socket handler gives to documents it builds itself and
    that the [enum] of Analytics does not list. *)
Definition unlisted_actions : list string :=
  ["join_live_event"; "leave_live_event"; "user_activity"].

(** [track_engagement] events of the sockets, for one event. *)
Definition tracks (eventId : ObjectId) (a : Socket.Arrival) : Prop :=
  match a with
  | Socket.from_socket _ (Socket.ev_track_engagement (Some e) _ _) => e = eventId
  | _ => False
  end.

(** A LiveEvent with another [totalInteractions]. *)
Definition with_totalInteractions (n : Z) (d : LiveEvent.t) : LiveEvent.t :=
  LiveEvent.set_metrics (LiveEvent.set_totalInteractions n (LiveEvent.metrics d)) d.

(** ** Tokens *)

(** A string without a space, as a JSON Web Token is. *)
Fixpoint no_space (s : string) : bool :=
  match s with
  | EmptyString => true
  | String c r => negb (Ascii.eqb c " ") && no_space r
  end.

(** * Properties *)

(** ** Collections *)

Section CollectionFacts.
Context {D : Type} (id_of : D -> ObjectId).

Lemma findById_Some i c d :
  findById id_of i c = Some d -> In d c /\ id_of d = i.
Proof.
  unfold findById. intros H. apply find_some in H as [Hin Heq].
  split; [exact Hin | now apply String.eqb_eq].
Qed.

Lemma replaceOne_Forall (P : D -> Prop) d c :
  P d -> Forall P c -> Forall P (replaceOne id_of d c).
Proof.
  intros Hd Hc. induction Hc as [|x r Hx Hr IH]; simpl; [constructor|].
  destruct (String.eqb (id_of x) (id_of d)); constructor; assumption.
Qed.

Lemma insertOne_Forall (P : D -> Prop) d c c' :
  insertOne id_of d c = Some c' -> P d -> Forall P c -> Forall P c'.
Proof.
  unfold insertOne. destruct (existsb _ c); [discriminate|].
  intros [= <-] Hd Hc. apply Forall_app. split; [assumption | now constructor].
Qed.

Lemma insertOne_app d c c' :
  insertOne id_of d c = Some c' ->
  c' = c ++ [d] /\ findById id_of (id_of d) c = None.
Proof.
  unfold insertOne. destruct (existsb _ c) eqn:E; [discriminate|].
  intros [= <-]. split; [reflexivity|].
  unfold findById. destruct (find _ c) as [x|] eqn:F; [|reflexivity].
  apply find_some in F as [Hin Hx].
  assert (existsb (fun x => String.eqb (id_of x) (id_of d)) c = true) as E'.
  { apply existsb_exists. exists x. split; assumption. }
  rewrite E in E'. discriminate.
Qed.


Lemma findById_replaceOne_same d d0 c :
  findById id_of (id_of d) c = Some d0 ->
  findById id_of (id_of d) (replaceOne id_of d c) = Some d.
Proof.
  unfold findById. induction c as [|x r IH]; simpl; [discriminate|].
  destruct (String.eqb (id_of x) (id_of d)) eqn:E; simpl.
  - now rewrite String.eqb_refl.
  - rewrite E. exact IH.
Qed.

Lemma findById_replaceOne_other i d c :
  i <> id_of d ->
  findById id_of i (replaceOne id_of d c) = findById id_of i c.
Proof.
  unfold findById. intros Hne. induction c as [|x r IH]; simpl; [reflexivity|].
  destruct (String.eqb (id_of x) (id_of d)) eqn:E; simpl.
  - apply String.eqb_eq in E.
    assert (String.eqb (id_of d) i = false) as ->.
    { apply String.eqb_neq. congruence. }
    assert (String.eqb (id_of x) i = false) as ->.
    { apply String.eqb_neq. congruence. }
    reflexivity.
  - destruct (String.eqb (id_of x) i); [reflexivity | exact IH].
Qed.
End CollectionFacts.

(** ** Polls: the counters add up *)

Lemma sum_voteCount_alter f (os : list LivePoll.Option) (i : nat) o :
  os !! i = Some o ->
  sum_voteCount (alter f i os) = sum_voteCount os - LivePoll.voteCount o + LivePoll.voteCount (f o).
Proof.
  revert i. induction os as [|x r IH]; intros [|i] H; simpl in *; try discriminate.
  - injection H as ->. unfold sum_voteCount. simpl. lia.
  - specialize (IH i H). unfold sum_voteCount, alter in *. simpl. lia.
Qed.

Lemma add_vote_sum user now_ p index p' :
  add_vote user now_ p index = Some p' -> poll_sum_ok p -> poll_sum_ok p'.
Proof.
  unfold add_vote, poll_sum_ok. destruct (index <? 0); [discriminate|].
  destruct (LivePoll.options p !! Z.to_nat index) as [o|] eqn:E; [|discriminate].
  intros [= <-] H. simpl. rewrite (sum_voteCount_alter _ _ _ o E). simpl. lia.
Qed.

Lemma add_votes_sum user now_ idxs : forall p p',
  add_votes user now_ p idxs = Some p' -> poll_sum_ok p -> poll_sum_ok p'.
Proof.
  unfold add_votes. induction idxs as [|i r IH]; simpl; intros p p' H Hp.
  - injection H as <-. exact Hp.
  - destruct (add_vote user now_ p i) as [q|] eqn:E.
    + eapply IH; [exact H | eapply add_vote_sum; eassumption].
    + exfalso. clear -H. induction r as [|j r IHr]; simpl in H; [discriminate | auto].
Qed.

(** ** What the handlers leave alone *)

Ltac unfold_handlers :=
  unfold start_live_event, end_live_event, create_icebreaker, respond_icebreaker,
    create_poll, vote_poll, ask_question, upvote_question, answer_question,
    share_photo, like_photo, send_chat, join_event, leave_event, disconnect,
    store_activeUsers, updateMetrics, save_liveEvent, socket_join, socket_leave,
    set_socket_eventId, reject, respond in *.

(** Case analysis on every test of a handler. *)
Ltac crush_handler := unfold_handlers; repeat case_match; simplify_eq; simpl; auto.

Lemma tick_fold_frame s l : forall acc,
  same_but_liveEvents (store acc) (store (fold_left (tick_step s) l acc)).
Proof.
  induction l as [|e l IH]; intros acc; simpl.
  - repeat split.
  - specialize (IH (tick_step s acc e)). unfold tick_step in *.
    destruct (reconcile _ e) as [e'|]; [|exact IH].
    simpl in IH. exact IH.
Qed.

Lemma metrics_tick_frame s : same_but_liveEvents s (store (metrics_tick s)).
Proof. apply (tick_fold_frame s _ (mkOutcome s [] None)). Qed.

(** ** Polls: the counters add up, continued *)

Lemma add_vote_id user now_ p index p' :
  add_vote user now_ p index = Some p' -> LivePoll._id p' = LivePoll._id p.
Proof.
  unfold add_vote. repeat case_match; try discriminate. now intros [= <-].
Qed.

Lemma add_votes_None user now_ idxs :
  fold_left
    (fun acc index => match acc with Some p => add_vote user now_ p index | None => None end)
    idxs None = None.
Proof. induction idxs; simpl; auto. Qed.

Lemma add_votes_id user now_ idxs : forall p p',
  add_votes user now_ p idxs = Some p' -> LivePoll._id p' = LivePoll._id p.
Proof.
  unfold add_votes. induction idxs as [|i r IH]; simpl; intros p p' H.
  - now injection H as <-.
  - destruct (add_vote user now_ p i) as [q|] eqn:E.
    + rewrite (IH _ _ H). eapply add_vote_id; eassumption.
    + rewrite add_votes_None in H. discriminate.
Qed.

Lemma voteCount_fresh (texts : list string) :
  Forall (fun o => LivePoll.voteCount o = 0)
    (map (fun text => LivePoll.mkOption (Js.trim text) [] 0) texts).
Proof. induction texts as [|t r IH]; simpl; constructor; auto. Qed.

Lemma sum_voteCount_zero os :
  Forall (fun o => LivePoll.voteCount o = 0) os -> sum_voteCount os = 0.
Proof.
  unfold sum_voteCount. induction 1 as [|o r Ho Hr IH]; simpl; [reflexivity | lia].
Qed.

Lemma create_poll_polls env user eventId question options allowMultiple expiresIn s :
  polls_change s
    (polls (store (create_poll env user eventId question options allowMultiple expiresIn s))).
Proof.
  unfold create_poll, reject, respond.
  repeat case_match; simpl; try (now apply polls_same).
  all: eapply polls_created; [eassumption | apply voteCount_fresh | reflexivity].
Qed.

Lemma vote_poll_polls env user eventId pollId optionIndexes s :
  polls_change s (polls (store (vote_poll env user eventId pollId optionIndexes s))).
Proof.
  unfold vote_poll, reject, respond.
  repeat case_match; simpl; try (now apply polls_same).
  all: match goal with
  | F : findById _ _ _ = Some ?p, A : add_votes _ _ ?p _ = Some ?p' |- _ =>
      pose proof (add_votes_id _ _ _ _ _ A) as Hid;
      pose proof (findById_Some _ _ _ _ F) as [_ Hp];
      eapply (polls_voted _ _ _ _ _ p p'); [|exact A|reflexivity]
  end.
  all: rewrite Hid, Hp; assumption.
Qed.

Lemma handle_polls env r s : polls_change s (polls (store (handle env r s))).
Proof.
  destruct r; simpl;
    try apply create_poll_polls; try apply vote_poll_polls;
    try (apply polls_same; apply metrics_tick_frame);
    apply polls_same; crush_handler.
Qed.

Lemma handle_poll_sum env r s :
  Forall poll_sum_ok (polls s) -> Forall poll_sum_ok (polls (store (handle env r s))).
Proof.
  intros H. destruct (handle_polls env r s) as [E | p Hins Hs Ht | user now_ idxs p p' Hf Ha E].
  - rewrite E. exact H.
  - eapply insertOne_Forall; [exact Hins | | exact H].
    unfold poll_sum_ok. rewrite Ht. now apply sum_voteCount_zero.
  - rewrite E. apply replaceOne_Forall; [|exact H].
    eapply add_votes_sum; [exact Ha|].
    apply findById_Some in Hf as [Hin _]. exact (proj1 (List.Forall_forall _ _) H _ Hin).
Qed.

Lemma run_poll_sum h : forall s,
  Forall poll_sum_ok (polls s) -> Forall poll_sum_ok (polls (run h s)).
Proof.
  induction h as [|[env r] h IH]; intros s H; simpl; [exact H|].
  apply IH. apply handle_poll_sum. exact H.
Qed.

(** C5. For every poll of the store, after any history of requests served
    from the initial database (so after any sequence of accepted votes), the
    sum of [voteCount] over the poll's options equals the poll's
    [totalVotes]. *)
Theorem poll_voteCounts_sum_to_totalVotes (evs : list Event.t) (h : list (Env * Request)) :
  Forall poll_sum_ok (polls (run h (init_store evs))).
Proof. apply run_poll_sum. constructor. Qed.

(** A history with two accepted votes, to see the counters move. *)
Example two_votes_counted :
  let h :=
    [ (mkEnv 1000 "le1" true, StartLiveEvent "org" "e1" None);
      (mkEnv 2000 "p1" true, CreatePoll "org" "e1" (Some "Best talk?") (Some ["A"; "B"]) None None);
      (mkEnv 3000 "x1" true, VotePoll "u1" "e1" "p1" (Some [0]));
      (mkEnv 4000 "x2" true, VotePoll "u2" "e1" "p1" (Some [1])) ] in
  map (fun p => (map LivePoll.voteCount (LivePoll.options p), LivePoll.totalVotes p))
      (polls (run h (init_store [Event.mk "e1" "org"])))
  = [([1; 1], 2)].
Proof. vm_compute. reflexivity. Qed.

(** No counter is negative, so none exceeds [totalVotes]. *)
Lemma add_vote_nonneg user now_ p index p' :
  add_vote user now_ p index = Some p' ->
  Forall (fun o => 0 <= LivePoll.voteCount o) (LivePoll.options p) ->
  Forall (fun o => 0 <= LivePoll.voteCount o) (LivePoll.options p').
Proof.
  unfold add_vote. destruct (index <? 0); [discriminate|].
  destruct (LivePoll.options p !! Z.to_nat index) as [o|]; [|discriminate].
  intros [= <-] H. simpl. apply Forall_alter; [exact H|].
  intros x _ Hx. simpl. lia.
Qed.

Lemma add_votes_nonneg user now_ idxs : forall p p',
  add_votes user now_ p idxs = Some p' ->
  Forall (fun o => 0 <= LivePoll.voteCount o) (LivePoll.options p) ->
  Forall (fun o => 0 <= LivePoll.voteCount o) (LivePoll.options p').
Proof.
  unfold add_votes. induction idxs as [|i r IH]; simpl; intros p p' H Hp.
  - now injection H as <-.
  - destruct (add_vote user now_ p i) as [q|] eqn:E.
    + eapply IH; [exact H | eapply add_vote_nonneg; eassumption].
    + rewrite add_votes_None in H. discriminate.
Qed.

Lemma handle_poll_counts env r s :
  Forall poll_counts_ok (polls s) -> Forall poll_counts_ok (polls (store (handle env r s))).
Proof.
  intros H. destruct (handle_polls env r s) as [E | p Hins Hs Ht | user now_ idxs p p' Hf Ha E].
  - rewrite E. exact H.
  - eapply insertOne_Forall; [exact Hins | | exact H]. split.
    + unfold poll_sum_ok. rewrite Ht. now apply sum_voteCount_zero.
    + eapply List.Forall_impl; [|exact Hs]. simpl. intros o Ho. lia.
  - rewrite E. apply replaceOne_Forall; [|exact H].
    apply findById_Some in Hf as [Hin _].
    destruct (proj1 (List.Forall_forall _ _) H _ Hin) as [Hsum Hnn].
    split; [eapply add_votes_sum | eapply add_votes_nonneg]; eassumption.
Qed.

Lemma run_poll_counts h : forall s,
  Forall poll_counts_ok (polls s) -> Forall poll_counts_ok (polls (run h s)).
Proof.
  induction h as [|[env r] h IH]; intros s H; simpl; [exact H|].
  apply IH. apply handle_poll_counts. exact H.
Qed.


(** ** Q&A: the upvote toggle *)

Lemma includes_In user ids : includes user ids = true <-> In user ids.
Proof.
  unfold includes. rewrite existsb_exists. split.
  - intros (x & Hin & Heq). apply String.eqb_eq in Heq. now subst.
  - intros Hin. exists user. split; [exact Hin | apply String.eqb_refl].
Qed.

Lemma includes_not_In user ids : includes user ids = false <-> ~ In user ids.
Proof.
  rewrite <- includes_In. destruct (includes user ids); split; congruence.
Qed.

Lemma In_without user ids u : In u (without user ids) <-> In u ids /\ u <> user.
Proof.
  unfold without. rewrite List.filter_In, negb_true_iff, String.eqb_neq. tauto.
Qed.

Lemma without_absent user ids : ~ In user ids -> without user ids = ids.
Proof.
  unfold without. induction ids as [|x r IH]; simpl; intros H; [reflexivity|].
  destruct (String.eqb_spec x user) as [->|Hne]; simpl.
  - exfalso. apply H. now left.
  - f_equal. apply IH. intros Hin. apply H. now right.
Qed.

Lemma without_app_self user ids : ~ In user ids -> without user (ids ++ [user]) = ids.
Proof.
  intros H. unfold without. rewrite List.filter_app. simpl.
  rewrite String.eqb_refl. simpl. rewrite app_nil_r. now apply without_absent.
Qed.

Lemma without_NoDup user ids : List.NoDup ids -> List.NoDup (without user ids).
Proof. apply List.NoDup_filter. Qed.

Lemma length_without user ids :
  List.NoDup ids -> In user ids ->
  Z.of_nat (List.length (without user ids)) = Z.of_nat (List.length ids) - 1.
Proof.
  unfold without. induction 1 as [|x r Hx Hr IH]; simpl; intros Hin; [contradiction|].
  destruct (String.eqb_spec x user) as [->|Hne]; simpl.
  - fold (without user r). rewrite without_absent by assumption. lia.
  - destruct Hin as [->|Hin]; [congruence|]. specialize (IH Hin). lia.
Qed.

Lemma toggle_upvote_ok user q : qa_ok q -> qa_ok (toggle_upvote user q).
Proof.
  unfold qa_ok, upvotes_counted, toggle_upvote. intros [Hnd Hc].
  destruct (includes user (LiveQA.upvotes q)) eqn:E; simpl.
  - apply includes_In in E. split; [now apply without_NoDup|].
    rewrite length_without by assumption. lia.
  - apply includes_not_In in E. split.
    + apply List.NoDup_app; [assumption | repeat constructor; simpl; tauto |].
      intros x Hx [<-|[]]. contradiction.
    + rewrite length_app. simpl. lia.
Qed.

Lemma toggle_upvote_id user q : LiveQA._id (toggle_upvote user q) = LiveQA._id q.
Proof. unfold toggle_upvote. now destruct (includes _ _). Qed.

(** Two upvotes in a row by one user: the same set of users, the same
    count, every other field untouched. *)
Lemma toggle_upvote_twice user q :
  let q2 := toggle_upvote user (toggle_upvote user q) in
  same_users (LiveQA.upvotes q2) (LiveQA.upvotes q)
  /\ LiveQA.upvoteCount q2 = LiveQA.upvoteCount q
  /\ q2 = LiveQA.set_upvotes (LiveQA.upvotes q2) (LiveQA.upvoteCount q) q.
Proof.
  unfold toggle_upvote at 2.
  destruct (includes user (LiveQA.upvotes q)) eqn:E.
  - apply includes_In in E. unfold toggle_upvote. simpl.
    assert (includes user (without user (LiveQA.upvotes q)) = false) as ->.
    { apply includes_not_In. rewrite In_without. tauto. }
    simpl. repeat split; try (f_equal; lia).
    + rewrite in_app_iff, In_without. simpl. intros [[H _]|[<-|[]]]; assumption.
    + intros Hu. rewrite in_app_iff, In_without. simpl.
      destruct (String.eqb_spec u user) as [->|Hne]; [right; now left | left; tauto].
    + unfold LiveQA.set_upvotes. simpl. f_equal. lia.
  - apply includes_not_In in E. unfold toggle_upvote. simpl.
    assert (includes user (LiveQA.upvotes q ++ [user]) = true) as ->.
    { apply includes_In, in_app_iff. right. now left. }
    simpl. rewrite without_app_self by assumption.
    repeat split; try tauto; try lia.
    unfold LiveQA.set_upvotes. simpl. f_equal. lia.
Qed.

Lemma ask_question_questions env user eventId question s :
  questions_change s (questions (store (ask_question env user eventId question s))).
Proof.
  unfold ask_question, reject, respond.
  repeat case_match; simpl; try (now apply questions_same).
  all: eapply questions_asked; [eassumption | reflexivity | reflexivity].
Qed.

Lemma upvote_question_questions env user eventId questionId s :
  questions_change s (questions (store (upvote_question env user eventId questionId s))).
Proof.
  unfold upvote_question, reject, respond.
  destruct (findById _ _ _) as [q|] eqn:F; simpl; [|now apply questions_same].
  eapply questions_upvoted; [|reflexivity]. eapply findById_Some; eassumption.
Qed.

Lemma answer_question_questions env user eventId questionId answer s :
  questions_change s
    (questions (store (answer_question env user eventId questionId answer s))).
Proof.
  unfold answer_question, reject, respond.
  repeat case_match; simpl; try (now apply questions_same).
  all: eapply questions_answered; [|reflexivity].
  all: eapply findById_Some; eassumption.
Qed.

Lemma handle_questions env r s : questions_change s (questions (store (handle env r s))).
Proof.
  destruct r; simpl;
    try apply ask_question_questions; try apply upvote_question_questions;
    try apply answer_question_questions;
    try (apply questions_same; apply metrics_tick_frame);
    apply questions_same; crush_handler.
Qed.

Lemma handle_qa_ok env r s :
  Forall qa_ok (questions s) -> Forall qa_ok (questions (store (handle env r s))).
Proof.
  intros H.
  destruct (handle_questions env r s) as [E | q Hins Hu Hc | user q Hin E | a st q Hin E].
  - rewrite E. exact H.
  - eapply insertOne_Forall; [exact Hins | | exact H].
    unfold qa_ok, upvotes_counted. rewrite Hu, Hc. split; [constructor | reflexivity].
  - rewrite E. apply replaceOne_Forall; [|exact H].
    apply toggle_upvote_ok. exact (proj1 (List.Forall_forall _ _) H _ Hin).
  - rewrite E. apply replaceOne_Forall; [|exact H].
    exact (proj1 (List.Forall_forall _ _) H _ Hin).
Qed.

Lemma run_qa_ok h : forall s,
  Forall qa_ok (questions s) -> Forall qa_ok (questions (run h s)).
Proof.
  induction h as [|[env r] h IH]; intros s H; simpl; [exact H|].
  apply IH. apply handle_qa_ok. exact H.
Qed.

(** The upvote route on a question that exists: the toggled question is
    saved, and [qa_upvote] carries its count. *)
Lemma upvote_question_found env user eventId questionId s q :
  findById LiveQA._id questionId (questions s) = Some q ->
  let o := upvote_question env user eventId questionId s in
  findById LiveQA._id questionId (questions (store o)) = Some (toggle_upvote user q)
  /\ emits o =
     emit_room env eventId
       (qa_upvote questionId (LiveQA.upvoteCount (toggle_upvote user q))
          (negb (includes user (LiveQA.upvotes q))))
  /\ (code <$> reply o) = Some 200.
Proof.
  intros Hf. unfold upvote_question. rewrite Hf. simpl.
  repeat split.
  pose proof (findById_Some _ _ _ _ Hf) as [_ Hid].
  rewrite <- Hid at 1. rewrite <- (toggle_upvote_id user q).
  eapply findById_replaceOne_same. rewrite toggle_upvote_id, Hid. exact Hf.
Qed.

(** C4. For every Q&A question, [upvoteCount == len(upvotes)] after any
    history of requests; two upvotes in a row by one user leave the
    question with the set of upvoters and the [upvoteCount] it had (and every
    other field), whatever the question's state; one upvote by a user who is
    not among the upvoters adds the user and increments the count by one. *)
Theorem qa_upvote_toggle :
  (forall (evs : list Event.t) (h : list (Env * Request)),
      Forall upvotes_counted (questions (run h (init_store evs))))
  /\ (forall env1 env2 user eventId questionId s q,
        findById LiveQA._id questionId (questions s) = Some q ->
        let s1 := store (upvote_question env1 user eventId questionId s) in
        let s2 := store (upvote_question env2 user eventId questionId s1) in
        exists q2,
          findById LiveQA._id questionId (questions s2) = Some q2
          /\ same_users (LiveQA.upvotes q2) (LiveQA.upvotes q)
          /\ LiveQA.upvoteCount q2 = LiveQA.upvoteCount q
          /\ q2 = LiveQA.set_upvotes (LiveQA.upvotes q2) (LiveQA.upvoteCount q) q)
  /\ (forall env user eventId questionId s q,
        findById LiveQA._id questionId (questions s) = Some q ->
        ~ In user (LiveQA.upvotes q) ->
        let s1 := store (upvote_question env user eventId questionId s) in
        exists q1,
          findById LiveQA._id questionId (questions s1) = Some q1
          /\ LiveQA.upvotes q1 = LiveQA.upvotes q ++ [user]
          /\ LiveQA.upvoteCount q1 = LiveQA.upvoteCount q + 1).
Proof.
  split; [|split].
  - intros evs h.
    assert (Forall qa_ok (questions (run h (init_store evs)))) as H
      by (apply run_qa_ok; constructor).
    eapply List.Forall_impl; [|exact H]. now intros q [_ Hq].
  - intros env1 env2 user eventId questionId s q Hf s1 s2.
    destruct (upvote_question_found env1 user eventId questionId s q Hf) as (H1 & _ & _).
    destruct (upvote_question_found env2 user eventId questionId _ _ H1) as (H2 & _ & _).
    exists (toggle_upvote user (toggle_upvote user q)).
    split; [exact H2 | apply toggle_upvote_twice].
  - intros env user eventId questionId s q Hf Hnot s1.
    destruct (upvote_question_found env user eventId questionId s q Hf) as (H1 & _ & _).
    exists (toggle_upvote user q). split; [exact H1|].
    unfold toggle_upvote. apply includes_not_In in Hnot. rewrite Hnot. simpl. tauto.
Qed.

Lemma qa_upvote_toggle_witness :
  let s :=
    with_questions
      [LiveQA.mk "q1" "le1" "When is lunch?" "u1" ["u7"] 1 None LiveQA.pending false 10]
      (init_store []) in
  let q := LiveQA.mk "q1" "le1" "When is lunch?" "u1" ["u7"] 1 None LiveQA.pending false 10 in
  let s1 := store (upvote_question (mkEnv 20 "x" true) "u2" "e1" "q1" s) in
  let s2 := store (upvote_question (mkEnv 30 "y" true) "u2" "e1" "q1" s1) in
  (exists q2,
      findById LiveQA._id "q1" (questions s2) = Some q2
      /\ same_users (LiveQA.upvotes q2) (LiveQA.upvotes q)
      /\ LiveQA.upvoteCount q2 = LiveQA.upvoteCount q
      /\ q2 = LiveQA.set_upvotes (LiveQA.upvotes q2) (LiveQA.upvoteCount q) q)
  /\ (exists q1,
      findById LiveQA._id "q1" (questions s1) = Some q1
      /\ LiveQA.upvotes q1 = LiveQA.upvotes q ++ ["u2"]
      /\ LiveQA.upvoteCount q1 = LiveQA.upvoteCount q + 1).
Proof.
  split.
  - apply (proj1 (proj2 qa_upvote_toggle)). reflexivity.
  - apply (proj2 (proj2 qa_upvote_toggle)); [reflexivity|].
    simpl. intros [H|[]]. discriminate H.
Defined.

(** The scenario of the specification: no upvote, U2 upvotes (1), U2 upvotes
    again (0), U3 upvotes (1). *)
Example upvote_scenario :
  let s0 :=
    with_questions
      [LiveQA.mk "q1" "le1" "When is lunch?" "u1" [] 0 None LiveQA.pending false 10]
      (init_store []) in
  let counts s := map (fun q => (LiveQA.upvotes q, LiveQA.upvoteCount q)) (questions s) in
  let s1 := store (upvote_question (mkEnv 20 "x" true) "u2" "e1" "q1" s0) in
  let s2 := store (upvote_question (mkEnv 30 "x" true) "u2" "e1" "q1" s1) in
  let s3 := store (upvote_question (mkEnv 40 "x" true) "u3" "e1" "q1" s2) in
  counts s1 = [(["u2"], 1)] /\ counts s2 = [([], 0)] /\ counts s3 = [(["u3"], 1)].
Proof. vm_compute. repeat split. Qed.

(** ** Icebreakers: one response per user *)

Lemma create_icebreaker_icebreakers env user eventId question s :
  icebreakers_change s (icebreakers (store (create_icebreaker env user eventId question s))).
Proof.
  unfold create_icebreaker, reject, respond.
  repeat case_match; simpl; try (now apply icebreakers_same).
  all: eapply icebreakers_created; [eassumption | reflexivity | reflexivity].
Qed.

Lemma respond_icebreaker_icebreakers env user eventId icebreakerId response s :
  icebreakers_change s
    (icebreakers (store (respond_icebreaker env user eventId icebreakerId response s))).
Proof.
  unfold respond_icebreaker, reject, respond.
  repeat case_match; simpl; try (now apply icebreakers_same).
  all: eapply icebreakers_responded;
    [eapply findById_Some; eassumption | | | reflexivity]; reflexivity.
Qed.

Lemma handle_icebreakers env r s :
  icebreakers_change s (icebreakers (store (handle env r s))).
Proof.
  destruct r; simpl;
    try apply create_icebreaker_icebreakers; try apply respond_icebreaker_icebreakers;
    try (apply icebreakers_same; apply metrics_tick_frame);
    apply icebreakers_same; crush_handler.
Qed.

Lemma handle_responses_counted env r s :
  Forall responses_counted (icebreakers s) ->
  Forall responses_counted (icebreakers (store (handle env r s))).
Proof.
  intros H.
  destruct (handle_icebreakers env r s) as [E | i Hins Hr Hc | x i i' Hin Hr Hc E].
  - rewrite E. exact H.
  - eapply insertOne_Forall; [exact Hins | | exact H].
    unfold responses_counted. now rewrite Hr, Hc.
  - rewrite E. apply replaceOne_Forall; [|exact H].
    pose proof (proj1 (List.Forall_forall _ _) H _ Hin) as Hi.
    unfold responses_counted in *. rewrite Hr, Hc, Hi, length_app. simpl. lia.
Qed.

Lemma run_responses_counted h : forall s,
  Forall responses_counted (icebreakers s) ->
  Forall responses_counted (icebreakers (run h s)).
Proof.
  induction h as [|[env r] h IH]; intros s H; simpl; [exact H|].
  apply IH. apply handle_responses_counted. exact H.
Qed.

Lemma find_responder user rs :
  In user (map Icebreaker.userId rs) ->
  exists r, find (fun r => String.eqb (Icebreaker.userId r) user) rs = Some r.
Proof.
  induction rs as [|x r IH]; simpl; [contradiction|].
  intros [Hx|Hin].
  - exists x. now rewrite Hx, String.eqb_refl.
  - destruct (String.eqb (Icebreaker.userId x) user); eauto.
Qed.

(** C7. For every icebreaker, [responseCount == len(responses)] after any
    history of requests; a respond attempt by a user who already has a
    response on the icebreaker is rejected (400: the response text is
    required, or the user has already responded) and leaves the store, so
    the responses and [responseCount], as they were, with nothing emitted; with
    a response text that is not blank the rejection is "You have already
    responded to this question". *)
Theorem icebreaker_one_response_per_user :
  (forall (evs : list Event.t) (h : list (Env * Request)),
      Forall responses_counted (icebreakers (run h (init_store evs))))
  /\ (forall env user eventId icebreakerId response s i,
        findById Icebreaker._id icebreakerId (icebreakers s) = Some i ->
        has_responded user i ->
        let o := respond_icebreaker env user eventId icebreakerId response s in
        store o = s /\ emits o = []
        /\ (code <$> reply o) = Some 400 /\ (success <$> reply o) = Some false
        /\ (blank response = false ->
            (message <$> reply o) = Some "You have already responded to this question")).
Proof.
  split.
  - intros evs h. apply run_responses_counted. constructor.
  - intros env user eventId icebreakerId response s i Hf Hr.
    destruct (find_responder _ _ Hr) as [r Hfind].
    unfold respond_icebreaker.
    destruct response as [t|]; [|repeat split; discriminate].
    destruct (blank (Some t)) eqn:B; [repeat split; discriminate|].
    rewrite Hf, Hfind. repeat split.
Qed.

Lemma icebreaker_one_response_per_user_witness :
  let i :=
    Icebreaker.mk "i1" "le1" "Coffee or tea?" true
      [Icebreaker.mkResponse "r1" "u1" "tea" 15 []] 1 10 in
  let s := with_icebreakers [i] (init_store []) in
  let o := respond_icebreaker (mkEnv 20 "r2" true) "u1" "e1" "i1" (Some "coffee") s in
  store o = s /\ emits o = []
  /\ (code <$> reply o) = Some 400 /\ (success <$> reply o) = Some false
  /\ (blank (Some "coffee") = false ->
      (message <$> reply o) = Some "You have already responded to this question").
Proof.
  apply (proj2 icebreaker_one_response_per_user
           (mkEnv 20 "r2" true) "u1" "e1" "i1" (Some "coffee") _
           (Icebreaker.mk "i1" "le1" "Coffee or tea?" true
              [Icebreaker.mkResponse "r1" "u1" "tea" 15 []] 1 10)).
  - reflexivity.
  - simpl. now left.
Defined.

(** A first response is taken, the second one of the same user is not. *)
Example respond_twice :
  let h :=
    [ (mkEnv 1000 "le1" true, StartLiveEvent "org" "e1" None);
      (mkEnv 2000 "i1" true, CreateIcebreaker "org" "e1" (Some " Coffee or tea? "));
      (mkEnv 3000 "r1" true, RespondIcebreaker "u1" "e1" "i1" (Some "tea")) ] in
  let s := run h (init_store [Event.mk "e1" "org"]) in
  map (fun i => (Icebreaker.question i, map Icebreaker.userId (Icebreaker.responses i),
                 Icebreaker.responseCount i)) (icebreakers s)
  = [("Coffee or tea?", ["u1"], 1)]
  /\ handle (mkEnv 4000 "r2" true) (RespondIcebreaker "u1" "e1" "i1" (Some "coffee")) s
     = reject s 400 "You have already responded to this question".
Proof. vm_compute. split; reflexivity. Qed.

(** ** Polls: a second vote *)

Lemma hasVoted_has_vote user p : hasVoted user p = true <-> has_vote user p.
Proof.
  unfold hasVoted, has_vote, voters. rewrite existsb_exists.
  split; intros (o & Ho & H); exists o; (split; [exact Ho|]).
  - apply existsb_exists in H as (v & Hv & E). apply in_map_iff. exists v.
    destruct (LivePoll.userId v) as [id|]; [|discriminate].
    apply String.eqb_eq in E. now subst.
  - apply in_map_iff in H as (v & E & Hv). apply existsb_exists. exists v.
    rewrite E. split; [exact Hv | apply String.eqb_refl].
Qed.

(** A vote by a user who is present in some option's votes is rejected and
    changes nothing; on an open poll, with a non-empty [optionIndexes], the
    rejection is "You have already voted in this poll". *)
Lemma vote_poll_second_vote env user eventId pollId optionIndexes s p :
  findById LivePoll._id pollId (polls s) = Some p ->
  has_vote user p ->
  let o := vote_poll env user eventId pollId optionIndexes s in
  store o = s /\ emits o = []
  /\ (code <$> reply o) = Some 400 /\ (success <$> reply o) = Some false
  /\ (forall idxs, optionIndexes = Some idxs -> idxs <> [] ->
      LivePoll.isActive p = true ->
      (forall e, LivePoll.expiresAt p = Some e -> now env <= e) ->
      (message <$> reply o) = Some "You have already voted in this poll").
Proof.
  intros Hf Hv. apply hasVoted_has_vote in Hv. unfold vote_poll.
  destruct optionIndexes as [idxs|]; [|repeat split; discriminate].
  destruct idxs as [|i idxs]; [repeat split; intros ? [= <-]; congruence|].
  change (Z.of_nat (List.length (i :: idxs)) =? 0) with false. cbv iota.
  rewrite Hf.
  destruct (negb (LivePoll.isActive p) || _) eqn:A.
  - repeat split. intros ? _ _ Hact Hexp. exfalso.
    rewrite Hact in A. simpl in A.
    destruct (LivePoll.expiresAt p) as [e|]; [|discriminate].
    specialize (Hexp e eq_refl). lia.
  - rewrite Hv. repeat split.
Qed.

(** The scenario of the specification: U1 votes A, the broadcast shows
    A: 1 (100%), B: 0 (0%), total 1; U1 votes B and is turned away. *)
Example vote_scenario :
  let h :=
    [ (mkEnv 1000 "le1" true, StartLiveEvent "org" "e1" None);
      (mkEnv 2000 "p1" true,
       CreatePoll "org" "e1" (Some "Best talk?") (Some ["A"; "B"]) (Some false) None) ] in
  let s := run h (init_store [Event.mk "e1" "org"]) in
  let o := handle (mkEnv 3000 "x1" true) (VotePoll "u1" "e1" "p1" (Some [0])) s in
  emits o =
    [mkEmit (room "e1")
       (poll_vote "p1" [mkPollResult "A" 1 (Some 100); mkPollResult "B" 0 (Some 0)] 1)]
  /\ handle (mkEnv 4000 "x2" true) (VotePoll "u1" "e1" "p1" (Some [1])) (store o)
     = reject (store o) 400 "You have already voted in this poll".
Proof. vm_compute. split; reflexivity. Qed.

(** C1. On a poll with [allowMultiple = false], one accepted vote with the
    option indexes [0; 1] records the voter in the votes of both options,
    and one with the indexes [0; 0] records the voter twice in one
    option: the vote route never reads [allowMultiple] and does not compare
    the indexes of a request with one another. *)
Theorem single_choice_poll_records_voter_twice :
  let h :=
    [ (mkEnv 1000 "le1" true, StartLiveEvent "org" "e1" None);
      (mkEnv 2000 "p1" true,
       CreatePoll "org" "e1" (Some "Best talk?") (Some ["A"; "B"]) (Some false) None) ] in
  let s := run h (init_store [Event.mk "e1" "org"]) in
  let view o :=
    (code <$> reply o,
     map (fun p => (LivePoll.allowMultiple p, map voters (LivePoll.options p),
                    map LivePoll.voteCount (LivePoll.options p), LivePoll.totalVotes p))
         (polls (store o))) in
  view (handle (mkEnv 3000 "x1" true) (VotePoll "u1" "e1" "p1" (Some [0; 1])) s)
  = (Some 200, [(false, [[Some "u1"]; [Some "u1"]], [1; 1], 2)])
  /\ view (handle (mkEnv 3000 "x1" true) (VotePoll "u1" "e1" "p1" (Some [0; 0])) s)
     = (Some 200, [(false, [[Some "u1"; Some "u1"]; []], [2; 0], 2)]).
Proof. vm_compute. split; reflexivity. Qed.

(** ** The lifecycle of a live event *)

(** Saving a changed copy of the first document that passes a test keeps it
    the first one that passes, if the copy passes it. *)
Lemma find_replaceOne {D} (id_of : D -> ObjectId) (P : D -> bool) d d' c :
  find P c = Some d -> id_of d' = id_of d -> P d' = true ->
  find P (replaceOne id_of d' c) = Some d'.
Proof.
  intros Hf Hid Hp. induction c as [|x r IH]; simpl in *; [discriminate|].
  destruct (P x) eqn:Px.
  - injection Hf as ->. rewrite Hid, String.eqb_refl. simpl. now rewrite Hp.
  - destruct (String.eqb (id_of x) (id_of d')); simpl.
    + now rewrite Hp.
    + rewrite Px. auto.
Qed.

Lemma find_app_new {D} (P : D -> bool) d c :
  find P c = None -> P d = true -> find P (c ++ [d]) = Some d.
Proof.
  intros Hf Hp. induction c as [|x r IH]; simpl in *; [now rewrite Hp|].
  destruct (P x); [discriminate | auto].
Qed.

(** Start on an event that is live: turned away, nothing changes. *)
Lemma start_already_live env user eventId liveSettings s liveEvent :
  findLiveEvent eventId s = Some liveEvent ->
  LiveEvent.status liveEvent = LiveEvent.live ->
  let o := start_live_event env user eventId liveSettings s in
  store o = s /\ emits o = [] /\ (success <$> reply o) = Some false
  /\ (is_organizer user eventId s = true ->
      o = reject s 400 "Event is already live").
Proof.
  intros Hf Hs. unfold start_live_event. rewrite Hf, Hs.
  destruct (is_organizer user eventId s); simpl; repeat split; discriminate.
Qed.

(** Start by the organizer on an event that is not live (scheduled, ended,
    or without a LiveEvent yet): the LiveEvent of the event is live, started
    now, and [event_started] goes to the room. *)
Lemma start_not_live env user eventId liveSettings s :
  is_organizer user eventId s = true ->
  match findLiveEvent eventId s with
  | Some liveEvent => LiveEvent.status liveEvent <> LiveEvent.live
  | None => findById LiveEvent._id (fresh env) (liveEvents s) = None
  end ->
  let o := start_live_event env user eventId liveSettings s in
  exists liveEvent,
    findLiveEvent eventId (store o) = Some liveEvent
    /\ LiveEvent.status liveEvent = LiveEvent.live
    /\ LiveEvent.startedAt liveEvent = Some (now env)
    /\ emits o =
       emit_room env eventId
         (event_started eventId (LiveEvent._id liveEvent) (Some (now env)))
    /\ (code <$> reply o) = Some 200.
Proof.
  intros Horg H. unfold start_live_event. rewrite Horg. simpl.
  destruct (findLiveEvent eventId s) as [le|] eqn:F.
  - assert (LiveEvent.status_eqb (LiveEvent.status le) LiveEvent.live = false) as ->
      by (destruct (LiveEvent.status le); simpl; congruence).
    assert (String.eqb (LiveEvent.eventId le) eventId = true) as He
      by (unfold findLiveEvent in F; apply find_some in F; tauto).
    unfold findLiveEvent in *.
    destruct liveSettings as [ls|]; simpl;
      (eexists; split;
       [eapply find_replaceOne; [exact F | reflexivity | exact He]
       | repeat split]).
  - unfold insertOne. simpl.
    assert (existsb (fun x => String.eqb (LiveEvent._id x) (fresh env)) (liveEvents s) = false)
      as E.
    { unfold findById in H. destruct (existsb _ _) eqn:E; [|reflexivity].
      apply existsb_exists in E as (x & Hin & Hx).
      pose proof (find_none _ _ H x Hin) as N. simpl in N. congruence. }
    unfold findLiveEvent in *.
    destruct liveSettings as [ls|]; simpl; rewrite E; simpl;
      (eexists; split;
       [apply find_app_new; [exact F | simpl; apply String.eqb_refl]
       | repeat split]).
Qed.

(** Chat for an event none of whose LiveEvents is live: turned away,
    nothing changes. *)
Lemma send_chat_not_live env user eventId message_ messageType s :
  findLive eventId s = None ->
  let o := send_chat env user eventId message_ messageType s in
  store o = s /\ emits o = [] /\ (success <$> reply o) = Some false
  /\ (blank message_ = false ->
      o = reject s 404 "Live event not found or not active").
Proof.
  intros Hf. unfold send_chat.
  destruct message_ as [m|]; [|repeat split; discriminate].
  destruct (blank (Some m)); [repeat split; discriminate|].
  rewrite Hf. repeat split.
Qed.

(** With one LiveEvent per event, an event whose LiveEvent is not live has
    no live LiveEvent. *)
Lemma findLive_not_live eventId s liveEvent :
  List.NoDup (map LiveEvent.eventId (liveEvents s)) ->
  findLiveEvent eventId s = Some liveEvent ->
  LiveEvent.status liveEvent <> LiveEvent.live ->
  findLive eventId s = None.
Proof.
  unfold findLiveEvent, findLive. intros Hnd Hf Hs.
  destruct (find _ (liveEvents s)) as [y|] eqn:Fy in |- *; [exfalso | reflexivity].
  apply find_some in Fy as [Hy Hlive]. apply andb_true_iff in Hlive as [He Hlive].
  apply String.eqb_eq in He.
  assert (y = liveEvent) as ->.
  { apply find_some in Hf as [Hin Hl]. apply String.eqb_eq in Hl.
    revert Hnd Hy Hin. generalize (liveEvents s) as l.
    induction l as [|x r IH]; simpl; [contradiction|].
    intros Hnd Hy Hin. apply List.NoDup_cons_iff in Hnd as [Hx Hr].
    assert (LiveEvent.eventId y = LiveEvent.eventId liveEvent) as Hk by congruence.
    destruct Hy as [Ey|Hy], Hin as [El|Hin]; [congruence | | | auto].
    + exfalso. apply Hx. rewrite Ey, Hk. now apply in_map.
    + exfalso. apply Hx. rewrite El, <- Hk. now apply in_map. }
  destruct (LiveEvent.status liveEvent); simpl in *; congruence.
Qed.

(** Votes, upvotes, likes and icebreaker responses do not look at the
    LiveEvents: with any other collection of LiveEvents in the store they do
    the same. *)
Lemma engagement_ignores_liveEvents env r s c :
  match r with
  | VotePoll _ _ _ _ | UpvoteQuestion _ _ _ | LikePhoto _ _ _
  | RespondIcebreaker _ _ _ _ => True
  | _ => False
  end ->
  let o := handle env r s in
  handle env r (with_liveEvents c s)
  = mkOutcome (with_liveEvents c (store o)) (emits o) (reply o).
Proof.
  destruct r; try contradiction; intros _; simpl.
  - unfold respond_icebreaker, reject, respond. simpl. repeat case_match; reflexivity.
  - unfold vote_poll, reject, respond. simpl. repeat case_match; reflexivity.
  - unfold upvote_question, reject, respond. simpl. repeat case_match; reflexivity.
  - unfold like_photo, reject, respond. simpl. repeat case_match; reflexivity.
Qed.

(** C3 (as amended). Starting an event whose LiveEvent is live fails with
    the state unchanged (400 "Event is already live" for the organizer); a
    start by the organizer on an event that is not live -- scheduled, ended,
    or without a LiveEvent yet -- makes its LiveEvent live, sets [startedAt]
    and sends [event_started] to the room; once the event's LiveEvent is
    ended, chat is turned away with the state unchanged, while vote_poll,
    upvote, like and respond do not look at the LiveEvents at all. *)
Theorem live_event_lifecycle :
  (forall env user eventId liveSettings s liveEvent,
      findLiveEvent eventId s = Some liveEvent ->
      LiveEvent.status liveEvent = LiveEvent.live ->
      let o := start_live_event env user eventId liveSettings s in
      store o = s /\ emits o = [] /\ (success <$> reply o) = Some false
      /\ (is_organizer user eventId s = true ->
          o = reject s 400 "Event is already live"))
  /\ (forall env user eventId liveSettings s,
        is_organizer user eventId s = true ->
        match findLiveEvent eventId s with
        | Some liveEvent => LiveEvent.status liveEvent <> LiveEvent.live
        | None => findById LiveEvent._id (fresh env) (liveEvents s) = None
        end ->
        let o := start_live_event env user eventId liveSettings s in
        exists liveEvent,
          findLiveEvent eventId (store o) = Some liveEvent
          /\ LiveEvent.status liveEvent = LiveEvent.live
          /\ LiveEvent.startedAt liveEvent = Some (now env)
          /\ emits o =
             emit_room env eventId
               (event_started eventId (LiveEvent._id liveEvent) (Some (now env)))
          /\ (code <$> reply o) = Some 200)
  /\ (forall env user eventId message_ messageType s liveEvent,
        List.NoDup (map LiveEvent.eventId (liveEvents s)) ->
        findLiveEvent eventId s = Some liveEvent ->
        LiveEvent.status liveEvent = LiveEvent.ended ->
        let o := send_chat env user eventId message_ messageType s in
        store o = s /\ emits o = [] /\ (success <$> reply o) = Some false
        /\ (blank message_ = false ->
            o = reject s 404 "Live event not found or not active"))
  /\ (forall env r s c,
        match r with
        | VotePoll _ _ _ _ | UpvoteQuestion _ _ _ | LikePhoto _ _ _
        | RespondIcebreaker _ _ _ _ => True
        | _ => False
        end ->
        let o := handle env r s in
        handle env r (with_liveEvents c s)
        = mkOutcome (with_liveEvents c (store o)) (emits o) (reply o)).
Proof.
  split; [|split; [|split]].
  - apply start_already_live.
  - apply start_not_live.
  - intros env user eventId message_ messageType s liveEvent Hnd Hf Hs.
    apply send_chat_not_live. eapply findLive_not_live; [exact Hnd | exact Hf |].
    rewrite Hs. discriminate.
  - apply engagement_ignores_liveEvents.
Qed.

Lemma live_event_lifecycle_witness :
  let evs := [Event.mk "e1" "org"] in
  let live_ := run [(mkEnv 1000 "le1" true, StartLiveEvent "org" "e1" None)] (init_store evs) in
  let ended_ := run [(mkEnv 5000 "x" true, EndLiveEvent "org" "e1")] live_ in
  (let o := start_live_event (mkEnv 2000 "le2" true) "org" "e1" None live_ in
   store o = live_ /\ emits o = [] /\ (success <$> reply o) = Some false
   /\ (is_organizer "org" "e1" live_ = true -> o = reject live_ 400 "Event is already live"))
  /\ (let o := start_live_event (mkEnv 6000 "le2" true) "org" "e1" None ended_ in
      exists liveEvent,
        findLiveEvent "e1" (store o) = Some liveEvent
        /\ LiveEvent.status liveEvent = LiveEvent.live
        /\ LiveEvent.startedAt liveEvent = Some 6000
        /\ emits o =
           emit_room (mkEnv 6000 "le2" true) "e1"
             (event_started "e1" (LiveEvent._id liveEvent) (Some 6000))
        /\ (code <$> reply o) = Some 200)
  /\ (let o := send_chat (mkEnv 6000 "c1" true) "u1" "e1" (Some "hello") None ended_ in
      store o = ended_ /\ emits o = [] /\ (success <$> reply o) = Some false
      /\ (blank (Some "hello") = false ->
          o = reject ended_ 404 "Live event not found or not active")).
Proof.
  split; [|split].
  - apply (proj1 live_event_lifecycle (mkEnv 2000 "le2" true) "org" "e1" None _
             (LiveEvent.mk "le1" "e1" LiveEvent.live LiveEvent.default_settings
                LiveEvent.default_metrics (Some 1000) None));
      reflexivity.
  - apply (proj1 (proj2 live_event_lifecycle) (mkEnv 6000 "le2" true) "org" "e1" None).
    + reflexivity.
    + vm_compute. discriminate.
  - apply (proj1 (proj2 (proj2 live_event_lifecycle)) (mkEnv 6000 "c1" true) "u1" "e1"
             (Some "hello") None _
             (LiveEvent.mk "le1" "e1" LiveEvent.ended LiveEvent.default_settings
                LiveEvent.default_metrics (Some 1000) (Some 5000))).
    + vm_compute. repeat constructor. simpl. tauto.
    + reflexivity.
    + reflexivity.
Defined.

(** C3 (as stated) fails: on an event that has ended, a vote on one of its
    polls is accepted, and so is a start, which makes the event live again. *)
Lemma ended_event_takes_votes_and_restarts :
  let h :=
    [ (mkEnv 1000 "le1" true, StartLiveEvent "org" "e1" None);
      (mkEnv 2000 "p1" true,
       CreatePoll "org" "e1" (Some "Best talk?") (Some ["A"; "B"]) None None);
      (mkEnv 5000 "x" true, EndLiveEvent "org" "e1") ] in
  let s := run h (init_store [Event.mk "e1" "org"]) in
  let vote := handle (mkEnv 6000 "x" true) (VotePoll "u1" "e1" "p1" (Some [0])) s in
  let start := handle (mkEnv 7000 "y" true) (StartLiveEvent "org" "e1" None) s in
  (LiveEvent.status <$> findLiveEvent "e1" s) = Some LiveEvent.ended
  /\ (success <$> reply vote) = Some true
  /\ map LivePoll.totalVotes (polls (store vote)) = [1]
  /\ (success <$> reply start) = Some true
  /\ (LiveEvent.status <$> findLiveEvent "e1" (store start)) = Some LiveEvent.live
  /\ emits start = [mkEmit (room "e1") (event_started "e1" "le1" (Some 7000))].
Proof. vm_compute. repeat split; reflexivity. Qed.

(** ** Photos: the moderation gate *)







(** ** The feature toggles are not read *)

Lemma findLive_agree eventId s1 s2 :
  toggles_apart s1 s2 ->
  match findLive eventId s1, findLive eventId s2 with
  | Some a, Some b => liveEvent_agree a b
  | None, None => True
  | _, _ => False
  end.
Proof.
  intros [H _]. unfold findLive.
  induction H as [|a b l1 l2 Hab Hl IH]; simpl; [exact I|].
  pose proof Hab as (_ & He & Hs & _). rewrite He, Hs.
  destruct (_ && _); [exact Hab | exact IH].
Qed.

Lemma toggles_apart_with (f : Store -> Store) s1 s2 :
  toggles_apart s1 s2 ->
  liveEvents (f s1) = liveEvents s1 -> liveEvents (f s2) = liveEvents s2 ->
  events (f s1) = events (f s2) -> icebreakers (f s1) = icebreakers (f s2) ->
  polls (f s1) = polls (f s2) -> questions (f s1) = questions (f s2) ->
  photos (f s1) = photos (f s2) -> chats (f s1) = chats (f s2) ->
  rooms (f s1) = rooms (f s2) -> socket_eventId (f s1) = socket_eventId (f s2) ->
  toggles_apart (f s1) (f s2).
Proof.
  intros [H _] E1 E2. unfold toggles_apart. rewrite E1, E2. tauto.
Qed.

(** Both runs take the same branches: the tests of a handler read the
    LiveEvents through [findLive] only, and of the LiveEvent found its
    [_id] and [moderationRequired]. *)
Ltac same_run :=
  match goal with
  | H : toggles_apart ?s1 ?s2 |- _ =>
      let L := fresh "L" in
      let Lid := fresh "Lid" in
      let Lmod := fresh "Lmod" in
      try (match goal with
           | |- context [findLive ?e s1] =>
               pose proof (findLive_agree e s1 s2 H) as L;
               destruct (findLive e s1) as [?a|], (findLive e s2) as [?b|];
               try contradiction;
               try (destruct L as (Lid & _ & _ & Lmod & _); rewrite ?Lid, ?Lmod)
           end);
      pose proof H as (? & ? & ? & ? & ? & ? & ? & ? & ?);
      destruct s1, s2; simpl in *; subst;
      repeat case_match; simpl;
      repeat split; try reflexivity; try assumption
  end.

Lemma interaction_same_run env r s1 s2 :
  is_interaction r -> toggles_apart s1 s2 ->
  let o1 := handle env r s1 in
  let o2 := handle env r s2 in
  reply o1 = reply o2 /\ emits o1 = emits o2 /\ toggles_apart (store o1) (store o2).
Proof.
  destruct r; try contradiction; intros _ H; simpl.
  - unfold create_icebreaker, reject, respond. same_run.
  - unfold respond_icebreaker, reject, respond. same_run.
  - unfold create_poll, reject, respond. same_run.
  - unfold vote_poll, reject, respond. same_run.
  - unfold ask_question, reject, respond. same_run.
  - unfold upvote_question, reject, respond. same_run.
  - unfold answer_question, is_organizer, reject, respond. same_run.
  - unfold share_photo, reject, respond. same_run.
  - unfold like_photo, reject, respond. same_run.
  - unfold send_chat, reject, respond. same_run.
Qed.

Lemma interaction_keeps_liveEvents env r s :
  is_interaction r -> liveEvents (store (handle env r s)) = liveEvents s.
Proof. destruct r; try contradiction; intros _; simpl; crush_handler. Qed.

(** C10. The settings [enableChat], [enablePolls], [enableQA] and
    [enablePhotoSharing] are read by no interaction operation: for every
    create/vote poll, ask/upvote/answer, create/respond icebreaker,
    share/like photo and send chat, two runs from stores that differ only in
    those four flags give the same reply and the same emits, leave the
    LiveEvents as they were and the rest of the two stores equal again;
    [moderationRequired] is read: two stores that differ in it alone give
    different emits for a photo share. *)
Theorem feature_toggles_never_read :
  (forall env r s1 s2,
      is_interaction r -> toggles_apart s1 s2 ->
      let o1 := handle env r s1 in
      let o2 := handle env r s2 in
      reply o1 = reply o2 /\ emits o1 = emits o2
      /\ toggles_apart (store o1) (store o2)
      /\ liveEvents (store o1) = liveEvents s1 /\ liveEvents (store o2) = liveEvents s2)
  /\ (let s moderation :=
        with_liveEvents
          [LiveEvent.mk "le1" "e1" LiveEvent.live
             (LiveEvent.mkSettings true true true true moderation)
             LiveEvent.default_metrics (Some 1000) None]
          (init_store [Event.mk "e1" "org"]) in
      let r := SharePhoto "u1" "e1" (Some "https://img/1.png") None None in
      let env := mkEnv 2000 "ph1" true in
      emits (handle env r (s true)) = []
      /\ emits (handle env r (s false))
         = [mkEmit (room "e1") (new_photo "ph1" "https://img/1.png" "" "u1" 0 2000)]).
Proof.
  split.
  - intros env r s1 s2 Hr H o1 o2.
    destruct (interaction_same_run env r s1 s2 Hr H) as (H1 & H2 & H3).
    split; [exact H1 | split; [exact H2 | split; [exact H3 | ]]].
    split; now apply interaction_keeps_liveEvents.
  - vm_compute. split; reflexivity.
Qed.

Lemma feature_toggles_never_read_witness :
  let s flag :=
    with_liveEvents
      [LiveEvent.mk "le1" "e1" LiveEvent.live
         (LiveEvent.mkSettings flag flag flag flag false)
         LiveEvent.default_metrics (Some 1000) None]
      (init_store [Event.mk "e1" "org"]) in
  let env := mkEnv 2000 "c1" true in
  let r := SendChat "u1" "e1" (Some "hello") None in
  let o1 := handle env r (s false) in
  let o2 := handle env r (s true) in
  reply o1 = reply o2 /\ emits o1 = emits o2
  /\ toggles_apart (store o1) (store o2)
  /\ liveEvents (store o1) = liveEvents (s false)
  /\ liveEvents (store o2) = liveEvents (s true).
Proof.
  apply (proj1 feature_toggles_never_read (mkEnv 2000 "c1" true)
           (SendChat "u1" "e1" (Some "hello") None)).
  - exact I.
  - unfold toggles_apart, liveEvent_agree. simpl.
    repeat split; try reflexivity. repeat constructor.
Defined.

(** Chat goes through with [enableChat] off. *)
Example chat_with_enableChat_off :
  let s :=
    with_liveEvents
      [LiveEvent.mk "le1" "e1" LiveEvent.live
         (LiveEvent.mkSettings false false false false false)
         LiveEvent.default_metrics (Some 1000) None]
      (init_store [Event.mk "e1" "org"]) in
  let o := handle (mkEnv 2000 "c1" true) (SendChat "u1" "e1" (Some " hello ") None) s in
  emits o = [mkEmit (room "e1") (chat_message "c1" "u1" "hello" "text" 2000)]
  /\ (code <$> reply o) = Some 201.
Proof. vm_compute. split; reflexivity. Qed.

(** ** The metrics loop *)

Lemma reconcile_spec activeUsers liveEvent :
  reconcile activeUsers liveEvent =
  if activeUsers =? LiveEvent.activeUsers (LiveEvent.metrics liveEvent) then None
  else
    Some
      (LiveEvent.set_metrics
         (LiveEvent.mkMetrics activeUsers
            (LiveEvent.totalInteractions (LiveEvent.metrics liveEvent))
            (Z.max (LiveEvent.peakAttendance (LiveEvent.metrics liveEvent)) activeUsers)
            (LiveEvent.averageEngagementTime (LiveEvent.metrics liveEvent)))
         liveEvent).
Proof.
  unfold reconcile. destruct (activeUsers =? _); simpl; [reflexivity|].
  unfold LiveEvent.set_peakAttendance, LiveEvent.set_activeUsers. simpl.
  destruct (Z.gtb_spec activeUsers (LiveEvent.peakAttendance (LiveEvent.metrics liveEvent)));
    simpl; do 3 f_equal; lia.
Qed.

Lemma reconcile_keys n liveEvent liveEvent' :
  reconcile n liveEvent = Some liveEvent' ->
  LiveEvent._id liveEvent' = LiveEvent._id liveEvent
  /\ LiveEvent.eventId liveEvent' = LiveEvent.eventId liveEvent.
Proof.
  rewrite reconcile_spec. destruct (n =? _); [discriminate|]. now intros [= <-].
Qed.

Lemma tick_fold_all_emits s l : forall acc,
  emits (fold_left (tick_step s) l acc) = emits acc ++ flat_map (tick_emit s) l.
Proof.
  induction l as [|x l IH]; intros acc; simpl; [now rewrite app_nil_r|].
  rewrite IH. unfold tick_step, tick_emit.
  destruct (reconcile _ x) as [x'|] eqn:R; simpl; [|reflexivity].
  apply reconcile_keys in R as [_ ->]. now rewrite <- app_assoc.
Qed.

Lemma replaceOne_middle {D} (id_of : D -> ObjectId) d x pre suf :
  ~ In (id_of d) (map id_of pre) -> id_of x = id_of d ->
  replaceOne id_of d (pre ++ x :: suf) = pre ++ d :: suf.
Proof.
  intros Hpre Hx. induction pre as [|y pre IH]; simpl in *.
  - now rewrite Hx, String.eqb_refl.
  - destruct (String.eqb_spec (id_of y) (id_of d)) as [E|E]; [tauto|].
    f_equal. apply IH. tauto.
Qed.

Lemma tick_fold_liveEvents s suf : forall pre acc,
  liveEvents (store acc) = pre ++ suf ->
  List.NoDup (map LiveEvent._id (pre ++ suf)) ->
  liveEvents (store (fold_left (tick_step s) (List.filter is_live suf) acc))
  = pre ++ map (reconciled s) suf.
Proof.
  induction suf as [|x suf IH]; intros pre acc Hacc Hnd; simpl.
  - now rewrite app_nil_r in *.
  - assert (Hx : ~ In (LiveEvent._id x) (map LiveEvent._id pre)).
    { rewrite map_app in Hnd. simpl in Hnd. apply List.NoDup_remove_2 in Hnd.
      rewrite in_app_iff in Hnd. tauto. }
    assert (Hstep : forall x',
               LiveEvent._id x' = LiveEvent._id x ->
               List.NoDup (map LiveEvent._id ((pre ++ [x']) ++ suf))).
    { intros x' E. rewrite <- app_assoc. simpl.
      rewrite map_app in *. simpl in *. now rewrite E. }
    unfold reconciled at 1.
    destruct (is_live x) eqn:Lx; simpl.
    + unfold tick_step at 2.
      destruct (reconcile _ x) as [x'|] eqn:R; simpl.
      * pose proof (reconcile_keys _ _ _ R) as [Eid _].
        rewrite (IH (pre ++ [x'])); [now rewrite <- app_assoc | | now apply Hstep].
        simpl. unfold save_liveEvent. simpl. rewrite Hacc, <- app_assoc. simpl.
        apply replaceOne_middle; [now rewrite Eid | now rewrite Eid].
      * rewrite (IH (pre ++ [x])); [now rewrite <- app_assoc | | now apply Hstep].
        now rewrite Hacc, <- app_assoc.
    + rewrite (IH (pre ++ [x])); [now rewrite <- app_assoc | | now apply Hstep].
      now rewrite Hacc, <- app_assoc.
Qed.

(** C2 (as amended). On every run of the metrics loop, for every LiveEvent
    with status live, the loop reads the number of sockets in the event's
    room; when it differs from the stored [activeUsers] it stores it, sets
    [peakAttendance] to the maximum of [peakAttendance] and it, saves the
    LiveEvent and sends [metrics_update] to the room with these two values
    and the stored [totalInteractions]; when it is the stored [activeUsers]
    the LiveEvent is neither saved nor announced.  The loop recomputes no
    [totalInteractions] and touches nothing but the LiveEvents. *)
Theorem metrics_tick_reconciles_activeUsers :
  (forall activeUsers liveEvent,
      reconcile activeUsers liveEvent =
      if activeUsers =? LiveEvent.activeUsers (LiveEvent.metrics liveEvent) then None
      else
        Some
          (LiveEvent.set_metrics
             (LiveEvent.mkMetrics activeUsers
                (LiveEvent.totalInteractions (LiveEvent.metrics liveEvent))
                (Z.max (LiveEvent.peakAttendance (LiveEvent.metrics liveEvent)) activeUsers)
                (LiveEvent.averageEngagementTime (LiveEvent.metrics liveEvent)))
             liveEvent))
  /\ (forall s,
        emits (metrics_tick s)
        = flat_map (tick_emit s) (List.filter is_live (liveEvents s)))
  /\ (forall s,
        List.NoDup (map LiveEvent._id (liveEvents s)) ->
        liveEvents (store (metrics_tick s)) = map (reconciled s) (liveEvents s))
  /\ (forall s, same_but_liveEvents s (store (metrics_tick s))).
Proof.
  split; [|split; [|split]].
  - apply reconcile_spec.
  - intros s. unfold metrics_tick. now rewrite tick_fold_all_emits.
  - intros s Hnd. unfold metrics_tick.
    now rewrite (tick_fold_liveEvents s (liveEvents s) [] (mkOutcome s [] None)).
  - apply metrics_tick_frame.
Qed.

Lemma metrics_tick_reconciles_activeUsers_witness :
  let h :=
    [ (mkEnv 1000 "le1" true, StartLiveEvent "org" "e1" None);
      (mkEnv 2000 "x" true, JoinEvent "s1" (Some "e1"));
      (mkEnv 2500 "x" true, JoinEvent "s2" (Some "e1"));
      (mkEnv 3000 "x" true, Disconnect "s1");
      (mkEnv 3500 "x" true, JoinEvent "s3" (Some "e2")) ] in
  let s := with_rooms [("s2", "e1"); ("s4", "e1"); ("s5", "e1")]
             (run h (init_store [Event.mk "e1" "org"])) in
  liveEvents (store (metrics_tick s)) = map (reconciled s) (liveEvents s).
Proof.
  apply (proj1 (proj2 (proj2 metrics_tick_reconciles_activeUsers))).
  vm_compute. repeat constructor. simpl. tauto.
Defined.

(** The run of the witness: three sockets in the room, one stored; the loop
    stores 3, lifts the peak from 2 to 3 and announces them. *)
Example tick_lifts_the_peak :
  let h :=
    [ (mkEnv 1000 "le1" true, StartLiveEvent "org" "e1" None);
      (mkEnv 2000 "x" true, JoinEvent "s1" (Some "e1"));
      (mkEnv 2500 "x" true, JoinEvent "s2" (Some "e1"));
      (mkEnv 3000 "x" true, Disconnect "s1") ] in
  let s := with_rooms [("s2", "e1"); ("s4", "e1"); ("s5", "e1")]
             (run h (init_store [Event.mk "e1" "org"])) in
  map LiveEvent.metrics (liveEvents s) = [LiveEvent.mkMetrics 1 0 2 0]
  /\ map LiveEvent.metrics (liveEvents (store (metrics_tick s))) = [LiveEvent.mkMetrics 3 0 3 0]
  /\ emits (metrics_tick s) = [mkEmit (room "e1") (metrics_update 3 3 0)].
Proof. vm_compute. repeat split; reflexivity. Qed.

(** C2 (as stated) fails: a live event with one chat message and nobody in
    the room.  Chat, poll votes, questions and photos add up to 1, the
    stored [totalInteractions] is 0; the loop leaves it at 0 and sends
    nothing. *)
Lemma tick_recomputes_no_totalInteractions :
  let h :=
    [ (mkEnv 1000 "le1" true, StartLiveEvent "org" "e1" None);
      (mkEnv 2000 "c1" true, SendChat "u1" "e1" (Some "hello") None) ] in
  let s := run h (init_store [Event.mk "e1" "org"]) in
  let o := metrics_tick s in
  map (fun e => (LiveEvent.status e, interaction_total e s,
                 LiveEvent.totalInteractions (LiveEvent.metrics e))) (liveEvents s)
  = [(LiveEvent.live, 1, 0)]
  /\ map (fun e => LiveEvent.totalInteractions (LiveEvent.metrics e)) (liveEvents (store o))
     = [0]
  /\ store o = s /\ emits o = [].
Proof. vm_compute. repeat split; reflexivity. Qed.

(** ** LiveEvents across a request *)

Lemma grows_refl a : grows a a.
Proof. unfold grows. repeat split; lia. Qed.

Lemma Forall2_grows_refl c : Forall2 grows c c.
Proof. induction c; constructor; auto using grows_refl. Qed.

Lemma Forall2_grows_trans a b c :
  Forall2 grows a b -> Forall2 grows b c -> Forall2 grows a c.
Proof.
  intros H. revert c. induction H as [|x y l l' Hxy Hl IH]; intros c Hc.
  - inversion Hc. constructor.
  - inversion Hc as [|y' z l2 l3 Hyz Hl3]; subst. constructor; [|now apply IH].
    destruct Hxy as (? & ? & ?), Hyz as (? & ? & ?). unfold grows.
    repeat split; try congruence; lia.
Qed.

Lemma Forall2_grows_keys c c' :
  Forall2 grows c c' ->
  map LiveEvent._id c' = map LiveEvent._id c
  /\ map LiveEvent.eventId c' = map LiveEvent.eventId c.
Proof.
  induction 1 as [|x y l l' (Hi & He & _) Hl [IH1 IH2]]; simpl; [auto|].
  now rewrite Hi, He, IH1, IH2.
Qed.

Lemma replaceOne_grows c d0 d :
  List.NoDup (map LiveEvent._id c) -> In d0 c -> grows d0 d ->
  Forall2 grows c (replaceOne LiveEvent._id d c).
Proof.
  intros Hnd Hin Hg. induction c as [|x r IH]; simpl; [constructor|].
  apply List.NoDup_cons_iff in Hnd as [Hx Hr].
  destruct (String.eqb_spec (LiveEvent._id x) (LiveEvent._id d)) as [E|E].
  - constructor; [|apply Forall2_grows_refl].
    destruct Hin as [->|Hin]; [exact Hg|].
    exfalso. apply Hx. destruct Hg as (Hi & _). rewrite E, Hi. now apply in_map.
  - constructor; [apply grows_refl|]. apply IH; [exact Hr|].
    destruct Hin as [->|Hin]; [|exact Hin].
    destruct Hg as (Hi & _). congruence.
Qed.

Lemma liveEvents_grow_same c : liveEvents_grow c c.
Proof.
  exists c, []. rewrite app_nil_r. repeat split; auto using Forall2_grows_refl.
Qed.

Lemma liveEvents_grow_saved c d0 d :
  List.NoDup (map LiveEvent._id c) -> In d0 c -> grows d0 d ->
  liveEvents_grow c (replaceOne LiveEvent._id d c).
Proof.
  intros. exists (replaceOne LiveEvent._id d c), []. rewrite app_nil_r.
  repeat split; eauto using replaceOne_grows.
Qed.

Lemma findLiveEvent_In eventId s d :
  findLiveEvent eventId s = Some d -> In d (liveEvents s) /\ LiveEvent.eventId d = eventId.
Proof.
  unfold findLiveEvent. intros H. apply find_some in H as [Hin He].
  split; [exact Hin | now apply String.eqb_eq].
Qed.

Lemma findLiveEvent_None eventId s :
  findLiveEvent eventId s = None -> ~ In eventId (map LiveEvent.eventId (liveEvents s)).
Proof.
  unfold findLiveEvent. intros H Hin. apply in_map_iff in Hin as (x & Hx & Hin).
  pose proof (find_none _ _ H x Hin) as N. simpl in N.
  rewrite Hx, String.eqb_refl in N. discriminate.
Qed.

Lemma start_liveEvents env user eventId liveSettings s :
  wellformed s ->
  liveEvents_grow (liveEvents s)
    (liveEvents (store (start_live_event env user eventId liveSettings s))).
Proof.
  intros [Hid Hev]. unfold start_live_event, reject, respond.
  destruct (negb (is_organizer user eventId s)); [apply liveEvents_grow_same|].
  destruct (findLiveEvent eventId s) as [d0|] eqn:F.
  - destruct (LiveEvent.status_eqb _ _); [apply liveEvents_grow_same|].
    apply findLiveEvent_In in F as [Hin _].
    destruct liveSettings; simpl;
      (eapply liveEvents_grow_saved; [exact Hid | exact Hin |]);
      unfold grows; simpl; repeat split; lia.
  - cbv iota beta.
    match goal with |- context [insertOne _ ?d _] => set (new := d) end.
    destruct (insertOne LiveEvent._id new (liveEvents s)) as [c|] eqn:I;
      [|apply liveEvents_grow_same].
    apply insertOne_app in I as [-> Hnew]. simpl.
    exists (liveEvents s), [new]. split; [reflexivity|].
    split; [apply Forall2_grows_refl|]. right. exists new. split; [reflexivity|]. split.
    + intros Hin. apply in_map_iff in Hin as (x & Hx & Hin).
      unfold findById in Hnew. pose proof (find_none _ _ Hnew x Hin) as N. simpl in N.
      rewrite Hx, String.eqb_refl in N. discriminate.
    + replace (LiveEvent.eventId new) with eventId
        by (subst new; now destruct liveSettings).
      now apply findLiveEvent_None.
Qed.

Lemma replaceOne_keys c d0 d :
  List.NoDup (map LiveEvent._id c) -> In d0 c -> grows d0 d ->
  List.NoDup (map LiveEvent._id (replaceOne LiveEvent._id d c))
  /\ In d (replaceOne LiveEvent._id d c).
Proof.
  intros Hnd Hin Hg. split.
  - destruct (Forall2_grows_keys _ _ (replaceOne_grows c d0 d Hnd Hin Hg)) as [-> _].
    exact Hnd.
  - clear Hnd. induction c as [|x r IH]; simpl; [contradiction|].
    destruct (String.eqb_spec (LiveEvent._id x) (LiveEvent._id d)) as [E|E].
    + now left.
    + right. apply IH. destruct Hin as [->|Hin]; [|exact Hin].
      destruct Hg as (Hi & _). congruence.
Qed.

Lemma end_liveEvents env user eventId s :
  wellformed s ->
  liveEvents_grow (liveEvents s) (liveEvents (store (end_live_event env user eventId s))).
Proof.
  intros [Hid Hev]. unfold end_live_event, updateMetrics, reject, respond.
  destruct (findLiveEvent eventId s) as [d0|] eqn:F; [|apply liveEvents_grow_same].
  destruct (negb (is_organizer user eventId s)); [apply liveEvents_grow_same|].
  apply findLiveEvent_In in F as [Hin _]. simpl.
  match goal with |- context [replaceOne _ ?x (replaceOne _ ?x _)] => set (d := x) end.
  assert (grows d0 d) as G by (subst d; unfold grows; simpl; repeat split; lia).
  destruct (replaceOne_keys _ _ _ Hid Hin G) as [Hid' Hin'].
  exists (replaceOne LiveEvent._id d (replaceOne LiveEvent._id d (liveEvents s))), [].
  rewrite app_nil_r. split; [reflexivity|]. split; [|now left].
  eapply Forall2_grows_trans; [eapply replaceOne_grows; eassumption|].
  eapply replaceOne_grows; [exact Hid' | exact Hin' | apply grows_refl].
Qed.

Lemma store_activeUsers_liveEvents eventId s :
  List.NoDup (map LiveEvent._id (liveEvents s)) ->
  liveEvents_grow (liveEvents s) (liveEvents (fst (store_activeUsers eventId s))).
Proof.
  intros Hid. unfold store_activeUsers, save_liveEvent.
  destruct (findLiveEvent eventId s) as [d0|] eqn:F; [|apply liveEvents_grow_same].
  destruct (is_live d0); [|apply liveEvents_grow_same].
  apply findLiveEvent_In in F as [Hin _]. simpl.
  eapply liveEvents_grow_saved; [exact Hid | exact Hin |].
  unfold grows. simpl. repeat split; lia.
Qed.

Lemma join_liveEvents sid eventId s :
  wellformed s ->
  liveEvents_grow (liveEvents s) (liveEvents (store (join_event sid eventId s))).
Proof.
  intros [Hid Hev]. unfold join_event.
  destruct eventId as [e|]; [|apply liveEvents_grow_same].
  destruct (Js.falsy (Some e)); [apply liveEvents_grow_same|].
  set (s1 := set_socket_eventId sid e (socket_join sid e s)).
  assert (liveEvents s1 = liveEvents s) as El.
  { subst s1. unfold set_socket_eventId, socket_join.
    destruct (existsb _ _); reflexivity. }
  clearbody s1.
  destruct (findLiveEvent e s1) as [d0|] eqn:F; [|simpl; rewrite El; apply liveEvents_grow_same].
  destruct (is_live d0); [|simpl; rewrite El; apply liveEvents_grow_same].
  apply findLiveEvent_In in F as [Hin _]. simpl. unfold save_liveEvent. simpl.
  rewrite El in *.
  eapply liveEvents_grow_saved; [exact Hid | exact Hin |].
  unfold grows, LiveEvent.set_peakAttendance, LiveEvent.set_activeUsers. simpl.
  destruct (Z.gtb_spec (getActiveUsersCount e s1)
              (LiveEvent.peakAttendance (LiveEvent.metrics d0)));
    simpl; repeat split; lia.
Qed.

Lemma leave_liveEvents sid eventId s :
  wellformed s ->
  liveEvents_grow (liveEvents s) (liveEvents (store (leave_event sid eventId s))).
Proof.
  intros [Hid Hev]. unfold leave_event.
  destruct eventId as [e|]; [|apply liveEvents_grow_same].
  destruct (Js.falsy (Some e)); [apply liveEvents_grow_same|].
  pose proof (store_activeUsers_liveEvents e (socket_leave sid e s) Hid) as H.
  destruct (store_activeUsers e (socket_leave sid e s)) as [s' es]. exact H.
Qed.

Lemma disconnect_liveEvents sid s :
  wellformed s ->
  liveEvents_grow (liveEvents s) (liveEvents (store (disconnect sid s))).
Proof.
  intros [Hid Hev]. unfold disconnect.
  destruct (get_socket_eventId sid _) as [e|]; [|apply liveEvents_grow_same].
  destruct (Js.falsy (Some e)); [apply liveEvents_grow_same|].
  match goal with |- context [store_activeUsers e ?s1] =>
    pose proof (store_activeUsers_liveEvents e s1 Hid) as H;
    destruct (store_activeUsers e s1) as [s' es]
  end.
  exact H.
Qed.

Lemma reconciled_grows s d : grows d (reconciled s d).
Proof.
  unfold reconciled. destruct (is_live d); [|apply grows_refl].
  rewrite reconcile_spec. destruct (_ =? _); simpl; [apply grows_refl|].
  unfold grows. simpl. repeat split; lia.
Qed.

Lemma map_reconciled_grows s l : Forall2 grows l (map (reconciled s) l).
Proof. induction l; simpl; constructor; auto using reconciled_grows. Qed.

Lemma tick_liveEvents s :
  wellformed s ->
  liveEvents_grow (liveEvents s) (liveEvents (store (metrics_tick s))).
Proof.
  intros [Hid Hev].
  unfold metrics_tick.
  rewrite (tick_fold_liveEvents s (liveEvents s) [] (mkOutcome s [] None)) by auto.
  exists (map (reconciled s) (liveEvents s)), []. rewrite app_nil_r.
  split; [reflexivity|]. split; [apply map_reconciled_grows | now left].
Qed.

(** Every request lets each LiveEvent grow and adds at most one, for an
    event that had none: no request lowers a [peakAttendance]. *)
Lemma handle_liveEvents env r s :
  wellformed s ->
  liveEvents_grow (liveEvents s) (liveEvents (store (handle env r s))).
Proof.
  intros W. destruct r; simpl;
    try (now apply start_liveEvents); try (now apply end_liveEvents);
    try (now apply join_liveEvents); try (now apply leave_liveEvents);
    try (now apply disconnect_liveEvents); try (now apply tick_liveEvents).
  all: match goal with
       | |- liveEvents_grow ?c ?c' =>
           replace c' with c; [apply liveEvents_grow_same | symmetry; crush_handler]
       end.
Qed.

Lemma liveEvents_grow_wellformed s s' :
  wellformed s -> liveEvents_grow (liveEvents s) (liveEvents s') -> wellformed s'.
Proof.
  intros [Hid Hev] (kept & new & E & Hk & Hnew). unfold wellformed. rewrite E.
  destruct (Forall2_grows_keys _ _ Hk) as [Ki Ke].
  rewrite !map_app, Ki, Ke.
  destruct Hnew as [->|(d & -> & Hdi & Hde)]; simpl.
  - now rewrite !app_nil_r.
  - split; apply List.NoDup_app; try assumption;
      try (repeat constructor; simpl; tauto);
      intros x Hx [<-|[]]; contradiction.
Qed.

(** The stores a history leads to hold one LiveEvent per [_id] and per
    event. *)
Lemma run_wellformed h : forall s, wellformed s -> wellformed (run h s).
Proof.
  induction h as [|[env r] h IH]; intros s W; simpl; [exact W|].
  apply IH. eapply liveEvents_grow_wellformed; [exact W | now apply handle_liveEvents].
Qed.

Lemma init_wellformed evs : wellformed (init_store evs).
Proof. split; constructor. Qed.

(** No request lowers the [peakAttendance] of a LiveEvent. *)
Lemma peakAttendance_never_decreases env r s liveEvent :
  wellformed s ->
  findById LiveEvent._id (LiveEvent._id liveEvent) (liveEvents s) = Some liveEvent ->
  exists liveEvent',
    findById LiveEvent._id (LiveEvent._id liveEvent) (liveEvents (store (handle env r s)))
    = Some liveEvent'
    /\ LiveEvent.peakAttendance (LiveEvent.metrics liveEvent)
       <= LiveEvent.peakAttendance (LiveEvent.metrics liveEvent').
Proof.
  intros W Hf.
  destruct (handle_liveEvents env r s W) as (kept & new & -> & Hk & _).
  revert Hf. generalize (LiveEvent._id liveEvent) as i. intros i.
  unfold findById. clear W.
  induction Hk as [|x y l l' (Hi & _ & Hp) Hl IH]; simpl; [discriminate|].
  rewrite Hi. destruct (String.eqb (LiveEvent._id x) i).
  - intros [= <-]. eauto.
  - exact IH.
Qed.

(** ** Peak attendance *)

(** C8. Three sockets join the room of an event before it is started, the
    organizer starts it, one socket leaves: the leave handler stores
    [activeUsers = 2] and announces it, [peakAttendance] stays 0, and the
    next run of the metrics loop leaves it there, the count being the stored
    one.  So [peakAttendance] is below an [activeUsers] that was stored:
    [leave_event] and [disconnect] store [activeUsers] without the
    comparison with [peakAttendance] that [join_event] and the loop make. *)
Theorem peak_misses_a_leave :
  let env := mkEnv 1000 "le1" true in
  let h :=
    [ (env, JoinEvent "s1" (Some "e1"));
      (env, JoinEvent "s2" (Some "e1"));
      (env, JoinEvent "s3" (Some "e1"));
      (env, StartLiveEvent "org" "e1" None);
      (env, LeaveEvent "s1" (Some "e1"));
      (env, MetricsTick) ] in
  let s := run h (init_store [Event.mk "e1" "org"]) in
  map (fun e => (LiveEvent.status e, LiveEvent.activeUsers (LiveEvent.metrics e),
                 LiveEvent.peakAttendance (LiveEvent.metrics e))) (liveEvents s)
  = [(LiveEvent.live, 2, 0)]
  /\ List.filter (fun e => match target e with room _ => true | socket _ => false end)
       (run_emits h (init_store [Event.mk "e1" "org"]))
     = [ mkEmit (room "e1") (event_started "e1" "le1" (Some 1000));
         mkEmit (room "e1") (active_users_update 2 None) ].
Proof. vm_compute. split; reflexivity. Qed.

(** The same with a disconnect in place of the leave. *)
Example peak_misses_a_disconnect :
  let env := mkEnv 1000 "le1" true in
  let h :=
    [ (env, JoinEvent "s1" (Some "e1"));
      (env, JoinEvent "s2" (Some "e1"));
      (env, StartLiveEvent "org" "e1" None);
      (env, Disconnect "s1");
      (env, MetricsTick) ] in
  map LiveEvent.metrics (liveEvents (run h (init_store [Event.mk "e1" "org"])))
  = [LiveEvent.mkMetrics 1 0 0 0].
Proof. vm_compute. reflexivity. Qed.

(** ** Rounding in binary64 *)







(** ** Binary digits *)




(** ** The rounding of SpecFloat, on a positive mantissa in the normal range *)














(** ** The percentage of the vote route *)






(** ** Poll percentages *)








(** Thirds and eighths; on the tie 29/200 = 14.5% binary64 comes out just
    below the half, and 14 is as near as 15. *)
Example percentages :
  poll_percentage 1 3 = Some 33 /\ poll_percentage 2 3 = Some 67
  /\ poll_percentage 1 8 = Some 13 /\ poll_percentage 29 200 = Some 14
  /\ poll_percentage 0 0 = Some 0.
Proof. vm_compute. repeat split; reflexivity. Qed.

(** * Properties of the rest of the engine *)

(** ** Sorting and limits *)

Lemma take_sorted_top {A : Type} (R : A -> A -> Prop) (n : nat) (l : list A) :
  StronglySorted R l ->
  StronglySorted R (take n l)
  /\ (forall x, In x l -> ~ In x (take n l) ->
        List.length (take n l) = n /\ Forall (fun y => R y x) (take n l)).
Proof.
  intros Hs. rewrite <- (take_drop n l) in Hs. split.
  - exact (StronglySorted_app_1_l _ _ _ Hs).
  - intros x Hin Hout.
    assert (In x (drop n l)) as Hd.
    { rewrite <- (take_drop n l) in Hin. apply in_app_or in Hin as [H|H]; [contradiction|exact H]. }
    split.
    + rewrite length_take. destruct (Nat.le_gt_cases (List.length l) n) as [Hle|Hgt]; [|lia].
      rewrite drop_ge in Hd by exact Hle. contradiction.
    + apply List.Forall_forall. intros y Hy.
      apply (StronglySorted_app_1_elem_of _ _ _ _ _ Hs); now apply list_elem_of_In.
Qed.

Lemma StronglySorted_rev {A : Type} (R : A -> A -> Prop) (l : list A) :
  StronglySorted R l -> StronglySorted (fun x y => R y x) (rev l).
Proof.
  induction 1 as [|x l Hs IH Hx]; simpl; [constructor|].
  apply StronglySorted_app_2.
  - intros a b Ha Hb. apply list_elem_of_In, in_rev in Ha.
    apply list_elem_of_singleton in Hb as ->.
    rewrite List.Forall_forall in Hx. now apply Hx.
  - exact IH.
  - repeat constructor.
Qed.

Lemma newest_first_total {A : Type} (createdAt : A -> Date) x y :
  newest_first createdAt x y = true \/ newest_first createdAt y x = true.
Proof. unfold newest_first. lia. Qed.

Lemma newest_first_trans {A : Type} (createdAt : A -> Date) x y z :
  newest_first createdAt x y = true -> newest_first createdAt y z = true ->
  newest_first createdAt x z = true.
Proof. unfold newest_first. lia. Qed.

Lemma most_upvoted_first_total x y :
  most_upvoted_first x y = true \/ most_upvoted_first y x = true.
Proof. unfold most_upvoted_first. lia. Qed.

Lemma most_upvoted_first_trans x y z :
  most_upvoted_first x y = true -> most_upvoted_first y z = true ->
  most_upvoted_first x z = true.
Proof. unfold most_upvoted_first. lia. Qed.

Lemma StronglySorted_impl {A : Type} (R S : A -> A -> Prop) (l : list A) :
  (forall x y, R x y -> S x y) -> StronglySorted R l -> StronglySorted S l.
Proof.
  intros HRS. induction 1 as [|x l Hs IH Hx]; constructor; [exact IH|].
  eapply Forall_impl; [exact Hx|]. intros y. apply HRS.
Qed.

(** The newest [n] of the documents a query selects, newest first. *)
Lemma newest_taken `{QuerySort} {A : Type} (createdAt : A -> Date) (keep : A -> bool)
    (n : nat) (c : list A) :
  let l := take n (sort_by (newest_first createdAt) (List.filter keep c)) in
  (List.length l <= n)%nat
  /\ Forall (fun x => In x c /\ keep x = true) l
  /\ StronglySorted (fun x y => createdAt y <= createdAt x) l
  /\ (forall x, In x c -> keep x = true -> ~ In x l ->
        List.length l = n /\ Forall (fun y => createdAt x <= createdAt y) l).
Proof.
  intros l.
  pose proof (sort_by_Permutation (newest_first createdAt) (List.filter keep c)) as Hp.
  pose proof (sort_by_StronglySorted (newest_first createdAt) (List.filter keep c)
                (newest_first_total createdAt) (newest_first_trans createdAt)) as Hs.
  destruct (take_sorted_top _ n _ Hs) as [Hst Htop]. fold l in Hst, Htop.
  split; [|split; [|split]].
  - unfold l. rewrite length_take. lia.
  - apply List.Forall_forall. intros x Hx.
    assert (In x (List.filter keep c)) as Hf.
    { eapply Permutation_in; [exact Hp|]. unfold l in Hx.
      rewrite <- (take_drop n (sort_by _ _)). apply in_or_app. now left. }
    apply List.filter_In in Hf. exact Hf.
  - eapply StronglySorted_impl; [|exact Hst]. unfold newest_first. intros; lia.
  - intros x Hin Hk Hout.
    destruct (Htop x) as [Hlen Hall]; [|exact Hout|].
    { eapply Permutation_in; [symmetry; exact Hp|]. apply List.filter_In. now split. }
    split; [exact Hlen|]. eapply Forall_impl; [exact Hall|].
    unfold newest_first. intros; lia.
Qed.

(** ** Reading the live event *)

Lemma get_live_data_inr `{QuerySort} eventId s d :
  get_live_data eventId s = inr d ->
  exists liveEvent,
    findLiveEvent eventId s = Some liveEvent
    /\ Data.photos d =
       take 20
         (sort_by (newest_first LivePhoto.createdAt)
            (List.filter
               (fun p => String.eqb (LivePhoto.liveEventId p) (LiveEvent._id liveEvent)
                         && is_approved p)
               (photos s)))
    /\ Data.chat d =
       rev
         (take 50
            (sort_by (newest_first LiveChat.createdAt)
               (List.filter
                  (fun c => String.eqb (LiveChat.liveEventId c) (LiveEvent._id liveEvent)
                            && LiveChat.isVisible c)
                  (chats s))))
    /\ Data.qaQuestions d =
       sort_by most_upvoted_first
         (List.filter (fun q => String.eqb (LiveQA.liveEventId q) (LiveEvent._id liveEvent))
            (questions s))
    /\ Data.polls d =
       sort_by (newest_first LivePoll.createdAt)
         (List.filter
            (fun p => String.eqb (LivePoll.liveEventId p) (LiveEvent._id liveEvent)
                      && LivePoll.isActive p)
            (polls s))
    /\ Data.icebreakers d =
       sort_by (newest_first Icebreaker.createdAt)
         (List.filter
            (fun i => String.eqb (Icebreaker.liveEventId i) (LiveEvent._id liveEvent)
                      && Icebreaker.isActive i)
            (icebreakers s)).
Proof.
  unfold get_live_data. destruct (findLiveEvent eventId s) as [liveEvent|]; [|discriminate].
  intros [= <-]. exists liveEvent. simpl. repeat split; reflexivity.
Qed.

Lemma is_approved_status p : is_approved p = true <-> LivePhoto.status p = LivePhoto.approved.
Proof. unfold is_approved. destruct (LivePhoto.status p); split; congruence. Qed.

(** X1: the photos of [/data] are approved photos of the event, at most
    twenty, newest first, and a photo of the event that is approved and not
    among them is no newer than any of the twenty. *)
Theorem data_photos_are_the_newest_approved `{QuerySort} eventId s d :
  get_live_data eventId s = inr d ->
  exists liveEvent,
    findLiveEvent eventId s = Some liveEvent
    /\ (List.length (Data.photos d) <= 20)%nat
    /\ Forall
         (fun p => In p (photos s)
                   /\ LivePhoto.liveEventId p = LiveEvent._id liveEvent
                   /\ LivePhoto.status p = LivePhoto.approved)
         (Data.photos d)
    /\ StronglySorted (fun p q => LivePhoto.createdAt q <= LivePhoto.createdAt p)
         (Data.photos d)
    /\ (forall p,
          In p (photos s) -> LivePhoto.liveEventId p = LiveEvent._id liveEvent ->
          LivePhoto.status p = LivePhoto.approved -> ~ In p (Data.photos d) ->
          List.length (Data.photos d) = 20%nat
          /\ Forall (fun q => LivePhoto.createdAt p <= LivePhoto.createdAt q)
               (Data.photos d)).
Proof.
  intros Hd. destruct (get_live_data_inr _ _ _ Hd) as (liveEvent & Hf & -> & _).
  exists liveEvent. split; [exact Hf|].
  destruct (newest_taken LivePhoto.createdAt
              (fun p => String.eqb (LivePhoto.liveEventId p) (LiveEvent._id liveEvent)
                        && is_approved p) 20 (photos s)) as (Hlen & Hall & Hs & Htop).
  split; [exact Hlen|]. split; [|split; [exact Hs|]].
  - eapply Forall_impl; [exact Hall|]. intros p [Hin Hk].
    apply andb_prop in Hk as [Hl Ha]. apply String.eqb_eq in Hl.
    apply is_approved_status in Ha. auto.
  - intros p Hin Hl Hst Hout. apply Htop; [exact Hin| |exact Hout].
    apply andb_true_intro. split; [now apply String.eqb_eq | now apply is_approved_status].
Qed.

Lemma data_photos_are_the_newest_approved_witness :
  let s :=
    run [ (mkEnv 1000 "le1" true,
           StartLiveEvent "org" "e1"
             (Some (LiveEvent.mkPartial None None None None (Some false))));
          (mkEnv 2000 "ph1" true, SharePhoto "u1" "e1" (Some "https://img/1.png") None None);
          (mkEnv 3000 "ph2" true, SharePhoto "u2" "e1" (Some "https://img/2.png") None None) ]
        (init_store [Event.mk "e1" "org"]) in
  exists d,
    get_live_data "e1" s = inr d
    /\ map LivePhoto._id (Data.photos d) = ["ph2"; "ph1"]
    /\ exists liveEvent,
         findLiveEvent "e1" s = Some liveEvent
         /\ (List.length (Data.photos d) <= 20)%nat
         /\ Forall
              (fun p => In p (photos s)
                        /\ LivePhoto.liveEventId p = LiveEvent._id liveEvent
                        /\ LivePhoto.status p = LivePhoto.approved)
              (Data.photos d)
         /\ StronglySorted (fun p q => LivePhoto.createdAt q <= LivePhoto.createdAt p)
              (Data.photos d)
         /\ (forall p,
               In p (photos s) -> LivePhoto.liveEventId p = LiveEvent._id liveEvent ->
               LivePhoto.status p = LivePhoto.approved -> ~ In p (Data.photos d) ->
               List.length (Data.photos d) = 20%nat
               /\ Forall (fun q => LivePhoto.createdAt p <= LivePhoto.createdAt q)
                    (Data.photos d)).
Proof.
  intros s. eexists. split; [vm_compute; reflexivity|]. split; [reflexivity|].
  apply (data_photos_are_the_newest_approved "e1" s). vm_compute. reflexivity.
Defined.

(** X2: the chat of [/data] holds visible messages of the event, at most
    fifty, oldest first, and a visible message of the event that is left out
    is no newer than any of the fifty. *)
Theorem data_chat_is_the_latest_fifty `{QuerySort} eventId s d :
  get_live_data eventId s = inr d ->
  exists liveEvent,
    findLiveEvent eventId s = Some liveEvent
    /\ (List.length (Data.chat d) <= 50)%nat
    /\ Forall
         (fun c => In c (chats s)
                   /\ LiveChat.liveEventId c = LiveEvent._id liveEvent
                   /\ LiveChat.isVisible c = true)
         (Data.chat d)
    /\ StronglySorted (fun a b => LiveChat.createdAt a <= LiveChat.createdAt b) (Data.chat d)
    /\ (forall c,
          In c (chats s) -> LiveChat.liveEventId c = LiveEvent._id liveEvent ->
          LiveChat.isVisible c = true -> ~ In c (Data.chat d) ->
          List.length (Data.chat d) = 50%nat
          /\ Forall (fun m => LiveChat.createdAt c <= LiveChat.createdAt m) (Data.chat d)).
Proof.
  intros Hd. destruct (get_live_data_inr _ _ _ Hd) as (liveEvent & Hf & _ & -> & _).
  exists liveEvent. split; [exact Hf|].
  destruct (newest_taken LiveChat.createdAt
              (fun c => String.eqb (LiveChat.liveEventId c) (LiveEvent._id liveEvent)
                        && LiveChat.isVisible c) 50 (chats s)) as (Hlen & Hall & Hs & Htop).
  set (l := take 50 _) in *.
  split; [rewrite length_rev; exact Hlen|]. split; [|split].
  - apply List.Forall_forall. intros c Hc. apply in_rev in Hc.
    rewrite List.Forall_forall in Hall. destruct (Hall c Hc) as [Hin Hk].
    apply andb_prop in Hk as [Hl Hv]. apply String.eqb_eq in Hl. auto.
  - apply (StronglySorted_rev _ _ Hs).
  - intros c Hin Hl Hv Hout.
    destruct (Htop c) as [Hn Hfa]; [exact Hin| |rewrite in_rev; exact Hout|].
    { apply andb_true_intro. split; [now apply String.eqb_eq | exact Hv]. }
    split; [rewrite length_rev; exact Hn|].
    apply List.Forall_forall. intros m Hm. apply in_rev in Hm.
    rewrite List.Forall_forall in Hfa. now apply Hfa.
Qed.

Lemma data_chat_is_the_latest_fifty_witness :
  let s :=
    run [ (mkEnv 1000 "le1" true, StartLiveEvent "org" "e1" None);
          (mkEnv 2000 "c1" true, SendChat "u1" "e1" (Some "hello") None);
          (mkEnv 3000 "c2" true, SendChat "u2" "e1" (Some "welcome") (Some "text")) ]
        (init_store [Event.mk "e1" "org"]) in
  exists d,
    get_live_data "e1" s = inr d
    /\ map LiveChat._id (Data.chat d) = ["c1"; "c2"]
    /\ exists liveEvent,
         findLiveEvent "e1" s = Some liveEvent
         /\ (List.length (Data.chat d) <= 50)%nat
         /\ Forall
              (fun c => In c (chats s)
                        /\ LiveChat.liveEventId c = LiveEvent._id liveEvent
                        /\ LiveChat.isVisible c = true)
              (Data.chat d)
         /\ StronglySorted (fun a b => LiveChat.createdAt a <= LiveChat.createdAt b)
              (Data.chat d)
         /\ (forall c,
               In c (chats s) -> LiveChat.liveEventId c = LiveEvent._id liveEvent ->
               LiveChat.isVisible c = true -> ~ In c (Data.chat d) ->
               List.length (Data.chat d) = 50%nat
               /\ Forall (fun m => LiveChat.createdAt c <= LiveChat.createdAt m)
                    (Data.chat d)).
Proof.
  intros s. eexists. split; [vm_compute; reflexivity|]. split; [reflexivity|].
  apply (data_chat_is_the_latest_fifty "e1" s). vm_compute. reflexivity.
Defined.

(** X3: [/data] lists every question of the event once, whatever its status,
    the most upvoted first and, among equally upvoted ones, the newer first;
    it lists every active poll and icebreaker of the event once, newest
    first. *)
Theorem data_lists_are_complete_and_ranked `{QuerySort} eventId s d :
  get_live_data eventId s = inr d ->
  exists liveEvent,
    findLiveEvent eventId s = Some liveEvent
    /\ Permutation (Data.qaQuestions d)
         (List.filter (fun q => String.eqb (LiveQA.liveEventId q) (LiveEvent._id liveEvent))
            (questions s))
    /\ StronglySorted
         (fun a b =>
            LiveQA.upvoteCount b < LiveQA.upvoteCount a
            \/ (LiveQA.upvoteCount b = LiveQA.upvoteCount a
                /\ LiveQA.createdAt b <= LiveQA.createdAt a))
         (Data.qaQuestions d)
    /\ Permutation (Data.polls d)
         (List.filter
            (fun p => String.eqb (LivePoll.liveEventId p) (LiveEvent._id liveEvent)
                      && LivePoll.isActive p)
            (polls s))
    /\ StronglySorted (fun a b => LivePoll.createdAt b <= LivePoll.createdAt a) (Data.polls d)
    /\ Permutation (Data.icebreakers d)
         (List.filter
            (fun i => String.eqb (Icebreaker.liveEventId i) (LiveEvent._id liveEvent)
                      && Icebreaker.isActive i)
            (icebreakers s))
    /\ StronglySorted (fun a b => Icebreaker.createdAt b <= Icebreaker.createdAt a)
         (Data.icebreakers d).
Proof.
  intros Hd.
  destruct (get_live_data_inr _ _ _ Hd) as (liveEvent & Hf & _ & _ & -> & -> & ->).
  exists liveEvent. split; [exact Hf|].
  split; [apply sort_by_Permutation|]. split.
  { eapply StronglySorted_impl;
      [|apply sort_by_StronglySorted;
        [apply most_upvoted_first_total | apply most_upvoted_first_trans]].
    unfold most_upvoted_first. intros; lia. }
  split; [apply sort_by_Permutation|]. split.
  { eapply StronglySorted_impl;
      [|apply sort_by_StronglySorted;
        [apply newest_first_total | apply newest_first_trans]].
    unfold newest_first. intros; lia. }
  split; [apply sort_by_Permutation|].
  eapply StronglySorted_impl;
    [|apply sort_by_StronglySorted; [apply newest_first_total | apply newest_first_trans]].
  unfold newest_first. intros; lia.
Qed.

Lemma data_lists_are_complete_and_ranked_witness :
  let s :=
    run [ (mkEnv 1000 "le1" true, StartLiveEvent "org" "e1" None);
          (mkEnv 2000 "q1" true, AskQuestion "u1" "e1" (Some "When is the break?"));
          (mkEnv 3000 "q2" true, AskQuestion "u2" "e1" (Some "Are slides shared?"));
          (mkEnv 4000 "x" true, UpvoteQuestion "u3" "e1" "q1");
          (mkEnv 5000 "p1" true,
           CreatePoll "org" "e1" (Some "Lunch?") (Some ["yes"; "no"]) None None) ]
        (init_store [Event.mk "e1" "org"]) in
  exists d,
    get_live_data "e1" s = inr d
    /\ map LiveQA._id (Data.qaQuestions d) = ["q1"; "q2"]
    /\ exists liveEvent,
         findLiveEvent "e1" s = Some liveEvent
         /\ Permutation (Data.qaQuestions d)
              (List.filter
                 (fun q => String.eqb (LiveQA.liveEventId q) (LiveEvent._id liveEvent))
                 (questions s))
         /\ StronglySorted
              (fun a b =>
                 LiveQA.upvoteCount b < LiveQA.upvoteCount a
                 \/ (LiveQA.upvoteCount b = LiveQA.upvoteCount a
                     /\ LiveQA.createdAt b <= LiveQA.createdAt a))
              (Data.qaQuestions d)
         /\ Permutation (Data.polls d)
              (List.filter
                 (fun p => String.eqb (LivePoll.liveEventId p) (LiveEvent._id liveEvent)
                           && LivePoll.isActive p)
                 (polls s))
         /\ StronglySorted (fun a b => LivePoll.createdAt b <= LivePoll.createdAt a)
              (Data.polls d)
         /\ Permutation (Data.icebreakers d)
              (List.filter
                 (fun i => String.eqb (Icebreaker.liveEventId i) (LiveEvent._id liveEvent)
                           && Icebreaker.isActive i)
                 (icebreakers s))
         /\ StronglySorted (fun a b => Icebreaker.createdAt b <= Icebreaker.createdAt a)
              (Data.icebreakers d).
Proof.
  intros s. eexists. split; [vm_compute; reflexivity|]. split; [reflexivity|].
  apply (data_lists_are_complete_and_ranked "e1" s). vm_compute. reflexivity.
Defined.

(** ** Photos: likes, and what never changes *)

Lemma toggle_like_ok user p : photo_ok p -> photo_ok (toggle_like user p).
Proof.
  unfold photo_ok, likes_counted, toggle_like. intros [Hnd Hc].
  destruct (includes user (LivePhoto.likes p)) eqn:E; simpl.
  - apply includes_In in E. split; [now apply without_NoDup|].
    rewrite length_without by assumption. lia.
  - apply includes_not_In in E. split.
    + apply List.NoDup_app; [assumption | repeat constructor; simpl; tauto |].
      intros x Hx [<-|[]]. contradiction.
    + rewrite length_app. simpl. lia.
Qed.

Lemma toggle_like_same user p : same_photo p (toggle_like user p).
Proof. unfold same_photo, toggle_like. destruct p. now destruct (includes _ _). Qed.

Lemma same_photo_refl p : same_photo p p.
Proof. unfold same_photo. now destruct p. Qed.

Lemma same_photo_trans a b c : same_photo a b -> same_photo b c -> same_photo a c.
Proof. unfold same_photo. intros -> ->. now destruct a. Qed.

Lemma same_photo_id a b : same_photo a b -> LivePhoto._id b = LivePhoto._id a.
Proof. unfold same_photo. intros ->. reflexivity. Qed.

Lemma share_photo_photos env user eventId imageUrl caption tags s :
  photos_change s (photos (store (share_photo env user eventId imageUrl caption tags s))).
Proof.
  unfold share_photo, reject, respond.
  repeat case_match; simpl; try (now apply photos_same).
  all: eapply photos_shared; [eassumption | reflexivity | reflexivity].
Qed.

Lemma like_photo_photos env user eventId photoId s :
  photos_change s (photos (store (like_photo env user eventId photoId s))).
Proof.
  unfold like_photo, reject, respond.
  destruct (findById _ _ _) as [p|] eqn:F; simpl; [|now apply photos_same].
  eapply photos_liked; [|reflexivity].
  pose proof (findById_Some _ _ _ _ F) as [_ ->]. exact F.
Qed.

Lemma handle_photos env r s : photos_change s (photos (store (handle env r s))).
Proof.
  destruct r; simpl;
    try apply share_photo_photos; try apply like_photo_photos;
    try (apply photos_same; apply metrics_tick_frame);
    apply photos_same; crush_handler.
Qed.

Lemma handle_photo_ok env r s :
  Forall photo_ok (photos s) -> Forall photo_ok (photos (store (handle env r s))).
Proof.
  intros H. destruct (handle_photos env r s) as [E | p Hins Hl Hc | user p Hin E].
  - rewrite E. exact H.
  - eapply insertOne_Forall; [exact Hins | | exact H].
    unfold photo_ok, likes_counted. rewrite Hl, Hc. split; [constructor | reflexivity].
  - rewrite E. apply replaceOne_Forall; [|exact H].
    apply toggle_like_ok. apply findById_Some in Hin as [Hin _].
    exact (proj1 (List.Forall_forall _ _) H _ Hin).
Qed.

Lemma run_photo_ok h : forall s,
  Forall photo_ok (photos s) -> Forall photo_ok (photos (run h s)).
Proof.
  induction h as [|[env r] h IH]; intros s H; simpl; [exact H|].
  apply IH. apply handle_photo_ok. exact H.
Qed.

Lemma toggle_like_twice user p :
  let p2 := toggle_like user (toggle_like user p) in
  same_users (LivePhoto.likes p2) (LivePhoto.likes p)
  /\ LivePhoto.likeCount p2 = LivePhoto.likeCount p
  /\ same_photo p p2.
Proof.
  split; [|split].
  - unfold toggle_like at 2.
    destruct (includes user (LivePhoto.likes p)) eqn:E.
    + apply includes_In in E. unfold toggle_like. simpl.
      assert (includes user (without user (LivePhoto.likes p)) = false) as ->.
      { apply includes_not_In. rewrite In_without. tauto. }
      simpl. intros u. rewrite in_app_iff, In_without. simpl.
      destruct (String.eqb_spec u user) as [->|Hne]; [tauto|].
      split; [intros [[? _]|[?|[]]]; [assumption|congruence] | tauto].
    + apply includes_not_In in E. unfold toggle_like. simpl.
      assert (includes user (LivePhoto.likes p ++ [user]) = true) as ->.
      { apply includes_In, in_app_iff. right. now left. }
      simpl. rewrite without_app_self by assumption. intros u. tauto.
  - unfold toggle_like at 2.
    destruct (includes user (LivePhoto.likes p)) eqn:E.
    + apply includes_In in E. unfold toggle_like. simpl.
      assert (includes user (without user (LivePhoto.likes p)) = false) as ->.
      { apply includes_not_In. rewrite In_without. tauto. }
      simpl. lia.
    + apply includes_not_In in E. unfold toggle_like. simpl.
      assert (includes user (LivePhoto.likes p ++ [user]) = true) as ->.
      { apply includes_In, in_app_iff. right. now left. }
      simpl. lia.
  - eapply same_photo_trans; apply toggle_like_same.
Qed.

Lemma like_photo_found env user eventId photoId s p :
  findById LivePhoto._id photoId (photos s) = Some p ->
  let o := like_photo env user eventId photoId s in
  findById LivePhoto._id photoId (photos (store o)) = Some (toggle_like user p)
  /\ emits o =
     emit_room env eventId
       (photo_like photoId (LivePhoto.likeCount (toggle_like user p))
          (negb (includes user (LivePhoto.likes p))))
  /\ (code <$> reply o) = Some 200.
Proof.
  intros Hf. unfold like_photo. rewrite Hf. simpl.
  repeat split.
  pose proof (findById_Some _ _ _ _ Hf) as [_ Hid].
  pose proof (same_photo_id _ _ (toggle_like_same user p)) as Ht.
  rewrite <- Hid at 1. rewrite <- Ht.
  eapply findById_replaceOne_same. rewrite Ht, Hid. exact Hf.
Qed.

(** X4: [likeCount == len(likes)] for every photo after any history; two
    likes in a row by one user leave the photo with the likers and the count
    it had; one like by a user who is not among the likers adds the user and
    one to the count. *)
Theorem photo_like_toggle :
  (forall (evs : list Event.t) (h : list (Env * Request)),
      Forall likes_counted (photos (run h (init_store evs))))
  /\ (forall env1 env2 user eventId photoId s p,
        findById LivePhoto._id photoId (photos s) = Some p ->
        let s1 := store (like_photo env1 user eventId photoId s) in
        let s2 := store (like_photo env2 user eventId photoId s1) in
        exists p2,
          findById LivePhoto._id photoId (photos s2) = Some p2
          /\ same_users (LivePhoto.likes p2) (LivePhoto.likes p)
          /\ LivePhoto.likeCount p2 = LivePhoto.likeCount p
          /\ same_photo p p2)
  /\ (forall env user eventId photoId s p,
        findById LivePhoto._id photoId (photos s) = Some p ->
        ~ In user (LivePhoto.likes p) ->
        let s1 := store (like_photo env user eventId photoId s) in
        exists p1,
          findById LivePhoto._id photoId (photos s1) = Some p1
          /\ LivePhoto.likes p1 = LivePhoto.likes p ++ [user]
          /\ LivePhoto.likeCount p1 = LivePhoto.likeCount p + 1).
Proof.
  split; [|split].
  - intros evs h.
    assert (Forall photo_ok (photos (run h (init_store evs)))) as H
      by (apply run_photo_ok; constructor).
    eapply List.Forall_impl; [|exact H]. now intros p [_ Hp].
  - intros env1 env2 user eventId photoId s p Hf s1 s2.
    destruct (like_photo_found env1 user eventId photoId s p Hf) as (H1 & _ & _).
    destruct (like_photo_found env2 user eventId photoId _ _ H1) as (H2 & _ & _).
    exists (toggle_like user (toggle_like user p)).
    split; [exact H2 | apply toggle_like_twice].
  - intros env user eventId photoId s p Hf Hnot s1.
    destruct (like_photo_found env user eventId photoId s p Hf) as (H1 & _ & _).
    exists (toggle_like user p). split; [exact H1|].
    unfold toggle_like. apply includes_not_In in Hnot. rewrite Hnot. simpl. tauto.
Qed.

Lemma photo_like_toggle_witness :
  let h :=
    [ (mkEnv 1000 "le1" true, StartLiveEvent "org" "e1" None);
      (mkEnv 2000 "ph1" true, SharePhoto "u1" "e1" (Some "https://img/1.png") None None);
      (mkEnv 3000 "x" true, LikePhoto "u7" "e1" "ph1") ] in
  let s := run h (init_store [Event.mk "e1" "org"]) in
  let p := LivePhoto.mk "ph1" "le1" "u1" "https://img/1.png" "" LivePhoto.pending ["u7"] 1 []
             2000 in
  let s1 := store (like_photo (mkEnv 4000 "x" true) "u2" "e1" "ph1" s) in
  let s2 := store (like_photo (mkEnv 5000 "y" true) "u2" "e1" "ph1" s1) in
  (exists p2,
      findById LivePhoto._id "ph1" (photos s2) = Some p2
      /\ same_users (LivePhoto.likes p2) (LivePhoto.likes p)
      /\ LivePhoto.likeCount p2 = LivePhoto.likeCount p
      /\ same_photo p p2)
  /\ (exists p1,
      findById LivePhoto._id "ph1" (photos s1) = Some p1
      /\ LivePhoto.likes p1 = LivePhoto.likes p ++ ["u2"]
      /\ LivePhoto.likeCount p1 = LivePhoto.likeCount p + 1).
Proof.
  split.
  - apply (proj1 (proj2 photo_like_toggle)). reflexivity.
  - apply (proj2 (proj2 photo_like_toggle)); [reflexivity|].
    simpl. intros [H|[]]. discriminate H.
Defined.

(** ** Identifiers stay unique *)

Section IdFacts.
Context {D : Type} (id_of : D -> ObjectId).

Lemma replaceOne_ids d c : map id_of (replaceOne id_of d c) = map id_of c.
Proof.
  induction c as [|x r IH]; simpl; [reflexivity|].
  destruct (String.eqb_spec (id_of x) (id_of d)) as [E|E]; simpl; congruence.
Qed.

Lemma findById_None_ids i c : findById id_of i c = None -> ~ In i (map id_of c).
Proof.
  unfold findById. intros Hn Hin. apply in_map_iff in Hin as (x & Hx & Hin).
  apply (find_none _ _ Hn) in Hin. apply String.eqb_neq in Hin. contradiction.
Qed.

Lemma insertOne_NoDup d c c' :
  insertOne id_of d c = Some c' ->
  List.NoDup (map id_of c) -> List.NoDup (map id_of c').
Proof.
  intros Hins Hnd. apply insertOne_app in Hins as [-> Hn].
  rewrite map_app. simpl. apply List.NoDup_app; [exact Hnd | repeat constructor; simpl; tauto|].
  intros x Hx [<-|[]]. now apply (findById_None_ids _ _ Hn).
Qed.

Lemma findById_unique c x :
  List.NoDup (map id_of c) -> In x c -> findById id_of (id_of x) c = Some x.
Proof.
  unfold findById. induction c as [|y r IH]; simpl; [contradiction|].
  intros Hnd [->|Hin].
  - now rewrite String.eqb_refl.
  - apply List.NoDup_cons_iff in Hnd as [Hy Hr].
    destruct (String.eqb_spec (id_of y) (id_of x)) as [E|E].
    + exfalso. apply Hy. rewrite E. now apply in_map.
    + now apply IH.
Qed.
End IdFacts.

Lemma send_chat_chats env user eventId message_ messageType s :
  chats_change s (chats (store (send_chat env user eventId message_ messageType s))).
Proof.
  unfold send_chat, reject, respond.
  repeat case_match; simpl; try (now apply chats_same).
  all: eapply chats_sent; [eassumption | reflexivity].
Qed.

Lemma handle_chats env r s : chats_change s (chats (store (handle env r s))).
Proof.
  destruct r; simpl;
    try apply send_chat_chats;
    try (apply chats_same; apply metrics_tick_frame);
    apply chats_same; crush_handler.
Qed.

Lemma handle_ids_unique env r s : ids_unique s -> ids_unique (store (handle env r s)).
Proof.
  intros (Hw & Hi & Hp & Hq & Hph & Hc).
  split; [eapply liveEvents_grow_wellformed; [exact Hw | now apply handle_liveEvents]|].
  repeat split.
  - destruct (handle_icebreakers env r s) as [E | i Hins _ _ | x i i' _ _ _ E].
    + now rewrite E.
    + eapply insertOne_NoDup; eassumption.
    + rewrite E, replaceOne_ids. exact Hi.
  - destruct (handle_polls env r s) as [E | p Hins _ _ | user now_ idxs p p' _ _ E].
    + now rewrite E.
    + eapply insertOne_NoDup; eassumption.
    + rewrite E, replaceOne_ids. exact Hp.
  - destruct (handle_questions env r s) as [E | q Hins _ _ | user q _ E | a st q _ E].
    + now rewrite E.
    + eapply insertOne_NoDup; eassumption.
    + rewrite E, replaceOne_ids. exact Hq.
    + rewrite E, replaceOne_ids. exact Hq.
  - destruct (handle_photos env r s) as [E | p Hins _ _ | user p _ E].
    + now rewrite E.
    + eapply insertOne_NoDup; eassumption.
    + rewrite E, replaceOne_ids. exact Hph.
  - destruct (handle_chats env r s) as [E | c Hins _].
    + now rewrite E.
    + eapply insertOne_NoDup; eassumption.
Qed.

Lemma run_ids_unique h : forall s, ids_unique s -> ids_unique (run h s).
Proof.
  induction h as [|[env r] h IH]; intros s H; simpl; [exact H|].
  apply IH. apply handle_ids_unique. exact H.
Qed.

Lemma init_ids_unique evs : ids_unique (init_store evs).
Proof. repeat split; constructor. Qed.

(** X5: after any history, no two documents of a collection share their
    [_id], and no two LiveEvents belong to one event. *)
Theorem ids_stay_unique (evs : list Event.t) (h : list (Env * Request)) :
  ids_unique (run h (init_store evs)).
Proof. apply run_ids_unique, init_ids_unique. Qed.

(** ** Photos are neither moderated nor removed *)

Lemma Forall2_same_photo_refl c : Forall2 same_photo c c.
Proof. induction c; constructor; [apply same_photo_refl | assumption]. Qed.

Lemma photos_kept_refl c : photos_kept c c.
Proof. exists c, []. split; [now rewrite app_nil_r | apply Forall2_same_photo_refl]. Qed.

Lemma Forall2_same_photo_trans a b c :
  Forall2 same_photo a b -> Forall2 same_photo b c -> Forall2 same_photo a c.
Proof.
  intros H. revert c. induction H as [|x y a b Hxy Hab IH]; intros c Hc.
  - inversion Hc. constructor.
  - inversion Hc as [|y' z b' c' Hyz Hbc]; subst. constructor.
    + eapply same_photo_trans; eassumption.
    + now apply IH.
Qed.

Lemma photos_kept_trans a b c : photos_kept a b -> photos_kept b c -> photos_kept a c.
Proof.
  intros (o1 & n1 & -> & H1) (o2 & n2 & -> & H2).
  apply Forall2_app_inv_l in H2 as (o2a & o2b & Ha & Hb & ->).
  exists o2a, (o2b ++ n2). split; [now rewrite app_assoc|].
  eapply Forall2_same_photo_trans; eassumption.
Qed.

Lemma replaceOne_same_photo c p p' :
  findById LivePhoto._id (LivePhoto._id p) c = Some p -> same_photo p p' ->
  Forall2 same_photo c (replaceOne LivePhoto._id p' c).
Proof.
  intros Hf Hs. pose proof (same_photo_id _ _ Hs) as Hid.
  unfold findById in Hf. induction c as [|x r IH]; simpl in *; [constructor|].
  rewrite Hid. destruct (String.eqb (LivePhoto._id x) (LivePhoto._id p)) eqn:E.
  - injection Hf as ->. constructor; [exact Hs | apply Forall2_same_photo_refl].
  - constructor; [apply same_photo_refl | now apply IH].
Qed.

Lemma handle_photos_kept env r s :
  photos_kept (photos s) (photos (store (handle env r s))).
Proof.
  destruct (handle_photos env r s) as [E | p Hins _ _ | user p Hf E].
  - rewrite E. apply photos_kept_refl.
  - apply insertOne_app in Hins as [-> _].
    exists (photos s), [p]. split; [reflexivity | apply Forall2_same_photo_refl].
  - rewrite E. exists (replaceOne LivePhoto._id (toggle_like user p) (photos s)), [].
    split; [now rewrite app_nil_r|].
    apply (replaceOne_same_photo _ p); [exact Hf | apply toggle_like_same].
Qed.

Lemma run_photos_kept h : forall s, photos_kept (photos s) (photos (run h s)).
Proof.
  induction h as [|[env r] h IH]; intros s; simpl; [apply photos_kept_refl|].
  eapply photos_kept_trans; [apply handle_photos_kept | apply IH].
Qed.

Lemma photos_kept_find c c' p :
  photos_kept c c' -> List.NoDup (map LivePhoto._id c) -> In p c ->
  exists p', findById LivePhoto._id (LivePhoto._id p) c' = Some p' /\ same_photo p p'.
Proof.
  intros (old & new & -> & H) Hnd Hin. unfold findById.
  induction H as [|x y c old Hxy Hc IH]; simpl in *; [contradiction|].
  apply List.NoDup_cons_iff in Hnd as [Hx Hnd].
  rewrite (same_photo_id _ _ Hxy).
  destruct Hin as [->|Hin].
  - rewrite String.eqb_refl. eauto.
  - destruct (String.eqb_spec (LivePhoto._id x) (LivePhoto._id p)) as [E|E].
    + exfalso. apply Hx. rewrite E. now apply in_map.
    + now apply IH.
Qed.

(** X6: no request moderates or removes a photo.  A photo of a store whose
    photo ids are unique is found, after any history, under its id and with
    its event, uploader, image, caption, status, tags and date: only its
    likes may differ. *)
Theorem photo_status_is_final (h : list (Env * Request)) (s : Store) (p : LivePhoto.t) :
  List.NoDup (map LivePhoto._id (photos s)) -> In p (photos s) ->
  exists p',
    findById LivePhoto._id (LivePhoto._id p) (photos (run h s)) = Some p'
    /\ same_photo p p'
    /\ LivePhoto.status p' = LivePhoto.status p.
Proof.
  intros Hnd Hin.
  destruct (photos_kept_find _ _ p (run_photos_kept h s) Hnd Hin) as (p' & Hf & Hs).
  exists p'. split; [exact Hf|]. split; [exact Hs|]. rewrite Hs. reflexivity.
Qed.

Lemma photo_status_is_final_witness :
  let s :=
    run [ (mkEnv 1000 "le1" true, StartLiveEvent "org" "e1" None);
          (mkEnv 2000 "ph1" true, SharePhoto "u1" "e1" (Some "https://img/1.png") None None) ]
        (init_store [Event.mk "e1" "org"]) in
  let h :=
    [ (mkEnv 3000 "x" true, LikePhoto "u2" "e1" "ph1");
      (mkEnv 4000 "x" true, EndLiveEvent "org" "e1");
      (mkEnv 5000 "x" true,
       StartLiveEvent "org" "e1"
         (Some (LiveEvent.mkPartial None None None None (Some false)))) ] in
  let p := LivePhoto.mk "ph1" "le1" "u1" "https://img/1.png" "" LivePhoto.pending [] 0 [] 2000 in
  exists p',
    findById LivePhoto._id "ph1" (photos (run h s)) = Some p'
    /\ same_photo p p'
    /\ LivePhoto.status p' = LivePhoto.pending.
Proof.
  intros s h p. apply (photo_status_is_final h s p).
  - vm_compute. repeat constructor. intros [].
  - vm_compute. now left.
Defined.

Lemma data_photos_listed `{QuerySort} eventId s d :
  get_live_data eventId s = inr d ->
  Forall (fun p => In p (photos s) /\ LivePhoto.status p = LivePhoto.approved)
    (Data.photos d).
Proof.
  intros Hd. destruct (get_live_data_inr _ _ _ Hd) as (liveEvent & _ & -> & _).
  destruct (newest_taken LivePhoto.createdAt
              (fun p => String.eqb (LivePhoto.liveEventId p) (LiveEvent._id liveEvent)
                        && is_approved p) 20 (photos s)) as (_ & Hall & _).
  eapply Forall_impl; [exact Hall|]. intros p [Hin Hk].
  apply andb_prop in Hk as [_ Ha]. apply is_approved_status in Ha. auto.
Qed.

(** X7: a photo that was submitted for moderation is in no later answer of
    [/data], whatever requests are served in between and whatever event is
    asked for. *)
Theorem pending_photo_is_never_listed `{QuerySort} (evs : list Event.t)
    (h1 h2 : list (Env * Request)) env user eventId imageUrl caption tags eventId' d :
  let s := run h1 (init_store evs) in
  let o := share_photo env user eventId imageUrl caption tags s in
  (message <$> reply o) = Some "Photo submitted for moderation" ->
  get_live_data eventId' (run h2 (store o)) = inr d ->
  ~ In (fresh env) (map LivePhoto._id (Data.photos d)).
Proof.
  intros s o Hmsg Hd Hin.
  assert (exists p, In p (photos (store o)) /\ LivePhoto._id p = fresh env
                    /\ LivePhoto.status p = LivePhoto.pending) as (p & Hp & Hid & Hst).
  { revert Hmsg. unfold o, share_photo, reject, respond.
    repeat case_match; simpl; try discriminate; intros _.
    all: match goal with
         | I : insertOne _ ?p _ = Some _ |- _ =>
             apply insertOne_app in I as [-> _]; exists p
         end.
    all: split; [apply in_or_app; right; now left|]; simpl; auto. }
  assert (ids_unique (store o)) as Hu.
  { apply (handle_ids_unique env (SharePhoto user eventId imageUrl caption tags)).
    apply run_ids_unique, init_ids_unique. }
  destruct Hu as (_ & _ & _ & _ & Hnd & _).
  destruct (photos_kept_find _ _ p (run_photos_kept h2 (store o)) Hnd Hp)
    as (p' & Hf & Hs).
  assert (ids_unique (run h2 (store o))) as Hu2.
  { apply run_ids_unique.
    apply (handle_ids_unique env (SharePhoto user eventId imageUrl caption tags)).
    apply run_ids_unique, init_ids_unique. }
  destruct Hu2 as (_ & _ & _ & _ & Hnd2 & _).
  apply in_map_iff in Hin as (q & Hq & Hin).
  pose proof (data_photos_listed _ _ _ Hd) as Hall.
  rewrite List.Forall_forall in Hall. destruct (Hall q Hin) as [Hqin Hqa].
  pose proof (findById_unique LivePhoto._id _ q Hnd2 Hqin) as Hfq.
  rewrite Hq, <- Hid, Hf in Hfq. injection Hfq as <-.
  rewrite Hs in Hqa. simpl in Hqa. congruence.
Qed.

Lemma pending_photo_is_never_listed_witness :
  let evs := [Event.mk "e1" "org"] in
  let h1 := [ (mkEnv 1000 "le1" true, StartLiveEvent "org" "e1" None) ] in
  let env := mkEnv 2000 "ph1" true in
  let h2 :=
    [ (mkEnv 3000 "x" true, LikePhoto "u2" "e1" "ph1");
      (mkEnv 4000 "x" true, EndLiveEvent "org" "e1");
      (mkEnv 5000 "x" true,
       StartLiveEvent "org" "e1"
         (Some (LiveEvent.mkPartial None None None None (Some false))));
      (mkEnv 6000 "ph2" true, SharePhoto "u2" "e1" (Some "https://img/2.png") None None) ] in
  let o :=
    share_photo env "u1" "e1" (Some "https://img/1.png") None None
      (run h1 (init_store evs)) in
  exists d,
    get_live_data "e1" (run h2 (store o)) = inr d
    /\ map LivePhoto._id (Data.photos d) = ["ph2"]
    /\ ~ In "ph1" (map LivePhoto._id (Data.photos d)).
Proof.
  intros evs h1 env h2 o. eexists. split; [vm_compute; reflexivity|].
  split; [reflexivity|].
  apply (pending_photo_is_never_listed evs h1 h2 env "u1" "e1" (Some "https://img/1.png")
           None None "e1").
  - reflexivity.
  - vm_compute. reflexivity.
Defined.

(** ** The shape of the documents *)

Lemma shape_set_metrics m d : liveEvent_shape d -> liveEvent_shape (LiveEvent.set_metrics m d).
Proof. unfold liveEvent_shape. destruct d. simpl. tauto. Qed.

Lemma findLiveEvent_Forall (P : LiveEvent.t -> Prop) eventId s d :
  Forall P (liveEvents s) -> findLiveEvent eventId s = Some d -> P d.
Proof.
  intros H Hf. apply find_some in Hf as [Hin _].
  exact (proj1 (List.Forall_forall _ _) H _ Hin).
Qed.

Lemma tick_fold_Forall (P : LiveEvent.t -> Prop) s l :
  (forall m d, P d -> P (LiveEvent.set_metrics m d)) ->
  Forall P l ->
  forall acc, Forall P (liveEvents (store acc)) ->
              Forall P (liveEvents (store (fold_left (tick_step s) l acc))).
Proof.
  intros HP Hl. induction Hl as [|d l Hd Hl IH]; intros acc Hacc; simpl; [exact Hacc|].
  apply IH. unfold tick_step, reconcile.
  destruct (negb _); simpl; [|exact Hacc].
  apply replaceOne_Forall; [|exact Hacc]. apply HP. exact Hd.
Qed.

Lemma metrics_tick_Forall (P : LiveEvent.t -> Prop) s :
  (forall m d, P d -> P (LiveEvent.set_metrics m d)) ->
  Forall P (liveEvents s) -> Forall P (liveEvents (store (metrics_tick s))).
Proof.
  intros HP H. unfold metrics_tick. apply tick_fold_Forall; [exact HP| |exact H].
  apply List.Forall_forall. intros d Hd. apply List.filter_In in Hd as [Hd _].
  exact (proj1 (List.Forall_forall _ _) H _ Hd).
Qed.

Lemma store_activeUsers_Forall (P : LiveEvent.t -> Prop) eventId s :
  (forall m d, P d -> P (LiveEvent.set_metrics m d)) ->
  Forall P (liveEvents s) -> Forall P (liveEvents (fst (store_activeUsers eventId s))).
Proof.
  intros HP H. unfold store_activeUsers, save_liveEvent.
  destruct (findLiveEvent eventId s) as [d|] eqn:F; [|exact H].
  destruct (is_live d); [|exact H]. simpl.
  apply replaceOne_Forall; [|exact H]. apply HP. eapply findLiveEvent_Forall; eassumption.
Qed.

Lemma handle_liveEvent_shape env r s :
  Forall liveEvent_shape (liveEvents s) ->
  Forall liveEvent_shape (liveEvents (store (handle env r s))).
Proof.
  intros H.
  assert (forall m d, liveEvent_shape d -> liveEvent_shape (LiveEvent.set_metrics m d)) as HP
    by (intros; now apply shape_set_metrics).
  destruct r; simpl; try (now apply metrics_tick_Forall);
    try solve [match goal with
               | |- Forall _ (liveEvents (store ?o)) =>
                   replace (liveEvents (store o)) with (liveEvents s);
                   [exact H | symmetry; crush_handler]
               end].
  - (* start *)
    unfold start_live_event, reject, respond.
    destruct (negb (is_organizer user eventId s)); [exact H|].
    destruct (findLiveEvent eventId s) as [d|] eqn:F.
    + destruct (LiveEvent.status_eqb (LiveEvent.status d) LiveEvent.live); [exact H|].
      simpl. apply replaceOne_Forall; [|exact H].
      pose proof (findLiveEvent_Forall _ _ _ _ H F) as (_ & _ & He).
      destruct liveSettings; unfold liveEvent_shape; simpl; repeat split; congruence.
    + simpl. destruct (insertOne _ _ _) as [c|] eqn:I; [|exact H]. simpl.
      eapply insertOne_Forall; [exact I| |exact H].
      destruct liveSettings; unfold liveEvent_shape; simpl; repeat split; congruence.
  - (* end *)
    unfold end_live_event, updateMetrics, reject, respond.
    destruct (findLiveEvent eventId s) as [d|] eqn:F; [|exact H].
    destruct (negb (is_organizer user eventId s)); [exact H|]. simpl.
    pose proof (findLiveEvent_Forall _ _ _ _ H F) as (_ & Hs & _).
    apply replaceOne_Forall; [|apply replaceOne_Forall; [|exact H]].
    all: unfold liveEvent_shape; simpl; repeat split; congruence.
  - (* join *)
    unfold join_event. destruct eventId as [eventId|]; [|exact H].
    destruct (Js.falsy (Some eventId)); [exact H|].
    set (s1 := set_socket_eventId sid eventId (socket_join sid eventId s)).
    assert (liveEvents s1 = liveEvents s) as E1.
    { unfold s1, set_socket_eventId, socket_join. now destruct (existsb _ _). }
    clearbody s1.
    destruct (findLiveEvent eventId s1) as [d|] eqn:F; [|simpl; now rewrite E1].
    destruct (is_live d); [|simpl; now rewrite E1]. simpl.
    rewrite <- E1 in H. apply replaceOne_Forall; [|exact H].
    pose proof (findLiveEvent_Forall _ _ _ _ H F) as Hd. revert Hd.
    unfold liveEvent_shape. destruct (_ >? _); simpl; tauto.
  - (* leave *)
    unfold leave_event. destruct eventId as [eventId|]; [|exact H].
    destruct (Js.falsy (Some eventId)); [exact H|].
    pose proof (store_activeUsers_Forall liveEvent_shape eventId (socket_leave sid eventId s)
                  HP H) as Hs.
    destruct (store_activeUsers eventId (socket_leave sid eventId s)). exact Hs.
  - (* disconnect *)
    unfold disconnect.
    match goal with
    | |- context [get_socket_eventId sid ?s0] => destruct (get_socket_eventId sid s0) as [e|]
    end; [|exact H].
    destruct (Js.falsy (Some e)); [exact H|].
    match goal with
    | |- context [store_activeUsers e ?s0] =>
        pose proof (store_activeUsers_Forall liveEvent_shape e s0 HP H) as Hs;
        destruct (store_activeUsers e s0)
    end. exact Hs.
Qed.

(** A request that leaves a collection alone keeps what holds of its
    documents. *)
Ltac untouched H s :=
  match goal with
  | |- Forall _ (?f (store ?o)) =>
      replace (f (store o)) with (f s);
      [exact H | symmetry; first [apply metrics_tick_frame | solve [crush_handler]]]
  end.

Lemma handle_question_shape env r s :
  Forall question_shape (questions s) ->
  Forall question_shape (questions (store (handle env r s))).
Proof.
  intros H. destruct r; simpl; try solve [untouched H s].
  - unfold ask_question, reject, respond.
    repeat case_match; simpl; try exact H; try congruence.
    all: match goal with |- _ => eapply insertOne_Forall; [eassumption| |exact H] end.
    all: unfold question_shape; simpl; auto.
  - unfold upvote_question, reject, respond.
    destruct (findById _ _ _) as [q|] eqn:F; simpl; [|exact H].
    apply replaceOne_Forall; [|exact H].
    apply findById_Some in F as [Hin _].
    pose proof (proj1 (List.Forall_forall _ _) H _ Hin) as Hq. revert Hq.
    unfold question_shape, toggle_upvote. destruct (includes _ _); simpl; tauto.
  - unfold answer_question, reject, respond.
    repeat case_match; simpl; try exact H; try congruence.
    all: match goal with |- _ => apply replaceOne_Forall; [|exact H] end.
    all: match goal with
         | F : findById _ _ _ = Some ?q |- _ =>
             apply findById_Some in F as [Hin _];
             pose proof (proj1 (List.Forall_forall _ _) H _ Hin) as Hq
         end.
    all: revert Hq; unfold question_shape; simpl; intros [_ Hh]; split; [right|exact Hh].
    all: split; [reflexivity | discriminate].
Qed.

Lemma add_vote_isActive user now_ p index p' :
  add_vote user now_ p index = Some p' -> LivePoll.isActive p' = LivePoll.isActive p.
Proof.
  unfold add_vote. repeat case_match; try discriminate. now intros [= <-].
Qed.

Lemma add_votes_isActive user now_ idxs : forall p p',
  add_votes user now_ p idxs = Some p' -> LivePoll.isActive p' = LivePoll.isActive p.
Proof.
  unfold add_votes. induction idxs as [|i r IH]; simpl; intros p p' H.
  - now injection H as <-.
  - destruct (add_vote user now_ p i) as [q|] eqn:E.
    + rewrite (IH _ _ H). eapply add_vote_isActive; eassumption.
    + rewrite add_votes_None in H. discriminate.
Qed.

Lemma handle_nothing_moderated env r s :
  nothing_moderated s -> nothing_moderated (store (handle env r s)).
Proof.
  intros (Hc & Hp & Hi & Hph). repeat split.
  - destruct (handle_chats env r s) as [E | c Hins Hv].
    + now rewrite E.
    + eapply insertOne_Forall; eassumption.
  - destruct r; simpl; try solve [untouched Hp s].
    + unfold create_poll, reject, respond.
      repeat case_match; simpl; try exact Hp; try congruence.
      all: match goal with |- _ => eapply insertOne_Forall; [eassumption| |exact Hp]; reflexivity end.
    + unfold vote_poll, reject, respond.
      repeat case_match; simpl; try exact Hp; try congruence.
      all: match goal with |- _ => apply replaceOne_Forall; [|exact Hp] end.
      all: match goal with
           | F : findById _ _ _ = Some ?p, A : add_votes _ _ ?p _ = Some _ |- _ =>
               rewrite (add_votes_isActive _ _ _ _ _ A);
               apply findById_Some in F as [Hin _];
               exact (proj1 (List.Forall_forall _ _) Hp _ Hin)
           end.
  - destruct r; simpl; try solve [untouched Hi s].
    + unfold create_icebreaker, reject, respond.
      repeat case_match; simpl; try exact Hi; try congruence.
      all: match goal with |- _ => eapply insertOne_Forall; [eassumption| |exact Hi]; reflexivity end.
    + unfold respond_icebreaker, reject, respond.
      repeat case_match; simpl; try exact Hi; try congruence.
      all: match goal with |- _ => apply replaceOne_Forall; [|exact Hi]; simpl end.
      all: match goal with
           | F : findById _ _ _ = Some ?i |- _ =>
               apply findById_Some in F as [Hin _];
               exact (proj1 (List.Forall_forall _ _) Hi _ Hin)
           end.
  - destruct r; simpl; try solve [untouched Hph s].
    + unfold share_photo, reject, respond.
      repeat case_match; simpl; try exact Hph; try congruence.
      all: match goal with |- _ => eapply insertOne_Forall; [eassumption| |exact Hph]; simpl; discriminate end.
    + unfold like_photo, reject, respond.
      destruct (findById _ _ _) as [p|] eqn:F; simpl; [|exact Hph].
      apply replaceOne_Forall; [|exact Hph].
      rewrite (toggle_like_same user p). simpl.
      apply findById_Some in F as [Hin _].
      exact (proj1 (List.Forall_forall _ _) Hph _ Hin).
Qed.

Lemma run_all_shapes h : forall s,
  Forall liveEvent_shape (liveEvents s) /\ Forall question_shape (questions s)
  /\ nothing_moderated s ->
  Forall liveEvent_shape (liveEvents (run h s)) /\ Forall question_shape (questions (run h s))
  /\ nothing_moderated (run h s).
Proof.
  induction h as [|[env r] h IH]; intros s H; simpl; [exact H|].
  apply IH. destruct H as (Hl & Hq & Hn).
  split; [now apply handle_liveEvent_shape|].
  split; [now apply handle_question_shape | now apply handle_nothing_moderated].
Qed.

(** X8: after any history a LiveEvent is live or ended, never scheduled, it
    has its start date, and an ended one has its end date. *)
Theorem liveEvents_are_started (evs : list Event.t) (h : list (Env * Request)) :
  Forall liveEvent_shape (liveEvents (run h (init_store evs))).
Proof. apply run_all_shapes. repeat split; constructor. Qed.

(** X9: after any history a question is pending and without an answer, or
    answered and with one; none is dismissed or highlighted. *)
Theorem questions_are_pending_or_answered (evs : list Event.t) (h : list (Env * Request)) :
  Forall question_shape (questions (run h (init_store evs))).
Proof. apply run_all_shapes. repeat split; constructor. Qed.

(** X10: after any history every chat message is visible, every poll and
    icebreaker is active and no photo is rejected: no request hides, closes
    or turns down a document. *)
Theorem nothing_is_ever_moderated (evs : list Event.t) (h : list (Env * Request)) :
  nothing_moderated (run h (init_store evs)).
Proof. apply run_all_shapes. repeat split; constructor. Qed.

(** ** Replies, broadcasts and the store *)

Lemma tick_fold_reply s l : forall acc,
  reply acc = None -> reply (fold_left (tick_step s) l acc) = None.
Proof.
  induction l as [|d l IH]; intros acc Hacc; simpl; [exact Hacc|].
  apply IH. unfold tick_step. now destruct (reconcile _ d).
Qed.



(** X12: socket.io is optional for the routes.  Without [io] on the app a
    request leaves the same store and gets the same reply as with it, and
    sends nothing. *)
Theorem broadcasting_is_optional env r s :
  let quiet := mkEnv (now env) (fresh env) false in
  store (handle quiet r s) = store (handle env r s)
  /\ reply (handle quiet r s) = reply (handle env r s)
  /\ emits (handle quiet r s)
     = if Socket.is_route r then [] else emits (handle env r s).
Proof.
  destruct r; simpl; try (repeat split; reflexivity).
  all: unfold_handlers; unfold emit_room; simpl; repeat case_match; simpl;
    simplify_eq; repeat split; reflexivity.
Qed.

(** X13: every broadcast of a route goes to the room of the event in the URL.
    For respond, vote, upvote and like that event is checked against
    nothing: under another [:eventId] the request changes the store in the
    same way and gets the same reply, and the same payloads go to the room
    of that other event. *)
Theorem url_event_only_picks_the_room env r s :
  (Socket.is_route r = true ->
   Forall (fun e => Some (target e) = room <$> url_eventId r) (emits (handle env r s)))
  /\ (by_document_id r = true ->
      forall eventId,
        let o := handle env r s in
        let o' := handle env (at_event eventId r) s in
        store o' = store o /\ reply o' = reply o
        /\ map payload (emits o') = map payload (emits o)
        /\ Forall (fun e => target e = room eventId) (emits o')).
Proof.
  split.
  - destruct r; simpl; try discriminate; intros _.
    all: unfold_handlers; unfold emit_room; repeat case_match; simpl;
      repeat constructor.
  - destruct r; simpl; try discriminate; intros _ eventId'.
    all: unfold_handlers; unfold emit_room; repeat case_match; simpl;
      simplify_eq; repeat split; repeat constructor.
Qed.

Lemma url_event_only_picks_the_room_witness :
  let s :=
    run [ (mkEnv 1000 "le1" true, StartLiveEvent "org" "e1" None);
          (mkEnv 2000 "p1" true,
           CreatePoll "org" "e1" (Some "Lunch?") (Some ["yes"; "no"]) None None) ]
        (init_store [Event.mk "e1" "org"]) in
  let env := mkEnv 3000 "x" true in
  let r := VotePoll "u1" "e1" "p1" (Some [0]) in
  let o := handle env r s in
  let o' := handle env (VotePoll "u1" "e2" "p1" (Some [0])) s in
  Forall (fun e => Some (target e) = Some (room "e1")) (emits o)
  /\ emits o' <> []
  /\ store o' = store o /\ reply o' = reply o
  /\ map payload (emits o') = map payload (emits o)
  /\ Forall (fun e => target e = room "e2") (emits o').
Proof.
  intros s env r o o'. split; [|split].
  - apply (proj1 (url_event_only_picks_the_room env r s)). reflexivity.
  - vm_compute. discriminate.
  - apply (proj2 (url_event_only_picks_the_room env r s)). reflexivity.
Defined.

(** ** A vote, option by option *)





(** ** The socket handler *)

Lemma validate_action_listed a :
  Analytics.validate a = true -> In (Analytics.action a) Analytics.actions.
Proof.
  unfold Analytics.validate. intros H.
  apply andb_prop in H as [H _]. apply andb_prop in H as [_ H].
  apply existsb_exists in H as (x & Hin & Hx). apply String.eqb_eq in Hx. now rewrite Hx.
Qed.

Lemma save_unlisted a c :
  In (Analytics.action a) unlisted_actions -> Analytics.save a c = None.
Proof.
  intros Hin. unfold Analytics.save.
  destruct (Analytics.validate a) eqn:V; [|reflexivity].
  apply validate_action_listed in V. exfalso.
  destruct Hin as [E|[E|[E|[]]]]; rewrite <- E in V; vm_compute in V; intuition discriminate.
Qed.

Lemma get_set_socket_eventId sid eventId s :
  get_socket_eventId sid (set_socket_eventId sid eventId s) = Some eventId.
Proof. unfold get_socket_eventId, set_socket_eventId. simpl. now rewrite String.eqb_refl. Qed.

Lemma socket_join_member sid eventId s :
  In (sid, eventId) (rooms (socket_join sid eventId s)).
Proof.
  unfold socket_join. destruct (existsb _ _) eqn:E.
  - apply existsb_exists in E as ([a b] & Hin & Hm). unfold same_membership in Hm. simpl in Hm.
    apply andb_prop in Hm as [Ha Hb]. apply String.eqb_eq in Ha, Hb. now subst.
  - simpl. apply in_or_app. right. now left.
Qed.

Lemma member_counted sid eventId s :
  In (sid, eventId) (rooms s) -> 1 <= getActiveUsersCount eventId s.
Proof.
  intros Hin. unfold getActiveUsersCount.
  assert (In (sid, eventId) (List.filter (fun m => String.eqb (snd m) eventId) (rooms s))) as H.
  { apply List.filter_In. split; [exact Hin | apply String.eqb_refl]. }
  destruct (List.filter _ _); [contradiction | simpl; lia].
Qed.

(** X15: [join_event] never gets to the LiveEvent.  The socket is put in the
    room and gets its [eventId], then the save of the Analytics document
    with action [join_live_event] is rejected by the [enum] of the schema:
    the socket is told 'Failed to join event', no LiveEvent and no Analytics
    document is written, no [active_users_update] and no [joined_event] is
    sent; the socket is counted in the room all the same. *)
Theorem join_event_stops_at_analytics env sock eventId w :
  JsStr.truthy (Some eventId) = true ->
  let r := Socket.on_join_event env sock (Some eventId) w in
  Socket.sent r = [Socket.fail sock "Failed to join event"]
  /\ Socket.analytics (Socket.world r) = Socket.analytics w
  /\ liveEvents (Socket.db (Socket.world r)) = liveEvents (Socket.db w)
  /\ same_engagement (Socket.db w) (Socket.db (Socket.world r))
  /\ In (Socket.id sock, eventId) (rooms (Socket.db (Socket.world r)))
  /\ get_socket_eventId (Socket.id sock) (Socket.db (Socket.world r)) = Some eventId
  /\ 1 <= getActiveUsersCount eventId (Socket.db (Socket.world r)).
Proof.
  intros Ht r. unfold r, Socket.on_join_event.
  unfold JsStr.truthy in Ht. apply negb_true_iff in Ht. rewrite Ht.
  rewrite save_unlisted by (simpl; tauto). simpl.
  assert (In (Socket.id sock, eventId)
            (rooms (set_socket_eventId (Socket.id sock) eventId
                      (socket_join (Socket.id sock) eventId (Socket.db w))))) as Hin.
  { unfold set_socket_eventId. simpl. apply socket_join_member. }
  split; [reflexivity|]. split; [reflexivity|].
  split; [unfold socket_join; now destruct (existsb _ _)|].
  split; [unfold same_engagement, socket_join; destruct (existsb _ _); repeat split|].
  split; [exact Hin|]. split; [apply get_set_socket_eventId|].
  eapply member_counted. exact Hin.
Qed.

Lemma join_event_stops_at_analytics_witness :
  let w :=
    Socket.mkWorld
      (run [(mkEnv 1000 "le1" true, StartLiveEvent "org" "e1" None)]
         (init_store [Event.mk "e1" "org"])) [] in
  let sock := Socket.mk "s1" "u1" "Ada" "Byron" (Some "Mozilla/5.0") "10.0.0.7" in
  let r := Socket.on_join_event (mkEnv 2000 "x" true) sock (Some "e1") w in
  Socket.sent r = [Socket.fail sock "Failed to join event"]
  /\ Socket.analytics (Socket.world r) = Socket.analytics w
  /\ liveEvents (Socket.db (Socket.world r)) = liveEvents (Socket.db w)
  /\ same_engagement (Socket.db w) (Socket.db (Socket.world r))
  /\ In (Socket.id sock, "e1") (rooms (Socket.db (Socket.world r)))
  /\ get_socket_eventId (Socket.id sock) (Socket.db (Socket.world r)) = Some "e1"
  /\ 1 <= getActiveUsersCount "e1" (Socket.db (Socket.world r)).
Proof.
  intros w sock r.
  apply (join_event_stops_at_analytics (mkEnv 2000 "x" true) sock "e1" w). reflexivity.
Defined.

Lemma save_Some a c c' :
  Analytics.save a c = Some c' -> c' = c ++ [a] /\ Analytics.validate a = true.
Proof. unfold Analytics.save. destruct (Analytics.validate a); [|discriminate]. now intros [= <-]. Qed.

Ltac unfold_socket :=
  unfold Socket.on, Socket.on_join_event, Socket.on_leave_event, Socket.on_typing,
    Socket.on_send_reaction, Socket.on_track_engagement, Socket.on_start_screen_share,
    Socket.on_stop_screen_share, Socket.on_user_activity, Socket.on_disconnect,
    Socket.on_error in *.

Lemma arrive_analytics env a w :
  Forall (fun d => Analytics.validate d = true) (Socket.analytics w) ->
  Forall (fun d => Analytics.validate d = true)
    (Socket.analytics (Socket.world (Socket.arrive env a w))).
Proof.
  intros H. destruct a as [sock ev|r|]; simpl.
  - destruct ev; unfold_socket; simpl; repeat case_match; simpl; try exact H.
    all: repeat match goal with
         | S : Analytics.save _ _ = Some _ |- _ => apply save_Some in S as [-> ?]
         end.
    all: try (apply Forall_app; split; [exact H | now repeat constructor]).
    all: try match goal with
         | S : Analytics.save _ _ = None |- _ => simpl; exact H
         end.
    rewrite save_unlisted by (simpl; tauto). exact H.
  - destruct (Socket.is_route r); exact H.
  - exact H.
Qed.

Lemma serve_analytics h : forall w,
  Forall (fun d => Analytics.validate d = true) (Socket.analytics w) ->
  Forall (fun d => Analytics.validate d = true) (Socket.analytics (Socket.serve h w)).
Proof.
  induction h as [|[env a] h IH]; intros w H; simpl; [exact H|].
  apply IH. now apply arrive_analytics.
Qed.

(** X16: joins, leaves and user activity are never recorded.  Whatever the
    server is sent, no document of the Analytics collection has the action
    [join_live_event], [leave_live_event] or [user_activity] that the
    handlers give it: each has one of the twelve actions of the schema.  And
    [user_activity] does nothing at all: its save is rejected before the
    moderators are told. *)
Theorem unlisted_actions_are_never_recorded :
  (forall evs h doc,
      In doc (Socket.analytics (Socket.serve h (Socket.init_world evs))) ->
      In (Analytics.action doc) Analytics.actions
      /\ ~ In (Analytics.action doc) unlisted_actions)
  /\ (forall env sock eventId activity w,
        Socket.on_user_activity env sock eventId activity w = Socket.mkResult w []).
Proof.
  split.
  - intros evs h doc Hin.
    assert (Analytics.validate doc = true) as V.
    { assert (Forall (fun d => Analytics.validate d = true)
                (Socket.analytics (Socket.serve h (Socket.init_world evs)))) as H
        by (apply serve_analytics; constructor).
      exact (proj1 (List.Forall_forall _ _) H _ Hin). }
    split; [now apply validate_action_listed|].
    intros Hu. pose proof (save_unlisted doc [] Hu) as Hs.
    unfold Analytics.save in Hs. rewrite V in Hs. discriminate.
  - intros env sock eventId activity w. unfold Socket.on_user_activity.
    destruct eventId as [e|], activity as [a|]; try reflexivity.
    destruct (_ && _); [|reflexivity].
    rewrite save_unlisted by (simpl; tauto). reflexivity.
Qed.

Lemma unlisted_actions_are_never_recorded_witness :
  let sock := Socket.mk "s1" "u1" "Ada" "Byron" None "10.0.0.7" in
  let h :=
    [ (mkEnv 1000 "x" true, Socket.from_socket sock (Socket.ev_join_event (Some "e1")));
      (mkEnv 2000 "x" true,
       Socket.from_socket sock
         (Socket.ev_send_reaction (Some "e1") (Some "clap") (Some "chat") None));
      (mkEnv 3000 "x" true,
       Socket.from_socket sock (Socket.ev_user_activity (Some "e1") (Some "scrolling")));
      (mkEnv 4000 "x" true, Socket.from_socket sock Socket.ev_disconnect) ] in
  let doc := Analytics.mk "e1" "u1" "s1" "engagement_interaction" Analytics.no_metadata 2000 in
  Socket.analytics (Socket.serve h (Socket.init_world [Event.mk "e1" "org"])) = [doc]
  /\ In (Analytics.action doc) Analytics.actions
  /\ ~ In (Analytics.action doc) unlisted_actions.
Proof.
  intros sock h doc. split; [reflexivity|].
  apply (proj1 unlisted_actions_are_never_recorded [Event.mk "e1" "org"] h doc).
  vm_compute. now left.
Defined.

(** ** Tracked engagements *)

Lemma replaceOne_replaceOne {D} (id_of : D -> ObjectId) x d c :
  id_of x = id_of d ->
  replaceOne id_of x (replaceOne id_of d c) = replaceOne id_of x c.
Proof.
  intros E. induction c as [|y r IH]; simpl; [reflexivity|].
  destruct (String.eqb (id_of y) (id_of d)) eqn:Ey; simpl; rewrite E, ?Ey.
  - now rewrite String.eqb_refl.
  - f_equal. exact IH.
Qed.

Lemma findLiveEvent_saved eventId s d d' :
  findLiveEvent eventId s = Some d ->
  LiveEvent._id d' = LiveEvent._id d -> LiveEvent.eventId d' = LiveEvent.eventId d ->
  findLiveEvent eventId (save_liveEvent d' s) = Some d'.
Proof.
  intros Hf Hi He. unfold findLiveEvent, save_liveEvent. simpl.
  eapply find_replaceOne; [exact Hf | exact Hi |].
  apply find_some in Hf as [_ Hd]. now rewrite He.
Qed.

(** What a tracked engagement does. *)
Lemma on_track_engagement_spec env sock eventId action metadata w :
  let document :=
    Analytics.mk eventId (Socket.user_id sock) (Socket.id sock) action
      (default Analytics.no_metadata metadata) (now env) in
  let r := Socket.on_track_engagement env sock (Some eventId) (Some action) metadata w in
  Socket.sent r = []
  /\ (Analytics.validate document = false -> Socket.world r = w)
  /\ (Analytics.validate document = true ->
      Socket.analytics (Socket.world r) = Socket.analytics w ++ [document]
      /\ Socket.db (Socket.world r)
         = match findLiveEvent eventId (Socket.db w) with
           | Some d =>
               if is_live d then save_liveEvent (Socket.count_interaction d) (Socket.db w)
               else Socket.db w
           | None => Socket.db w
           end).
Proof.
  intros document r. unfold r, Socket.on_track_engagement. fold document.
  unfold Analytics.save.
  destruct (Js.falsy (Some eventId)) eqn:Fe.
  { split; [reflexivity|]. split; [reflexivity|]. intros V. exfalso.
    unfold Analytics.validate, document in V. simpl in V, Fe. rewrite Fe in V. discriminate. }
  destruct (Js.falsy (Some action)) eqn:Fa.
  { split; [reflexivity|]. split; [reflexivity|]. intros V. exfalso.
    apply validate_action_listed in V. simpl in V, Fa.
    destruct action; [|discriminate Fa]. vm_compute in V. intuition discriminate. }
  simpl. destruct (Analytics.validate document); simpl.
  - split; [reflexivity|]. split; [discriminate|]. intros _. split; reflexivity.
  - split; [reflexivity|]. split; [reflexivity | discriminate].
Qed.

(** The stores that differ from [s] in the [totalInteractions] of the
    LiveEvent of [eventId] at most. *)
Lemma track_keeps env sock eventId action metadata w s :
  Socket.db w = s
  \/ (exists d n, findLiveEvent eventId s = Some d
                  /\ Socket.db w = save_liveEvent (with_totalInteractions n d) s) ->
  let w' :=
    Socket.world (Socket.on_track_engagement env sock (Some eventId) action metadata w) in
  Socket.db w' = s
  \/ (exists d n, findLiveEvent eventId s = Some d
                  /\ Socket.db w' = save_liveEvent (with_totalInteractions n d) s).
Proof.
  intros H w'. unfold w', Socket.on_track_engagement.
  destruct action as [action|]; [|exact H].
  destruct (_ || _); [exact H|]. destruct (Analytics.save _ _); [|exact H]. simpl.
  destruct H as [E|(d & n & Hf & E)]; rewrite E.
  - destruct (findLiveEvent eventId s) as [d|] eqn:F; [|now left].
    destruct (is_live d); [|now left]. right. exists d. eexists. split; [reflexivity|].
    reflexivity.
  - rewrite (findLiveEvent_saved eventId s d (with_totalInteractions n d) Hf)
      by reflexivity.
    destruct (is_live _); [|right; eauto].
    right. exists d. eexists. split; [exact Hf|].
    unfold save_liveEvent. simpl. rewrite replaceOne_replaceOne by reflexivity.
    reflexivity.
Qed.

Lemma serve_tracks_keep eventId h : forall w s,
  Forall (fun ea => tracks eventId (snd ea)) h ->
  Socket.db w = s
  \/ (exists d n, findLiveEvent eventId s = Some d
                  /\ Socket.db w = save_liveEvent (with_totalInteractions n d) s) ->
  Socket.db (Socket.serve h w) = s
  \/ (exists d n, findLiveEvent eventId s = Some d
                  /\ Socket.db (Socket.serve h w)
                     = save_liveEvent (with_totalInteractions n d) s).
Proof.
  induction h as [|[env a] h IH]; intros w s Hall H; simpl; [exact H|].
  apply Forall_cons in Hall as [Ha Hall]. apply IH; [exact Hall|].
  destruct a as [sock ev| |]; try contradiction.
  destruct ev; try contradiction. simpl in Ha. destruct eventId0 as [e|]; [|contradiction].
  subst e. simpl. now apply track_keeps.
Qed.

Lemma end_after_tracking env user eventId s d n :
  findLiveEvent eventId s = Some d ->
  is_organizer user eventId s = true ->
  end_live_event env user eventId (save_liveEvent (with_totalInteractions n d) s)
  = end_live_event env user eventId s.
Proof.
  intros Hf Ho. unfold end_live_event.
  rewrite (findLiveEvent_saved eventId s d (with_totalInteractions n d) Hf) by reflexivity.
  rewrite Hf.
  assert (is_organizer user eventId (save_liveEvent (with_totalInteractions n d) s)
          = is_organizer user eventId s) as -> by reflexivity.
  rewrite Ho. simpl. unfold updateMetrics, interaction_total, save_liveEvent. simpl.
  unfold respond, with_liveEvents, with_totalInteractions, LiveEvent.set_endedAt,
    LiveEvent.set_status, LiveEvent.set_metrics, LiveEvent.set_totalInteractions.
  simpl.
  match goal with
  | |- context [replaceOne LiveEvent._id ?x (replaceOne LiveEvent._id ?y (liveEvents s))] =>
      lazymatch y with
      | x => fail
      | _ => rewrite (replaceOne_replaceOne LiveEvent._id x y (liveEvents s)) by reflexivity
      end
  end.
  reflexivity.
Qed.

(** X17: an engagement tracked over the socket is counted while the event is
    live and discarded when it ends.  [track_engagement] with an action of
    the Analytics schema stores the document and adds one to
    [totalInteractions] of the live LiveEvent, sending nothing; with any
    other action it does nothing.  The end route then recounts
    [totalInteractions] from the chat messages, poll votes, questions and
    photos: it leaves the same store, reply and broadcast whether
    engagements of the event were tracked before or not. *)
Theorem tracked_engagement_is_counted_then_discarded :
  (forall env sock eventId action metadata w,
      let document :=
        Analytics.mk eventId (Socket.user_id sock) (Socket.id sock) action
          (default Analytics.no_metadata metadata) (now env) in
      let r := Socket.on_track_engagement env sock (Some eventId) (Some action) metadata w in
      Socket.sent r = []
      /\ (Analytics.validate document = false -> Socket.world r = w)
      /\ (Analytics.validate document = true ->
          Socket.analytics (Socket.world r) = Socket.analytics w ++ [document]
          /\ Socket.db (Socket.world r)
             = match findLiveEvent eventId (Socket.db w) with
               | Some d =>
                   if is_live d
                   then save_liveEvent (Socket.count_interaction d) (Socket.db w)
                   else Socket.db w
               | None => Socket.db w
               end))
  /\ (forall env user eventId h w,
        Forall (fun ea => tracks eventId (snd ea)) h ->
        is_organizer user eventId (Socket.db w) = true ->
        end_live_event env user eventId (Socket.db (Socket.serve h w))
        = end_live_event env user eventId (Socket.db w)).
Proof.
  split; [apply on_track_engagement_spec|].
  intros env user eventId h w Hall Ho.
  destruct (serve_tracks_keep eventId h w (Socket.db w) Hall (or_introl eq_refl))
    as [->|(d & n & Hf & ->)]; [reflexivity|].
  now apply end_after_tracking.
Qed.

Lemma tracked_engagement_is_counted_then_discarded_witness :
  let w :=
    Socket.mkWorld
      (run [(mkEnv 1000 "le1" true, StartLiveEvent "org" "e1" None)]
         (init_store [Event.mk "e1" "org"])) [] in
  let sock := Socket.mk "s1" "u1" "Ada" "Byron" None "10.0.0.7" in
  let env := mkEnv 2000 "x" true in
  let h :=
    [ (env, Socket.from_socket sock
              (Socket.ev_track_engagement (Some "e1") (Some "poll_vote") None));
      (env, Socket.from_socket sock
              (Socket.ev_track_engagement (Some "e1") (Some "chat_message")
                 (Some (Analytics.mkMetadata None None None (Some "mobile"))))) ] in
  ((fun d => LiveEvent.totalInteractions (LiveEvent.metrics d))
     <$> findLiveEvent "e1" (Socket.db (Socket.serve h w))) = Some 2
  /\ end_live_event (mkEnv 3000 "x" true) "org" "e1" (Socket.db (Socket.serve h w))
     = end_live_event (mkEnv 3000 "x" true) "org" "e1" (Socket.db w)
  /\ Socket.analytics
       (Socket.world
          (Socket.on_track_engagement env sock (Some "e1") (Some "poll_vote") None w))
     = [Analytics.mk "e1" "u1" "s1" "poll_vote" Analytics.no_metadata 2000].
Proof.
  intros w sock env h. split; [reflexivity|]. split.
  - apply (proj2 tracked_engagement_is_counted_then_discarded (mkEnv 3000 "x" true) "org"
             "e1" h w); [repeat constructor | reflexivity].
  - exact (proj1 (proj2 (proj2 (proj1 tracked_engagement_is_counted_then_discarded
                                   env sock "e1" "poll_vote" None w)) eq_refl)).
Defined.

(** ** Typing indicators *)

Lemma store_activeUsers_socket_eventId eventId s :
  socket_eventId (fst (store_activeUsers eventId s)) = socket_eventId s
  /\ rooms (fst (store_activeUsers eventId s)) = rooms s.
Proof.
  unfold store_activeUsers. destruct (findLiveEvent eventId s) as [d|]; [|now split].
  destruct (is_live d); now split.
Qed.

Lemma leave_event_socket_eventId sid eventId s :
  socket_eventId (store (leave_event sid eventId s)) = socket_eventId s.
Proof.
  unfold leave_event. destruct eventId as [e|]; [|reflexivity].
  destruct (Js.falsy (Some e)); [reflexivity|].
  pose proof (store_activeUsers_socket_eventId e (socket_leave sid e s)) as [H _].
  destruct (store_activeUsers e (socket_leave sid e s)). simpl in *. exact H.
Qed.

Lemma leave_event_not_member sid eventId s :
  JsStr.truthy (Some eventId) = true ->
  ~ In (sid, eventId) (rooms (store (leave_event sid (Some eventId) s))).
Proof.
  unfold JsStr.truthy. intros Ht. apply negb_true_iff in Ht.
  unfold leave_event. rewrite Ht.
  pose proof (store_activeUsers_socket_eventId eventId (socket_leave sid eventId s)) as [_ H].
  destruct (store_activeUsers eventId (socket_leave sid eventId s)). simpl in *. rewrite H.
  unfold socket_leave. simpl. intros Hin. apply List.filter_In in Hin as [_ Hn].
  unfold same_membership in Hn. simpl in Hn. now rewrite !String.eqb_refl in Hn.
Qed.

(** X18: a typing indicator goes to the room of the event the socket joined
    last, and to no other room; to leave the room does not end it.  With
    [socket.eventId] equal to the event of the message, [typing_start] and
    [typing_stop] send [user_typing] to the other sockets of the room, and
    otherwise nothing.  [leave_event] keeps [socket.eventId]: a socket that
    joined and left is no member of the room, and its typing indicator is still
    sent to it. *)
Theorem typing_follows_the_last_join env sock eventId isTyping w :
  JsStr.truthy (Some eventId) = true ->
  let typing :=
    [Socket.send (Socket.others (Socket.id sock) eventId)
       (Socket.user_typing (Socket.user_id sock) (Socket.userName sock) isTyping)] in
  Socket.sent (Socket.on_typing isTyping sock (Some eventId) w)
  = (if decide (get_socket_eventId (Socket.id sock) (Socket.db w) = Some eventId)
     then typing else [])
  /\ let joined := Socket.world (Socket.on_join_event env sock (Some eventId) w) in
     let left := Socket.world (Socket.on_leave_event sock (Some eventId) joined) in
     ~ In (Socket.id sock, eventId) (rooms (Socket.db left))
     /\ Socket.sent (Socket.on_typing isTyping sock (Some eventId) left) = typing.
Proof.
  intros Ht typing.
  assert (forall w',
            get_socket_eventId (Socket.id sock) (Socket.db w') = Some eventId ->
            Socket.sent (Socket.on_typing isTyping sock (Some eventId) w') = typing) as Hon.
  { intros w' E. unfold Socket.on_typing. simpl. rewrite Ht, E, String.eqb_refl.
    reflexivity. }
  split.
  - destruct (decide _) as [E|E]; [now apply Hon|].
    unfold Socket.on_typing. simpl. rewrite Ht. simpl.
    destruct (get_socket_eventId _ _) as [e|]; [|reflexivity].
    destruct (String.eqb_spec e eventId) as [->|]; [contradiction | reflexivity].
  - intros joined left. split.
    + unfold left, Socket.on_leave_event. cbn [Socket.db Socket.world].
      now apply leave_event_not_member.
    + apply Hon. unfold left, Socket.on_leave_event. cbn [Socket.db Socket.world].
      unfold get_socket_eventId. rewrite leave_event_socket_eventId.
      unfold joined, Socket.on_join_event.
      unfold JsStr.truthy in Ht. apply negb_true_iff in Ht. rewrite Ht.
      rewrite save_unlisted by (simpl; tauto). simpl. now rewrite String.eqb_refl.
Qed.

Lemma typing_follows_the_last_join_witness :
  let w := Socket.init_world [Event.mk "e1" "org"] in
  let sock := Socket.mk "s1" "u1" "Ada" "Byron" None "10.0.0.7" in
  let env := mkEnv 1000 "x" true in
  let typing := [Socket.send (Socket.others "s1" "e1") (Socket.user_typing "u1" "Ada Byron" true)] in
  Socket.sent (Socket.on_typing true sock (Some "e1") w) = []
  /\ let joined := Socket.world (Socket.on_join_event env sock (Some "e1") w) in
     let left := Socket.world (Socket.on_leave_event sock (Some "e1") joined) in
     ~ In ("s1", "e1") (rooms (Socket.db left))
     /\ Socket.sent (Socket.on_typing true sock (Some "e1") left) = typing.
Proof.
  intros w sock env typing. split; [reflexivity|].
  apply (proj2 (typing_follows_the_last_join env sock "e1" true w eq_refl)).
Defined.

(** ** Screen sharing *)

Lemma lifted_is_engine l m :
  In m (map Socket.lift l) -> exists p, Socket.message m = Socket.engine p.
Proof.
  intros Hin. apply in_map_iff in Hin as (e & <- & _). simpl. eauto.
Qed.

(** X19: only the organizer of an event makes the server announce a screen
    share to its room.  Whatever reaches the server, a [screen_share_started]
    it sends comes from a [start_screen_share] of a socket whose user
    organizes the event, goes to the other sockets of that event's room and
    names that user as the host.  [stop_screen_share] has no such check: any
    socket makes the server send [screen_share_stopped] to the others in
    the room of any event. *)
Theorem screen_share_is_started_by_the_organizer_only :
  (forall env a w m hostId hostName streamId,
      In m (Socket.sent (Socket.arrive env a w)) ->
      Socket.message m = Socket.screen_share_started hostId hostName streamId ->
      exists sock eventId,
        a = Socket.from_socket sock (Socket.ev_start_screen_share eventId streamId)
        /\ is_organizer (Socket.user_id sock) eventId (Socket.db w) = true
        /\ Socket.to m = Socket.others (Socket.id sock) eventId
        /\ hostId = Socket.user_id sock)
  /\ (forall env sock eventId w,
        Socket.arrive env (Socket.from_socket sock (Socket.ev_stop_screen_share eventId)) w
        = Socket.mkResult w
            [Socket.send (Socket.others (Socket.id sock) eventId)
               (Socket.screen_share_stopped (Socket.user_id sock))]).
Proof.
  split; [|reflexivity].
  intros env a w m hostId hostName streamId Hin Hm.
  destruct a as [sock ev|r|]; simpl in Hin.
  - destruct ev; unfold_socket; simpl in Hin.
    7: { destruct (negb _) eqn:Eo; simpl in Hin.
         - destruct Hin as [<-|[]]. discriminate Hm.
         - destruct Hin as [<-|[<-|[]]]; [|discriminate Hm].
           simpl in Hm. injection Hm as <- <- <-.
           exists sock, eventId. apply negb_false_iff in Eo. auto. }
    all: exfalso; repeat case_match; simpl in Hin;
      try (apply lifted_is_engine in Hin as (p & Hp); congruence);
      repeat (destruct Hin as [<-|Hin]; [discriminate Hm|]); try contradiction.
  - exfalso. destruct (Socket.is_route r); [|contradiction].
    apply lifted_is_engine in Hin as (p & Hp). congruence.
  - exfalso. apply lifted_is_engine in Hin as (p & Hp). congruence.
Qed.

Lemma screen_share_is_started_by_the_organizer_only_witness :
  let w := Socket.init_world [Event.mk "e1" "org"] in
  let host := Socket.mk "s1" "org" "Grace" "Hopper" None "10.0.0.1" in
  let guest := Socket.mk "s2" "u2" "Ada" "Byron" None "10.0.0.7" in
  let env := mkEnv 1000 "x" true in
  let a := Socket.from_socket host (Socket.ev_start_screen_share "e1" (Some "stream-1")) in
  let m :=
    Socket.send (Socket.others "s1" "e1")
      (Socket.screen_share_started "org" "Grace Hopper" (Some "stream-1")) in
  In m (Socket.sent (Socket.arrive env a w))
  /\ Socket.sent
       (Socket.arrive env
          (Socket.from_socket guest (Socket.ev_start_screen_share "e1" (Some "stream-2"))) w)
     = [Socket.fail guest "Only event organizers can start screen sharing"]
  /\ exists sock eventId,
       a = Socket.from_socket sock (Socket.ev_start_screen_share eventId (Some "stream-1"))
       /\ is_organizer (Socket.user_id sock) eventId (Socket.db w) = true
       /\ Socket.to m = Socket.others (Socket.id sock) eventId
       /\ "org" = Socket.user_id sock.
Proof.
  intros w host guest env a m. split; [now left|]. split; [reflexivity|].
  apply (proj1 screen_share_is_started_by_the_organizer_only env a w m "org" "Grace Hopper"
           (Some "stream-1")); [now left | reflexivity].
Defined.

(** ** Peak attendance and the socket layer *)

Lemma peaks_saved s d0 d :
  List.NoDup (map LiveEvent._id (liveEvents s)) -> In d0 (liveEvents s) ->
  LiveEvent._id d = LiveEvent._id d0 ->
  LiveEvent.peakAttendance (LiveEvent.metrics d)
  = LiveEvent.peakAttendance (LiveEvent.metrics d0) ->
  peaks (save_liveEvent d s) = peaks s.
Proof.
  unfold peaks, save_liveEvent. simpl. generalize (liveEvents s) as c.
  intros c Hnd Hin Hid Hp. induction c as [|x r IH]; simpl; [reflexivity|].
  apply List.NoDup_cons_iff in Hnd as [Hx Hr].
  destruct (String.eqb_spec (LiveEvent._id x) (LiveEvent._id d)) as [E|E]; simpl.
  - f_equal. destruct Hin as [->|Hin]; [exact Hp|].
    exfalso. apply Hx. rewrite E, Hid. now apply in_map.
  - f_equal. apply IH; [exact Hr|]. destruct Hin as [->|Hin]; [congruence | exact Hin].
Qed.

Lemma peaks_store_activeUsers eventId s :
  wellformed s ->
  peaks (fst (store_activeUsers eventId s)) = peaks s.
Proof.
  intros [Hnd _]. unfold store_activeUsers.
  destruct (findLiveEvent eventId s) as [d|] eqn:F; [|reflexivity].
  destruct (is_live d); [|reflexivity]. simpl.
  apply findLiveEvent_In in F as [Hin _].
  now apply (peaks_saved s d).
Qed.

Lemma unchanged_peaks (c : list Z) : exists started, c = c ++ started /\ Forall (fun p => p = 0) started.
Proof. exists []. split; [now rewrite app_nil_r | constructor]. Qed.

Lemma peaks_route env r s :
  wellformed s -> Socket.is_route r = true ->
  exists started,
    peaks (store (handle env r s)) = peaks s ++ started /\ Forall (fun p => p = 0) started.
Proof.
  intros W. pose proof W as [Hnd _].
  destruct r; simpl; try discriminate; intros _;
    try solve [replace (peaks (store (handle env _ s))) with (peaks s);
               [apply unchanged_peaks | unfold peaks; f_equal; symmetry; crush_handler]].
  all: try solve [match goal with
                  | |- exists _, peaks (store ?o) = _ /\ _ =>
                      replace (peaks (store o)) with (peaks s);
                      [apply unchanged_peaks | unfold peaks; f_equal; symmetry; crush_handler]
                  end].
  - (* start *)
    unfold start_live_event, reject, respond.
    destruct (negb (is_organizer user eventId s)); [apply unchanged_peaks|].
    destruct (findLiveEvent eventId s) as [d|] eqn:F.
    + destruct (LiveEvent.status_eqb (LiveEvent.status d) LiveEvent.live);
        [apply unchanged_peaks|].
      simpl. apply findLiveEvent_In in F as [Hin _].
      match goal with
      | |- exists _, peaks ?s' = _ /\ _ => replace (peaks s') with (peaks s)
      end; [apply unchanged_peaks|].
      symmetry. apply (peaks_saved s d); try assumption; now destruct liveSettings.
    + simpl. destruct (insertOne _ _ _) as [c|] eqn:I; [|apply unchanged_peaks].
      apply insertOne_app in I as [-> _]. simpl.
      exists [0]. split; [|repeat constructor].
      unfold peaks. simpl. rewrite map_app. simpl. now destruct liveSettings.
  - (* end *)
    unfold end_live_event, updateMetrics, reject, respond.
    destruct (findLiveEvent eventId s) as [d|] eqn:F; [|apply unchanged_peaks].
    destruct (negb (is_organizer user eventId s)); [apply unchanged_peaks|].
    simpl. rewrite replaceOne_replaceOne by reflexivity.
    apply findLiveEvent_In in F as [Hin _].
    match goal with
    | |- exists _, peaks ?s' = _ /\ _ => replace (peaks s') with (peaks s)
    end; [apply unchanged_peaks|].
    symmetry. now apply (peaks_saved s d).
Qed.

Lemma peaks_socket env sock ev w :
  wellformed (Socket.db w) ->
  peaks (Socket.db (Socket.world (Socket.on env sock ev w))) = peaks (Socket.db w).
Proof.
  intros W. pose proof W as [Hnd _]. destruct ev; simpl.
  - (* join_event *)
    unfold Socket.on_join_event. destruct eventId as [e|]; [|reflexivity].
    destruct (Js.falsy (Some e)); [reflexivity|].
    rewrite save_unlisted by (simpl; tauto). simpl.
    unfold peaks, socket_join. now destruct (existsb _ _).
  - (* leave_event *)
    unfold Socket.on_leave_event, leave_event. destruct eventId as [e|]; [|reflexivity].
    destruct (Js.falsy (Some e)); [reflexivity|].
    pose proof (peaks_store_activeUsers e (socket_leave (Socket.id sock) e (Socket.db w)) W)
      as H.
    destruct (store_activeUsers e _). simpl in *. exact H.
  - reflexivity.
  - reflexivity.
  - unfold Socket.on_send_reaction. repeat case_match; reflexivity.
  - (* track_engagement *)
    unfold Socket.on_track_engagement. repeat case_match; try reflexivity. simpl.
    match goal with
    | F : findLiveEvent _ _ = Some ?d |- _ =>
        apply findLiveEvent_In in F as [Hin _]; now apply (peaks_saved _ d)
    end.
  - unfold Socket.on_start_screen_share. now destruct (negb _).
  - reflexivity.
  - unfold Socket.on_user_activity. repeat case_match; reflexivity.
  - (* disconnect *)
    unfold Socket.on_disconnect, disconnect. cbn [Socket.db Socket.world].
    match goal with
    | |- context [get_socket_eventId (Socket.id sock) ?s0] =>
        destruct (get_socket_eventId (Socket.id sock) s0) as [e|]
    end; [|reflexivity].
    destruct (Js.falsy (Some e)); [reflexivity|].
    match goal with
    | |- context [store_activeUsers e ?s0] =>
        pose proof (peaks_store_activeUsers e s0 W) as H; destruct (store_activeUsers e s0)
    end.
    simpl in *. exact H.
  - reflexivity.
Qed.

(** X20: [peakAttendance] is raised by the metrics loop and by nothing else.
    No socket event and no route changes the [peakAttendance] of a
    LiveEvent; a start adds at most one LiveEvent, with the peak 0. *)
Theorem peak_is_raised_by_the_metrics_loop_only env a w :
  wellformed (Socket.db w) ->
  a <> Socket.from_timer ->
  exists started,
    peaks (Socket.db (Socket.world (Socket.arrive env a w))) = peaks (Socket.db w) ++ started
    /\ Forall (fun p => p = 0) started.
Proof.
  intros W Ha. destruct a as [sock ev|r|]; [| |contradiction]; simpl.
  - rewrite (peaks_socket env sock ev w W). apply unchanged_peaks.
  - destruct (Socket.is_route r) eqn:E; [|apply unchanged_peaks].
    simpl. now apply peaks_route.
Qed.

Lemma peak_is_raised_by_the_metrics_loop_only_witness :
  let w :=
    Socket.mkWorld
      (run [(mkEnv 1000 "le1" true, StartLiveEvent "org" "e1" None)]
         (init_store [Event.mk "e1" "org"; Event.mk "e2" "org"])) [] in
  let sock := Socket.mk "s1" "u1" "Ada" "Byron" None "10.0.0.7" in
  let env := mkEnv 2000 "le2" true in
  (exists started,
      peaks (Socket.db
               (Socket.world
                  (Socket.arrive env (Socket.from_socket sock (Socket.ev_join_event (Some "e1")))
                     w)))
      = peaks (Socket.db w) ++ started
      /\ Forall (fun p => p = 0) started)
  /\ (exists started,
        peaks (Socket.db
                 (Socket.world
                    (Socket.arrive env (Socket.from_route (StartLiveEvent "org" "e2" None)) w)))
        = peaks (Socket.db w) ++ started
        /\ Forall (fun p => p = 0) started).
Proof.
  intros w sock env. split.
  - apply (peak_is_raised_by_the_metrics_loop_only env _ w);
      [apply run_wellformed, init_wellformed | discriminate].
  - apply (peak_is_raised_by_the_metrics_loop_only env _ w);
      [apply run_wellformed, init_wellformed | discriminate].
Defined.

(** ** Authentication *)

Lemma split_no_space token : no_space token = true -> JsStr.split " " token = [token].
Proof.
  induction token as [|c r IH]; simpl; [reflexivity|].
  intros H. apply andb_prop in H as [Hc Hr]. apply negb_true_iff in Hc.
  rewrite Hc, (IH Hr). reflexivity.
Qed.

Lemma bearer_of_header token :
  token <> "" -> no_space token = true ->
  Auth.bearer (Some ("Bearer " ++ token)%string) = Some token.
Proof.
  intros Hne Hns. unfold Auth.bearer. simpl.
  change (String.append "" token) with token.
  rewrite (split_no_space token Hns). simpl.
  destruct token; [contradiction | reflexivity].
Qed.

Lemma prefix_append p s : String.prefix p (String.append p s) = true.
Proof.
  induction p as [|c p IH]; simpl; [now destruct s|].
  destruct (Ascii.ascii_dec c c) as [_|N]; [exact IH | contradiction].
Qed.

Lemma drop_append p s : JsStr.drop (String.length p) (String.append p s) = s.
Proof. induction p as [|c p IH]; simpl; [reflexivity | exact IH]. Qed.

Lemma remove_first_prefix p s : JsStr.remove_first p (String.append p s) = s.
Proof.
  assert (forall x, JsStr.remove_first p x
                    = if String.prefix p x then JsStr.drop (String.length p) x
                      else match x with
                           | EmptyString => EmptyString
                           | String c r => String c (JsStr.remove_first p r)
                           end) as U by (now intros []).
  rewrite U, prefix_append. apply drop_append.
Qed.

(** X21: the token of a request.  From the header [Bearer <token>] the
    middleware of the routes takes the token when it has no space and is not
    empty, and the middleware of the sockets takes it whatever it is; without
    an Authorization header the routes answer 401 and the sockets refuse. *)
Theorem bearer_token_is_read_back (verify : string -> option string -> Auth.Verified)
    e users token :
  token <> "" -> no_space token = true ->
  Auth.bearer (Some ("Bearer " ++ token)%string) = Some token
  /\ Auth.handshake_token (Auth.mkHandshake None (Some ("Bearer " ++ token)%string)) = Some token
  /\ Auth.authenticateToken verify e users None = Auth.answered 401 "Access token required"
  /\ Auth.authenticateSocket verify e users (Auth.mkHandshake None None)
     = Auth.refused "Authentication token required".
Proof.
  intros Hne Hns. split; [now apply bearer_of_header|]. repeat split.
  unfold Auth.handshake_token, JsStr.or. cbn [Auth.auth_token Auth.authorization Js.falsy].
  cbn [fmap option_fmap option_map]. now rewrite remove_first_prefix.
Qed.

Lemma bearer_token_is_read_back_witness :
  let verify := fun (_ : string) (_ : option string) => Auth.JsonWebTokenError in
  let e := Auth.mkEnvironment None None None None in
  let token := "eyJhbGciOiJIUzI1NiJ9.eyJ1c2VySWQiOiJ1MSJ9.c2ln" in
  Auth.bearer (Some ("Bearer " ++ token)%string) = Some token
  /\ Auth.handshake_token (Auth.mkHandshake None (Some ("Bearer " ++ token)%string)) = Some token
  /\ Auth.authenticateToken verify e [] None = Auth.answered 401 "Access token required"
  /\ Auth.authenticateSocket verify e [] (Auth.mkHandshake None None)
     = Auth.refused "Authentication token required".
Proof.
  intros verify e token.
  apply (bearer_token_is_read_back verify e [] token); [discriminate | reflexivity].
Defined.

(** X22: [optionalAuth] sets [req.user] for the requests [authenticateToken]
    lets through, with the same user, and for no other; it never answers. *)
Theorem optionalAuth_agrees_with_authenticateToken
    (verify : string -> option string -> Auth.Verified) e users authorization :
  Auth.optionalAuth verify e users authorization
  = match Auth.authenticateToken verify e users authorization with
    | Auth.next user => Auth.next user
    | Auth.answered _ _ => Auth.next None
    end.
Proof.
  unfold Auth.optionalAuth, Auth.authenticateToken.
  destruct (Auth.bearer authorization) as [token|]; [|reflexivity].
  destruct (verify token _) as [c| | |]; try reflexivity.
  destruct (Auth.findUser _ users) as [u|]; [|reflexivity].
  now destruct (String.eqb _ _).
Qed.

(** X23: the tokens of the API open no socket.  [generateTokens] signs the
    payloads [{ userId }] and [{ userId, type }]; [authenticateSocket] looks
    the user up under [decoded.id], which they do not have: with a [verify]
    that returns what was signed or throws, a socket that presents the access
    token or the refresh token is never admitted, while the middleware of the
    routes lets the access token of an active user through. *)
Theorem socket_refuses_the_tokens_of_the_api
    (verify : string -> option string -> Auth.Verified)
    (sign : Auth.Claims -> string -> string -> string) e users user h :
  let tokens := Auth.generateTokens sign e user in
  (forall secret c, verify (fst tokens) secret = Auth.decoded c -> c = Auth.access_claims user) ->
  (forall secret c, verify (snd tokens) secret = Auth.decoded c -> c = Auth.refresh_claims user) ->
  Auth.handshake_token h = Some (fst tokens) \/ Auth.handshake_token h = Some (snd tokens) ->
  (exists msg, Auth.authenticateSocket verify e users h = Auth.refused msg)
  /\ (forall u,
        verify (fst tokens) (Some (Auth.JWT_SECRET e)) = Auth.decoded (Auth.access_claims user) ->
        findById User._id user users = Some u -> User.accountStatus u = "active" ->
        fst tokens <> "" -> no_space (fst tokens) = true ->
        Auth.authenticateToken verify e users (Some ("Bearer " ++ fst tokens)%string)
        = Auth.next (Some u)).
Proof.
  intros tokens Ha Hr Hh. split.
  - unfold Auth.authenticateSocket.
    destruct Hh as [-> | ->].
    + destruct (Js.falsy _); [eauto|].
      destruct (verify (fst tokens) _) as [c| | |] eqn:V; eauto.
      rewrite (Ha _ _ V). simpl. eauto.
    + destruct (Js.falsy _); [eauto|].
      destruct (verify (snd tokens) _) as [c| | |] eqn:V; eauto.
      rewrite (Hr _ _ V). simpl. eauto.
  - intros u V Hf Hs Hne Hns. unfold Auth.authenticateToken.
    rewrite (bearer_of_header _ Hne Hns), V. simpl. rewrite Hf, Hs. reflexivity.
Qed.

Lemma socket_refuses_the_tokens_of_the_api_witness :
  let sign := fun (c : Auth.Claims) (_ _ : string) =>
                match Auth.type c with Some _ => "refresh.u1" | None => "access.u1" end in
  let verify := fun (token : string) (secret : option string) =>
                  if String.eqb token "access.u1" then Auth.decoded (Auth.access_claims "u1")
                  else if String.eqb token "refresh.u1"
                       then Auth.decoded (Auth.refresh_claims "u1")
                       else Auth.JsonWebTokenError in
  let e := Auth.mkEnvironment (Some "secret") None None None in
  let u := User.mk "u1" "active" [] false true in
  let tokens := Auth.generateTokens sign e "u1" in
  tokens = ("access.u1", "refresh.u1")
  /\ (exists msg,
        Auth.authenticateSocket verify e [u] (Auth.mkHandshake (Some "access.u1") None)
        = Auth.refused msg)
  /\ Auth.authenticateToken verify e [u] (Some ("Bearer " ++ fst tokens)%string) = Auth.next (Some u).
Proof.
  intros sign verify e u tokens. split; [reflexivity|].
  assert (forall secret c,
            verify (fst tokens) secret = Auth.decoded c -> c = Auth.access_claims "u1") as Ha
    by (intros secret c [= <-]; reflexivity).
  assert (forall secret c,
            verify (snd tokens) secret = Auth.decoded c -> c = Auth.refresh_claims "u1") as Hr
    by (intros secret c [= <-]; reflexivity).
  split.
  - apply (proj1 (socket_refuses_the_tokens_of_the_api verify sign e [u] "u1"
                    (Auth.mkHandshake (Some "access.u1") None) Ha Hr (or_introl eq_refl))).
  - apply (proj2 (socket_refuses_the_tokens_of_the_api verify sign e [u] "u1"
                    (Auth.mkHandshake (Some "access.u1") None) Ha Hr (or_introl eq_refl)));
      [reflexivity | reflexivity | reflexivity | discriminate | reflexivity].
Defined.

(** ** Refresh tokens *)

Lemma slice_last_all {A : Type} (n : nat) (l : list A) :
  (List.length l <= n)%nat -> User.slice_last n l = l.
Proof.
  intros H. unfold User.slice_last.
  replace (List.length l - n)%nat with 0%nat by lia. reflexivity.
Qed.

Lemma slice_last_length {A : Type} (n : nat) (l : list A) :
  List.length (User.slice_last n l) = Nat.min n (List.length l).
Proof. unfold User.slice_last. rewrite length_drop. lia. Qed.

Lemma slice_last_app {A : Type} (n : nat) (l r : list A) :
  User.slice_last n (User.slice_last n l ++ r) = User.slice_last n (l ++ r).
Proof.
  destruct (Nat.le_gt_cases (List.length l) n) as [Hle|Hgt].
  - now rewrite (slice_last_all n l Hle).
  - unfold User.slice_last. rewrite !length_app, length_drop.
    replace (List.length l - (List.length l - n) + List.length r - n)%nat
      with (List.length r) by lia.
    replace (List.length l + List.length r - n)%nat
      with (List.length l - n + List.length r)%nat by lia.
    rewrite <- drop_drop. f_equal.
    rewrite drop_app_le by lia. reflexivity.
Qed.

Lemma addRefreshToken_tokens token u :
  User.refreshTokens (User.addRefreshToken token u)
  = User.slice_last 5 (User.refreshTokens u ++ [token]).
Proof.
  unfold User.addRefreshToken. simpl.
  destruct (5 <? _)%nat eqn:E; [reflexivity|].
  apply Nat.ltb_ge in E. now rewrite slice_last_all.
Qed.

Lemma fold_addRefreshToken tokens : forall u,
  tokens <> [] ->
  User.refreshTokens (fold_left (fun u token => User.addRefreshToken token u) tokens u)
  = User.slice_last 5 (User.refreshTokens u ++ tokens).
Proof.
  induction tokens as [|t rest IH]; intros u Hne; [contradiction|].
  simpl. destruct rest as [|t' rest'].
  - simpl. apply addRefreshToken_tokens.
  - rewrite IH by discriminate. rewrite addRefreshToken_tokens, slice_last_app.
    now rewrite <- app_assoc.
Qed.

(** X24: a user keeps the last five refresh tokens.  After any number of
    [addRefreshToken], one at least, the tokens of the user are the last five
    of the tokens held before followed by the tokens added, in that order, or
    all of them when they are fewer; [removeRefreshToken] takes out every
    copy of its token and keeps the others in their order. *)
Theorem refresh_tokens_are_the_last_five :
  (forall tokens u,
      tokens <> [] ->
      User.refreshTokens (fold_left (fun u token => User.addRefreshToken token u) tokens u)
      = User.slice_last 5 (User.refreshTokens u ++ tokens))
  /\ (forall n (l : list string),
        List.length (User.slice_last n l) = Nat.min n (List.length l)
        /\ exists dropped, l = dropped ++ User.slice_last n l)
  /\ (forall token u,
        User.refreshTokens (User.removeRefreshToken token u)
        = List.filter (fun t => negb (String.eqb t token)) (User.refreshTokens u)
        /\ ~ In token (User.refreshTokens (User.removeRefreshToken token u))).
Proof.
  split; [|split].
  - intros tokens u. apply fold_addRefreshToken.
  - intros n l. split; [apply slice_last_length|].
    exists (take (List.length l - n) l). unfold User.slice_last. now rewrite take_drop.
  - intros token u. split; [reflexivity|]. simpl. intros Hin.
    apply List.filter_In in Hin as [_ Hn]. now rewrite String.eqb_refl in Hn.
Qed.

Lemma refresh_tokens_are_the_last_five_witness :
  let u := User.mk "u1" "active" ["t1"; "t2"; "t3"] false true in
  let tokens := ["t4"; "t5"; "t6"; "t7"] in
  User.refreshTokens (fold_left (fun u token => User.addRefreshToken token u) tokens u)
  = ["t3"; "t4"; "t5"; "t6"; "t7"]
  /\ User.refreshTokens (fold_left (fun u token => User.addRefreshToken token u) tokens u)
     = User.slice_last 5 (User.refreshTokens u ++ tokens).
Proof.
  intros u tokens. split; [reflexivity|].
  apply (proj1 refresh_tokens_are_the_last_five tokens u). discriminate.
Defined.

Lemma slice_last_suffix {A : Type} (n : nat) (l r : list A) :
  (n <= List.length r)%nat -> User.slice_last n (l ++ r) = User.slice_last n r.
Proof.
  intros H. unfold User.slice_last. rewrite length_app.
  rewrite drop_app_ge by lia. f_equal. lia.
Qed.

(** X25: a refresh token is turned away once five others were issued.  A
    token that verifies as a refresh token of a user is answered 'Token not
    found' by [verifyRefreshToken] when five tokens or more, none of them
    this one, were added to the user since. *)
Theorem refresh_token_is_forgotten_after_five_more
    (verify : string -> option string -> Auth.Verified) e users u token later u' :
  verify token (Some (Auth.JWT_REFRESH_SECRET e))
  = Auth.decoded (Auth.refresh_claims (User._id u)) ->
  (5 <= List.length later)%nat -> ~ In token later ->
  u' = fold_left (fun u token => User.addRefreshToken token u) later u ->
  findById User._id (User._id u) users = Some u' ->
  Auth.verifyRefreshToken verify e users token = inr (Auth.Error "Token not found").
Proof.
  intros V Hlen Hnot -> Hf. unfold Auth.verifyRefreshToken. rewrite V. simpl. rewrite Hf.
  assert (later <> []) as Hne by (destruct later; [simpl in Hlen; lia | discriminate]).
  rewrite (fold_addRefreshToken later u Hne), (slice_last_suffix 5 _ later Hlen).
  destruct (existsb _ _) eqn:E; [|reflexivity].
  exfalso. apply existsb_exists in E as (t & Hin & Ht). apply String.eqb_eq in Ht. subst t.
  apply Hnot. unfold User.slice_last in Hin.
  rewrite <- (take_drop (List.length later - 5) later). apply in_or_app. now right.
Qed.

Lemma refresh_token_is_forgotten_after_five_more_witness :
  let verify := fun (token : string) (_ : option string) =>
                  if String.eqb token "t1" then Auth.decoded (Auth.refresh_claims "u1")
                  else Auth.JsonWebTokenError in
  let e := Auth.mkEnvironment None None None None in
  let u := User.mk "u1" "active" ["t1"] false true in
  let later := ["t2"; "t3"; "t4"; "t5"; "t6"] in
  let u' := fold_left (fun u token => User.addRefreshToken token u) later u in
  Auth.verifyRefreshToken verify e [u] "t1" = inl u
  /\ Auth.verifyRefreshToken verify e [u'] "t1" = inr (Auth.Error "Token not found").
Proof.
  intros verify e u later u'. split; [reflexivity|].
  apply (refresh_token_is_forgotten_after_five_more verify e [u'] u "t1" later u').
  - reflexivity.
  - simpl. lia.
  - simpl. intuition discriminate.
  - reflexivity.
  - reflexivity.
Defined.

(** ** The rate limiter *)

Module RateLimitFacts.
Import RateLimit.

Lemma recent_recent W now now' l :
  now <= now' -> recent W now' (recent W now l) = recent W now' l.
Proof.
  intros H. unfold recent. induction l as [|t l IH]; simpl; [reflexivity|].
  destruct (t >? now - W) eqn:E; simpl; rewrite IH; [reflexivity|].
  destruct (t >? now' - W) eqn:E'; [lia | reflexivity].
Qed.

Lemma recent_app W now a b : recent W now (a ++ b) = recent W now a ++ recent W now b.
Proof. unfold recent. apply List.filter_app. Qed.

Lemma times_of_app c a b : times_of c (a ++ b) = times_of c a ++ times_of c b.
Proof. unfold times_of. now rewrite List.filter_app, map_app. Qed.

Lemma count_app W c t a b :
  count_in_window W c t (a ++ b) = count_in_window W c t a + count_in_window W c t b.
Proof. unfold count_in_window. rewrite List.filter_app, length_app. lia. Qed.

(** In a window that ends no sooner than every request, the requests of the
    client in the window are those after its start. *)
Lemma count_recent W c t calls :
  Forall (fun call => snd call <= t) calls ->
  count_in_window W c t calls = Z.of_nat (List.length (recent W t (times_of c calls))).
Proof.
  unfold count_in_window, recent, times_of, in_window.
  induction 1 as [|[c' t'] l Ht Hl IH]; simpl in *; [reflexivity|].
  destruct (String.eqb c' c); simpl; [|exact IH].
  destruct (t' >? t - W) eqn:E.
  - assert ((t - W <? t') && (t' <=? t) = true) as -> by lia. simpl. lia.
  - assert ((t - W <? t') && (t' <=? t) = false) as -> by lia. exact IH.
Qed.

(** A window that ends at [t] holds no more requests of the past than the
    window that ends at the last of them. *)
Lemma count_le_recent W c t T calls :
  Forall (fun call => snd call <= T) calls -> T - W <= t - W ->
  count_in_window W c t calls <= Z.of_nat (List.length (recent W T (times_of c calls))).
Proof.
  unfold count_in_window, recent, times_of, in_window. intros H HT.
  induction H as [|[c' t'] l Ht Hl IH]; simpl in *; [lia|].
  destruct (String.eqb c' c); simpl; [|exact IH].
  destruct (t' >? T - W) eqn:E; simpl.
  - destruct ((t - W <? t') && (t' <=? t)); simpl; lia.
  - assert ((t - W <? t') && (t' <=? t) = false) as -> by lia. exact IH.
Qed.

Lemma touched_lookup c (clients : Clients) :
  let clients1 :=
    match clients !! c with
    | None => <[c := []]> clients
    | Some _ => clients
    end in
  default [] (clients1 !! c) = default [] (clients !! c)
  /\ forall c', c' <> c -> clients1 !! c' = clients !! c'.
Proof.
  cbv zeta. destruct (clients !! c) as [l|] eqn:L.
  - rewrite L. split; reflexivity.
  - split; [now rewrite lookup_insert_eq|].
    intros c' N. now rewrite lookup_insert_ne by congruence.
Qed.

Lemma stored_after_lookup requests W c now clients c' :
  default [] (fst (rateLimit requests W c now clients) !! c')
  = if decide (c' = c)
    then (if Z.of_nat (List.length (recent W now (default [] (clients !! c)))) >=? requests
          then default [] (clients !! c)
          else recent W now (default [] (clients !! c)) ++ [now])
    else default [] (clients !! c').
Proof.
  unfold rateLimit, recent.
  destruct (touched_lookup c clients) as [E1 E2]. cbv zeta in E1, E2.
  rewrite E1. destruct (_ >=? requests); cbn [fst].
  - destruct (decide (c' = c)) as [->|N]; [exact E1 | now rewrite E2].
  - destruct (decide (c' = c)) as [->|N].
    + now rewrite lookup_insert_eq.
    + rewrite lookup_insert_ne by congruence. now rewrite E2.
Qed.

Lemma verdict_spec requests W c now clients :
  snd (rateLimit requests W c now clients)
  = if Z.of_nat (List.length (recent W now (default [] (clients !! c)))) >=? requests
    then too_many (ceil_div W 1000) else next.
Proof.
  unfold rateLimit, recent.
  destruct (touched_lookup c clients) as [E1 _]. cbv zeta in E1.
  rewrite E1. now destruct (_ >=? requests).
Qed.

Lemma admitted_cons requests W c now rest clients :
  admitted requests W ((c, now) :: rest) clients
  = (match snd (rateLimit requests W c now clients) with
     | next => [(c, now)]
     | too_many _ => []
     end)
    ++ admitted requests W rest (fst (rateLimit requests W c now clients)).
Proof.
  simpl. destruct (rateLimit requests W c now clients) as [cl v]. now destruct v.
Qed.

(** One request keeps the invariant. *)
Lemma limiter_step requests W c now clients adm T :
  0 < W -> T <= now ->
  limiter_inv requests W clients adm T ->
  limiter_inv requests W (fst (rateLimit requests W c now clients))
    (adm ++ match snd (rateLimit requests W c now clients) with
            | next => [(c, now)]
            | too_many _ => []
            end)
    now.
Proof.
  intros HW HT [Hrec Hpast Hbound].
  rewrite verdict_spec.
  pose proof (Hrec c now HT) as Hc.
  destruct (_ >=? requests) eqn:E.
  - (* turned away *)
    rewrite app_nil_r. split.
    + intros c' now' Hn. rewrite stored_after_lookup, E.
      destruct (decide (c' = c)) as [->|N]; apply Hrec; lia.
    + eapply Forall_impl; [exact Hpast|]. simpl. intros; lia.
    + exact Hbound.
  - (* let through *)
    split.
    + intros c' now' Hn. rewrite stored_after_lookup, E, times_of_app.
      destruct (decide (c' = c)) as [->|N].
      * rewrite !recent_app, recent_recent by exact Hn.
        rewrite (Hrec c now') by lia. f_equal.
        unfold times_of. simpl. now rewrite String.eqb_refl.
      * unfold times_of at 2. simpl.
        assert (String.eqb c c' = false) as -> by (apply String.eqb_neq; congruence).
        simpl. rewrite app_nil_r. apply Hrec. lia.
    + apply Forall_app. split; [|repeat constructor; simpl; lia].
      eapply Forall_impl; [exact Hpast|]. simpl. intros; lia.
    + intros c' t. rewrite count_app.
      unfold count_in_window at 2. unfold in_window. simpl.
      destruct (String.eqb_spec c c') as [<-|N]; simpl;
        [|specialize (Hbound c' t); lia].
      destruct ((t - W <? now) && (now <=? t)) eqn:Ew; simpl;
        [|specialize (Hbound c t); lia].
      assert (count_in_window W c t adm
              <= Z.of_nat (List.length (recent W now (times_of c adm)))) as Hle.
      { apply count_le_recent; [|lia].
        eapply Forall_impl; [exact Hpast|]. simpl. intros; lia. }
      rewrite <- Hc in Hle. lia.
Qed.

Lemma limiter_run requests W calls : forall clients adm T,
  0 < W ->
  limiter_inv requests W clients adm T ->
  Forall (fun call => T <= snd call) calls ->
  StronglySorted (fun a b => snd a <= snd b) calls ->
  exists T',
    (forall B, T <= B -> Forall (fun call => snd call <= B) calls -> T' <= B)
    /\ limiter_inv requests W (clients_after requests W calls clients)
         (adm ++ admitted requests W calls clients) T'.
Proof.
  induction calls as [|[c now] rest IH]; intros clients adm T HW Hinv Hall Hs.
  - exists T. split; [auto|]. simpl. now rewrite app_nil_r.
  - apply Forall_cons in Hall as [Hnow Hall]. apply StronglySorted_cons in Hs as [Hrest Hs].
    simpl in Hnow.
    pose proof (limiter_step requests W c now clients adm T HW Hnow Hinv) as Hstep.
    destruct (IH _ _ now HW Hstep Hrest Hs) as (T' & HT' & Hfin).
    exists T'. split.
    + intros B HB Hle. apply Forall_cons in Hle as [Hn Hle]. apply HT'; assumption.
    + rewrite admitted_cons, app_assoc. exact Hfin.
Qed.

Lemma limiter_init requests W T : 0 <= requests -> limiter_inv requests W ∅ [] T.
Proof.
  intros Hr. split.
  - intros c now _. now rewrite lookup_empty.
  - constructor.
  - intros c t. unfold count_in_window. simpl. exact Hr.
Qed.

End RateLimitFacts.

(** X26: the rate limiter lets through at most [requests] requests of a client
    in any window of [windowMs].  For requests that come in the order of
    their time stamps, served from the empty map, and any client and any
    time [t], at most [requests] of the requests let through are requests
    of the client after [t - windowMs] and not after [t]. *)
Theorem rate_limit_bounds_every_window requests windowMs calls clientId t :
  0 <= requests -> 0 < windowMs ->
  StronglySorted (fun a b => snd a <= snd b) calls ->
  RateLimit.count_in_window windowMs clientId t
    (RateLimit.admitted requests windowMs calls ∅)
  <= requests.
Proof.
  intros Hr HW Hs.
  destruct calls as [|[c0 t0] rest] eqn:Ec.
  { unfold RateLimit.count_in_window. simpl. exact Hr. }
  rewrite <- Ec in *.
  assert (Forall (fun call => t0 <= snd call) calls) as Hall.
  { rewrite Ec in *. apply StronglySorted_cons in Hs as [Hrest _].
    constructor; [simpl; lia | exact Hrest]. }
  destruct (RateLimitFacts.limiter_run requests windowMs calls ∅ [] t0 HW
              (RateLimitFacts.limiter_init requests windowMs t0 Hr) Hall Hs)
    as (T' & _ & [_ _ Hb]).
  apply Hb.
Qed.

Lemma rate_limit_bounds_every_window_witness :
  let calls := [("10.0.0.7", 0); ("10.0.0.7", 10); ("10.0.0.9", 10); ("10.0.0.7", 999);
                ("10.0.0.7", 1000); ("10.0.0.7", 1010)] in
  RateLimit.admitted 2 1000 calls ∅
  = [("10.0.0.7", 0); ("10.0.0.7", 10); ("10.0.0.9", 10); ("10.0.0.7", 1000);
     ("10.0.0.7", 1010)]
  /\ RateLimit.count_in_window 1000 "10.0.0.7" 1005 (RateLimit.admitted 2 1000 calls ∅) <= 2.
Proof.
  intros calls. split; [vm_compute; reflexivity|].
  apply (rate_limit_bounds_every_window 2 1000 calls "10.0.0.7" 1005); [lia | lia |].
  repeat constructor; simpl; lia.
Defined.

(** X27: the rate limiter lets a request through exactly when fewer than
    [requests] requests of its client were let through in the window that
    ends with it.  For requests that came in the order of their time stamps,
    served from the empty map, the next request of [clientId], at [now], is
    passed on when fewer than [requests] of the requests let through are
    requests of [clientId] after [now - windowMs], and is answered 429
    otherwise: the requests that were turned away and the requests of other
    clients do not count. *)
Theorem rate_limit_counts_what_it_let_through requests windowMs before clientId now :
  0 <= requests -> 0 < windowMs ->
  StronglySorted (fun a b => snd a <= snd b) (before ++ [(clientId, now)]) ->
  snd (RateLimit.rateLimit requests windowMs clientId now
         (RateLimit.clients_after requests windowMs before ∅))
  = (if RateLimit.count_in_window windowMs clientId now
          (RateLimit.admitted requests windowMs before ∅) <? requests
     then RateLimit.next
     else RateLimit.too_many (RateLimit.ceil_div windowMs 1000)).
Proof.
  intros Hr HW Hs.
  apply StronglySorted_app in Hs as (Hcross & Hsb & _).
  assert (Forall (fun call => snd call <= now) before) as Hle.
  { apply List.Forall_forall. intros call Hin.
    apply (Hcross call (clientId, now)); [now apply list_elem_of_In|].
    apply list_elem_of_In. now left. }
  set (T := match before with [] => now | call :: _ => snd call end).
  assert (Forall (fun call => T <= snd call) before) as Hall.
  { unfold T. destruct before as [|[c0 t0] rest]; [constructor|].
    apply StronglySorted_cons in Hsb as [Hrest _].
    constructor; [simpl; lia | exact Hrest]. }
  assert (T <= now) as HT.
  { unfold T. destruct before as [|[c0 t0] rest]; [lia|].
    apply Forall_cons in Hle as [H _]. exact H. }
  destruct (RateLimitFacts.limiter_run requests windowMs before ∅ [] T HW
              (RateLimitFacts.limiter_init requests windowMs T Hr) Hall Hsb)
    as (T' & HT' & [Hrec Hpast _]).
  specialize (HT' now HT Hle). simpl in Hrec, Hpast.
  rewrite RateLimitFacts.verdict_spec, (Hrec clientId now HT').
  rewrite <- (RateLimitFacts.count_recent windowMs clientId now).
  2: { eapply Forall_impl; [exact Hpast|]. simpl. intros; lia. }
  destruct (_ >=? requests) eqn:E1, (_ <? requests) eqn:E2; try reflexivity; lia.
Qed.

Lemma rate_limit_counts_what_it_let_through_witness :
  let before := [("10.0.0.7", 0); ("10.0.0.7", 10); ("10.0.0.9", 10); ("10.0.0.7", 999)] in
  RateLimit.count_in_window 1000 "10.0.0.7" 1000 (RateLimit.admitted 2 1000 before ∅) = 1
  /\ snd (RateLimit.rateLimit 2 1000 "10.0.0.7" 1000 (RateLimit.clients_after 2 1000 before ∅))
     = (if RateLimit.count_in_window 1000 "10.0.0.7" 1000
             (RateLimit.admitted 2 1000 before ∅) <? 2
        then RateLimit.next
        else RateLimit.too_many (RateLimit.ceil_div 1000 1000)).
Proof.
  intros before. split; [vm_compute; reflexivity|].
  apply (rate_limit_counts_what_it_let_through 2 1000 before "10.0.0.7" 1000); [lia | lia |].
  repeat constructor; simpl; lia.
Defined.

(** ** The metrics loop, twice *)

Lemma getActiveUsersCount_rooms eventId s s' :
  rooms s' = rooms s -> getActiveUsersCount eventId s' = getActiveUsersCount eventId s.
Proof. unfold getActiveUsersCount. now intros ->. Qed.

Lemma reconciled_live s d : is_live (reconciled s d) = is_live d.
Proof.
  unfold reconciled. destruct (is_live d) eqn:L; [|exact L].
  rewrite reconcile_spec. destruct (_ =? _); simpl; exact L.
Qed.

Lemma reconciled_settled s s' d :
  rooms s' = rooms s -> is_live d = true ->
  reconcile (getActiveUsersCount (LiveEvent.eventId (reconciled s d)) s') (reconciled s d)
  = None.
Proof.
  intros Hr L. unfold reconciled. rewrite L.
  destruct (reconcile _ d) as [d'|] eqn:R; simpl.
  - pose proof (reconcile_keys _ _ _ R) as [_ He]. rewrite He.
    rewrite (getActiveUsersCount_rooms _ s s' Hr).
    rewrite reconcile_spec in R. destruct (_ =? _) eqn:E; [discriminate|].
    injection R as <-. rewrite reconcile_spec. simpl. now rewrite Z.eqb_refl.
  - now rewrite (getActiveUsersCount_rooms _ s s' Hr).
Qed.

Lemma reconciled_twice s s' d :
  rooms s' = rooms s -> reconciled s' (reconciled s d) = reconciled s d.
Proof.
  intros Hr. unfold reconciled at 1. rewrite reconciled_live.
  destruct (is_live d) eqn:L; [|reflexivity].
  now rewrite (reconciled_settled s s' d Hr L).
Qed.

Lemma store_eq s s' :
  same_but_liveEvents s s' -> liveEvents s' = liveEvents s -> s' = s.
Proof.
  intros (H1 & H2 & H3 & H4 & H5 & H6 & H7 & H8) H0.
  destruct s, s'. simpl in *. congruence.
Qed.

Lemma settled_sends_nothing s s' l :
  rooms s' = rooms s ->
  flat_map (tick_emit s') (List.filter is_live (map (reconciled s) l)) = [].
Proof.
  intros Hr. induction l as [|d l IH]; simpl; [reflexivity|].
  rewrite reconciled_live. destruct (is_live d) eqn:L; [|exact IH].
  simpl. unfold tick_emit at 1. now rewrite (reconciled_settled s s' d Hr L).
Qed.

(** X28: a second turn of the metrics loop right after the first does nothing.
    Run on the store the first turn left, with the rooms as they were, the
    loop saves no LiveEvent and sends no [metrics_update]. *)
Theorem metrics_loop_settles_in_one_turn s :
  List.NoDup (map LiveEvent._id (liveEvents s)) ->
  metrics_tick (store (metrics_tick s)) = mkOutcome (store (metrics_tick s)) [] None.
Proof.
  intros Hnd. set (s1 := store (metrics_tick s)).
  pose proof (metrics_tick_frame s) as Hf. fold s1 in Hf.
  assert (rooms s1 = rooms s) as Hr by apply Hf.
  assert (liveEvents s1 = map (reconciled s) (liveEvents s)) as Hl.
  { unfold s1, metrics_tick.
    now rewrite (tick_fold_liveEvents s (liveEvents s) [] (mkOutcome s [] None)). }
  assert (List.NoDup (map LiveEvent._id (liveEvents s1))) as Hnd1.
  { rewrite Hl, map_map.
    replace (map (fun x => LiveEvent._id (reconciled s x)) (liveEvents s))
      with (map LiveEvent._id (liveEvents s)); [exact Hnd|].
    apply map_ext. intros d. unfold reconciled. destruct (is_live d); [|reflexivity].
    destruct (reconcile _ d) as [d'|] eqn:R; [|reflexivity].
    simpl. apply reconcile_keys in R as [E _]. now rewrite E. }
  assert (emits (metrics_tick s1) = []) as He.
  { unfold metrics_tick. rewrite tick_fold_all_emits. simpl.
    rewrite Hl. now apply settled_sends_nothing. }
  assert (liveEvents (store (metrics_tick s1)) = liveEvents s1) as Hs.
  { unfold metrics_tick.
    rewrite (tick_fold_liveEvents s1 (liveEvents s1) [] (mkOutcome s1 [] None))
      by (try reflexivity; exact Hnd1).
    simpl. rewrite Hl, map_map. apply map_ext. intros d. now apply reconciled_twice. }
  assert (reply (metrics_tick s1) = None) as Hp
    by (unfold metrics_tick; now apply tick_fold_reply).
  pose proof (store_eq _ _ (metrics_tick_frame s1) Hs) as Hst.
  destruct (metrics_tick s1) as [st em rp]. simpl in *. now subst.
Qed.

Lemma metrics_loop_settles_in_one_turn_witness :
  let h :=
    [ (mkEnv 1000 "le1" true, StartLiveEvent "org" "e1" None);
      (mkEnv 2000 "x" true, JoinEvent "s1" (Some "e1")) ] in
  let s := with_rooms [("s2", "e1"); ("s4", "e1"); ("s5", "e1")]
             (run h (init_store [Event.mk "e1" "org"])) in
  emits (metrics_tick s) = [mkEmit (room "e1") (metrics_update 3 3 0)]
  /\ metrics_tick (store (metrics_tick s)) = mkOutcome (store (metrics_tick s)) [] None.
Proof.
  intros h s. split; [reflexivity|].
  apply (metrics_loop_settles_in_one_turn s).
  vm_compute. repeat constructor. simpl. tauto.
Defined.

(** ** Polls: expiry, and texts that are blank *)





Lemma valid_text_empty max : valid_text max "" = false.
Proof. reflexivity. Qed.

(** X30: a blank text is turned away by the route for an icebreaker, a
    question of the Q&A and a chat message, and by the schema for a poll.
    For a live event, a poll whose question is not empty but blank, or one
    of whose options is blank, is answered 500 'Failed to create poll' and
    not saved; a blank icebreaker, question or chat message is answered 400. *)
Theorem blank_poll_texts_fail_in_the_schema env user eventId question options allowMultiple
    expiresIn s liveEvent :
  findLive eventId s = Some liveEvent ->
  question <> "" -> (2 <= List.length options)%nat ->
  Js.trim question = "" \/ Exists (fun text => Js.trim text = "") options ->
  create_poll env user eventId (Some question) (Some options) allowMultiple expiresIn s
  = reject s 500 "Failed to create poll"
  /\ (Js.trim question = "" ->
      create_icebreaker env user eventId (Some question) s = reject s 400 "Question is required"
      /\ ask_question env user eventId (Some question) s = reject s 400 "Question is required"
      /\ forall messageType,
           send_chat env user eventId (Some question) messageType s
           = reject s 400 "Message is required").
Proof.
  intros Hf Hq Hn Hb. split.
  - unfold create_poll. rewrite Hf.
    assert (Js.falsy (Some question) = false) as ->.
    { destruct question; [contradiction | reflexivity]. }
    assert ((Z.of_nat (List.length options) <? 2) = false) as -> by lia.
    simpl.
    assert (valid_text 500 (Js.trim question)
            && forallb (fun o => valid_text 200 (LivePoll.text o))
                 (map (fun text => LivePoll.mkOption (Js.trim text) [] 0) options) = false)
      as ->; [|reflexivity].
    destruct Hb as [-> | Hex]; [reflexivity|].
    apply andb_false_iff. right. apply not_true_is_false. intros Hall.
    rewrite forallb_forall in Hall. apply List.Exists_exists in Hex as (text & Hin & Ht).
    assert (valid_text 200 (LivePoll.text (LivePoll.mkOption (Js.trim text) [] 0)) = true)
      as Hvalid.
    { apply Hall, in_map_iff. exists text. now split. }
    simpl in Hvalid. rewrite Ht in Hvalid. discriminate Hvalid.
  - intros Ht.
    assert (blank (Some question) = true) as Hbl.
    { unfold blank. rewrite Ht. apply orb_true_r. }
    unfold create_icebreaker, ask_question, send_chat. rewrite Hbl. repeat split.
Qed.

Lemma blank_poll_texts_fail_in_the_schema_witness :
  let s :=
    run [(mkEnv 1000 "le1" true, StartLiveEvent "org" "e1" None)]
        (init_store [Event.mk "e1" "org"]) in
  let env := mkEnv 2000 "p1" true in
  create_poll env "org" "e1" (Some "Lunch?") (Some ["yes"; "  "]) None None s
  = reject s 500 "Failed to create poll"
  /\ create_poll env "org" "e1" (Some "   ") (Some ["yes"; "no"]) None None s
     = reject s 500 "Failed to create poll"
  /\ create_icebreaker env "org" "e1" (Some "   ") s = reject s 400 "Question is required".
Proof.
  intros s env. split; [|split].
  - apply (blank_poll_texts_fail_in_the_schema env "org" "e1" "Lunch?" ["yes"; "  "] None None
             s (LiveEvent.mk "le1" "e1" LiveEvent.live LiveEvent.default_settings
                  LiveEvent.default_metrics (Some 1000) None));
      [reflexivity | discriminate | simpl; lia |].
    right. apply Exists_cons_tl, Exists_cons_hd. reflexivity.
  - apply (blank_poll_texts_fail_in_the_schema env "org" "e1" "   " ["yes"; "no"] None None
             s (LiveEvent.mk "le1" "e1" LiveEvent.live LiveEvent.default_settings
                  LiveEvent.default_metrics (Some 1000) None));
      [reflexivity | discriminate | simpl; lia | now left].
  - apply (blank_poll_texts_fail_in_the_schema env "org" "e1" "   " ["yes"; "no"] None None
             s (LiveEvent.mk "le1" "e1" LiveEvent.live LiveEvent.default_settings
                  LiveEvent.default_metrics (Some 1000) None));
      [reflexivity | discriminate | simpl; lia | now left | reflexivity].
Defined.
